(** * apple_haptic_creator: the pattern construction engine of package [ahap]

    A shallow embedding of [pkg/ahap] (document model, curve interpolator,
    musical time converter, fluent builder and sequence generator) and of
    the numeric helpers of the command-line tools, together with the
    properties its specification states about it and further properties of
    the code.

    Numbers.  Go's [float64] is kept abstract behind the operation record
    [Float64]; every function of the package is written once, against that
    record, in the order the Go source evaluates its operands.  Two instances
    are given:
    - [Exact]: real numbers, arithmetic without rounding.  The universally
      quantified arithmetic laws of the specification are stated and proved
      here; it has neither rounding nor NaN.
    - [Binary64]: IEEE-754 binary64 with round-to-nearest-even (the kernel's
      primitive floats), without fused multiply-add.  The package's functions
      run on it by evaluation; [math.Log] and [math.Pow] have no instance
      there.
    Properties that do not depend on the arithmetic are proved for every
    instance.

    Integers.  Go's [int] is taken as the 64-bit two's-complement integer: a
    [Z] with [GoInt.wrap] applied wherever the source's arithmetic can leave
    the range.

    State.  A method with a pointer receiver mutates its receiver; here it
    takes the receiver's state and returns the new one.  Memory is unbounded:
    [make] and [append] always succeed.  Loops whose exit depends on wrapping
    integers run on fuel. *)

From Stdlib Require Import ZArith List Bool Reals Lra Lia String.
From Stdlib Require Import Floats.
From stdpp Require Import base list.

Set Default Proof Using "Type".
Local Open Scope Z_scope.

(** ** Go's [int] *)

Module GoInt.

Definition min_int : Z := - 2 ^ 63.
Definition max_int : Z := 2 ^ 63 - 1.

(** Two's-complement wrap-around of an out-of-range result. *)
Definition wrap (z : Z) : Z := (z + 2 ^ 63) mod 2 ^ 64 - 2 ^ 63.

Definition in_range (z : Z) : Prop := min_int <= z <= max_int.

Definition add (x y : Z) : Z := wrap (x + y).
Definition sub (x y : Z) : Z := wrap (x - y).
Definition mul (x y : Z) : Z := wrap (x * y).
(** [x / y] and [x % y] truncate toward zero; the caller checks [y <> 0]
    (Go panics on a zero divisor).  [min_int / -1] wraps to [min_int]. *)
Definition quo (x y : Z) : Z := wrap (Z.quot x y).
Definition rem (x y : Z) : Z := Z.rem x y.

End GoInt.

(** ** Go's [float64], as an interface *)

(** The operations the package applies to [float64] values.  [f_lt x y] is
    Go's [x < y]; Go's [x > y] is [f_lt y x].  [f_of_int] is the conversion
    [float64(i)] of an [int], also used for the integral literals of the
    source ([60.0], [3.0], [2.0], [80], [230], [120]); [f_half] is the
    literal [0.5]. *)
Class Float64 (F : Type) := {
  f_add : F -> F -> F;
  f_sub : F -> F -> F;
  f_mul : F -> F -> F;
  f_div : F -> F -> F;
  f_lt : F -> F -> bool;
  f_of_int : Z -> F;
  f_half : F;
}.

(** [math.Log] and [math.Pow]. *)
Class Float64Math (F : Type) `{Float64 F} := {
  f_log : F -> F;
  f_pow : F -> F -> F;
}.

Declare Scope f64_scope.
Delimit Scope f64_scope with f64.
Infix "+" := f_add : f64_scope.
Infix "-" := f_sub : f64_scope.
Infix "*" := f_mul : f64_scope.
Infix "/" := f_div : f64_scope.
Infix "<?" := f_lt : f64_scope.
Notation "x >? y" := (f_lt y x) (only parsing) : f64_scope.

(** *** Exact arithmetic *)

Module Exact.

Definition Rltb (x y : R) : bool := if Rlt_dec x y then true else false.

#[export] Instance float64 : Float64 R := {|
  f_add := Rplus; f_sub := Rminus; f_mul := Rmult; f_div := Rdiv;
  f_lt := Rltb; f_of_int := IZR; f_half := 0.5%R;
|}.

(** [math.Pow x y] for a positive base is [exp (y * ln x)]; the package
    only raises [t = (i+1)/steps], which is positive, to a power. *)
#[export] Instance float64_math : Float64Math R := {|
  f_log := ln; f_pow := Rpower;
|}.

End Exact.

(** *** IEEE-754 binary64 *)

Module Binary64.

(** [float64(i)]: the integer rounded to nearest, ties to even. *)
Definition of_int (z : Z) : float :=
  SF2Prim (binary_normalize prec emax z 0 false).

#[export] Instance float64 : Float64 float := {|
  f_add := PrimFloat.add; f_sub := PrimFloat.sub;
  f_mul := PrimFloat.mul; f_div := PrimFloat.div;
  f_lt := PrimFloat.ltb; f_of_int := of_int; f_half := 0.5%float;
|}.

End Binary64.

Local Open Scope string_scope.

(** ** Document model ([ahap.go]) *)

Section Model.

Context {F : Type}.

(** [ControlPoint]: a point of a parameter curve. *)
Record ControlPoint : Type := mkControlPoint {
  cp_Time : F;
  cp_ParameterValue : F;
}.

(** [EventParameter]. *)
Record EventParameter : Type := mkEventParameter {
  ep_ParameterID : string;
  ep_ParameterValue : F;
}.

(** [Event]; the two pointer fields are [nil] ([None]) when unset. *)
Record Event : Type := mkEvent {
  ev_Time : F;
  ev_EventType : string;
  ev_EventParameters : list EventParameter;
  ev_EventDuration : option F;
  ev_EventWaveformPath : option string;
}.

(** [ParameterCurve]. *)
Record ParameterCurve : Type := mkParameterCurve {
  pc_ParameterID : string;
  pc_Time : F;
  pc_ParameterCurveControlPoints : list ControlPoint;
}.

(** [Pattern]: a struct of two pointers, [*Event] and [*ParameterCurve]. *)
Record Pattern : Type := mkPattern {
  p_Event : option Event;
  p_ParameterCurve : option ParameterCurve;
}.

Record Metadata : Type := mkMetadata {
  md_Project : string;
  md_Created : string;
  md_Description : string;
  md_CreatedBy : string;
}.

(** [AHAP]: a complete pattern document. *)
Record AHAP : Type := mkAHAP {
  a_Version : F;
  a_Metadata : Metadata;
  a_Pattern : list Pattern;
}.

End Model.

Arguments ControlPoint : clear implicits.
Arguments EventParameter : clear implicits.
Arguments Event : clear implicits.
Arguments ParameterCurve : clear implicits.
Arguments Pattern : clear implicits.
Arguments AHAP : clear implicits.

(** [EventType] constants. *)
Definition EventTypeHapticTransient : string := "HapticTransient".
Definition EventTypeHapticContinuous : string := "HapticContinuous".
Definition EventTypeAudioCustom : string := "AudioCustom".
Definition EventTypeAudioContinuous : string := "AudioContinuous".

(** [ParameterID] constants for event parameters. *)
Definition ParamHapticIntensity : string := "HapticIntensity".
Definition ParamHapticSharpness : string := "HapticSharpness".
Definition ParamHapticAttackTime : string := "HapticAttackTime".
Definition ParamHapticDecayTime : string := "HapticDecayTime".
Definition ParamHapticReleaseTime : string := "HapticReleaseTime".
Definition ParamAudioVolume : string := "AudioVolume".
Definition ParamAudioPitch : string := "AudioPitch".
Definition ParamAudioPan : string := "AudioPan".
Definition ParamAudioBrightness : string := "AudioBrightness".
Definition ParamAudioAttackTime : string := "AudioAttackTime".
Definition ParamAudioDecayTime : string := "AudioDecayTime".
Definition ParamAudioReleaseTime : string := "AudioReleaseTime".

(** [CurveParameterID] constants for parameter curves. *)
Definition CurveHapticIntensity : string := "HapticIntensityControl".
Definition CurveHapticSharpness : string := "HapticSharpnessControl".
Definition CurveAudioVolume : string := "AudioVolumeControl".
Definition CurveAudioPitch : string := "AudioPitchControl".

(** The loop [for i := 0; i < n; i++ { points[i] = body(i) }] over a slice:
    [count] is the number of iterations left, [i] the loop variable.  A write
    at an index outside the slice would panic in Go; the loops below never
    make one ([fill_lookup]). *)
Fixpoint fill {A : Type} (body : Z -> A) (count : nat) (i : Z) (points : list A) : list A :=
  match count with
  | O => points
  | S count' => fill body count' (i + 1) (<[Z.to_nat i := body i]> points)
  end.

(** ** Curve interpolator ([curves.go]) *)

Section Curves.

Context {F : Type} `{Float64Math F}.
Local Open Scope f64_scope.

(** The zero value of [ControlPoint], as [make] fills a new slice. *)
Definition zero_point : ControlPoint F := mkControlPoint (f_of_int 0) (f_of_int 0).

(** [CreateCurve] creates interpolated control points between start and end. *)
Definition CreateCurve (startTime endTime startValue endValue : F) (steps : Z)
  : list (ControlPoint F) :=
  let steps := if (steps <? 1)%Z then 1%Z else steps in
  let timeDiff := endTime - startTime in
  let valueDiff := endValue - startValue in
  let timeStep := timeDiff / f_of_int steps in
  let valueStep := valueDiff / f_of_int steps in
  let points := replicate (Z.to_nat steps) zero_point in
  fill (fun i => mkControlPoint
                   (startTime + timeStep * f_of_int (i + 1))
                   (startValue + valueStep * f_of_int (i + 1)))
       (Z.to_nat steps) 0 points.

(** [LinearInterpolation] creates a linear curve between two points. *)
Definition LinearInterpolation (start end_ : ControlPoint F) (steps : Z)
  : list (ControlPoint F) :=
  CreateCurve (cp_Time start) (cp_Time end_)
              (cp_ParameterValue start) (cp_ParameterValue end_) steps.

(** [EaseInOut] creates an ease-in-out curve. *)
Definition EaseInOut (start end_ : ControlPoint F) (steps : Z) : list (ControlPoint F) :=
  let steps := if (steps <? 1)%Z then 1%Z else steps in
  let timeDiff := cp_Time end_ - cp_Time start in
  let valueDiff := cp_ParameterValue end_ - cp_ParameterValue start in
  let points := replicate (Z.to_nat steps) zero_point in
  fill (fun i =>
          let t := f_of_int (i + 1) / f_of_int steps in
          let smoothT := t * t * (f_of_int 3 - f_of_int 2 * t) in
          mkControlPoint (cp_Time start + timeDiff * t)
                         (cp_ParameterValue start + valueDiff * smoothT))
       (Z.to_nat steps) 0 points.

(** [Exponential] creates an exponential curve. *)
Definition Exponential (start end_ : ControlPoint F) (steps : Z) (exponent : F)
  : list (ControlPoint F) :=
  let steps := if (steps <? 1)%Z then 1%Z else steps in
  let timeDiff := cp_Time end_ - cp_Time start in
  let valueDiff := cp_ParameterValue end_ - cp_ParameterValue start in
  let points := replicate (Z.to_nat steps) zero_point in
  fill (fun i =>
          let t := f_of_int (i + 1) / f_of_int steps in
          let expT := f_pow t exponent in
          mkControlPoint (cp_Time start + timeDiff * t)
                         (cp_ParameterValue start + valueDiff * expT))
       (Z.to_nat steps) 0 points.

(** The two failures of [FreqToSharpness] (its [fmt.Errorf] values): the
    frequency, after optional clamping, is outside the band; the computed
    ratio is outside [0, 1]. *)
Inductive FreqError : Type :=
| ErrIncorrectFrequency (freq : F)
| ErrNormalizedOutOfRange.

(** [FreqToSharpness] converts frequency (Hz) to sharpness value (0-1);
    the result is Go's pair (value, error), [None] for a [nil] error. *)
Definition FreqToSharpness (freq : F) (normalize : bool) : F * option FreqError :=
  let freq :=
    if normalize then
      let freq := if freq >? f_of_int 230 then f_of_int 230 else freq in
      if freq <? f_of_int 80 then f_of_int 80 else freq
    else freq in
  if (freq <? f_of_int 80) || (freq >? f_of_int 230) then
    (f_of_int 0, Some (ErrIncorrectFrequency freq))
  else
    let r := (f_log freq - f_log (f_of_int 80))
             / (f_log (f_of_int 230) - f_log (f_of_int 80)) in
    if (r <? f_of_int 0) || (r >? f_of_int 1) then
      (f_of_int 0, Some ErrNormalizedOutOfRange)
    else (r, None).

End Curves.


(** ** Musical time converter ([musical.go]) *)

(** [TimeSignature]: [Numerator] is the number of beats per bar,
    [Denominator] the note value (4 = quarter note). *)
Record TimeSignature : Type := mkTimeSignature {
  Numerator : Z;
  Denominator : Z;
}.

(** [MusicalContext]; [Beat] and [Bar] are [float64] types. *)
Record MusicalContext (F : Type) : Type := mkMusicalContext {
  BPM : F;
  mc_TimeSignature : TimeSignature;
}.

Arguments mkMusicalContext {F} _ _.
Arguments BPM {F} _.
Arguments mc_TimeSignature {F} _.

Section Musical.

Context {F : Type} `{Float64 F}.
Local Open Scope f64_scope.

(** [NewMusicalContext] creates a new musical context. *)
Definition NewMusicalContext (bpm : F) (numerator denominator : Z) : MusicalContext F :=
  mkMusicalContext bpm (mkTimeSignature numerator denominator).

(** [BeatToSeconds] converts beat to seconds. *)
Definition BeatToSeconds (m : MusicalContext F) (beat : F) : F :=
  beat * (f_of_int 60 / BPM m).

(** [BarToSeconds] converts bar to seconds. *)
Definition BarToSeconds (m : MusicalContext F) (bar : F) : F :=
  let beatsPerBar := f_of_int (Numerator (mc_TimeSignature m)) in
  bar * beatsPerBar * (f_of_int 60 / BPM m).

(** [BeatDuration] returns the duration of one beat in seconds. *)
Definition BeatDuration (m : MusicalContext F) : F := BeatToSeconds m (f_of_int 1).

(** [BarDuration] returns the duration of one bar in seconds. *)
Definition BarDuration (m : MusicalContext F) : F := BarToSeconds m (f_of_int 1).

(** [BeatsPerBar] returns the number of beats per bar. *)
Definition BeatsPerBar (m : MusicalContext F) : Z := Numerator (mc_TimeSignature m).

(** [SecondsToBeats] converts seconds to beats. *)
Definition SecondsToBeats (m : MusicalContext F) (seconds : F) : F :=
  seconds / (f_of_int 60 / BPM m).

(** [SecondsToBars] converts seconds to bars. *)
Definition SecondsToBars (m : MusicalContext F) (seconds : F) : F :=
  let beatsPerBar := f_of_int (Numerator (mc_TimeSignature m)) in
  seconds / (beatsPerBar * (f_of_int 60 / BPM m)).

End Musical.

(** ** Commit operations on the document ([ahap.go], [events.go], [curves.go])

    The receiver [a *AHAP] is mutated in place; here each operation returns
    the document after the call.  An [*Event] or [*ParameterCurve] argument
    is an [option]: [Some] of the value it points to, or [None] for [nil].
    Every call in the repository passes the address of a fresh literal. *)

Section Document.

Context {F : Type} `{Float64 F}.

(** [New] creates a new AHAP with default metadata; [created] is the
    formatted [time.Now()]. *)
Definition New (created description createdBy : string) : AHAP F :=
  mkAHAP (f_of_int 1) (mkMetadata "Basis" created description createdBy) [].

(** [AddEvent] adds a raw event to the pattern: the element is
    [Pattern{Event: event}], its other pointer [nil]. *)
Definition AddEvent (event : option (Event F)) (a : AHAP F) : AHAP F :=
  mkAHAP (a_Version a) (a_Metadata a)
         (a_Pattern a ++ [mkPattern event None]).

(** [AddParameterCurve] adds a parameter curve to the pattern: the element
    is [Pattern{ParameterCurve: curve}], its other pointer [nil]. *)
Definition AddParameterCurve (curve : option (ParameterCurve F)) (a : AHAP F) : AHAP F :=
  mkAHAP (a_Version a) (a_Metadata a)
         (a_Pattern a ++ [mkPattern None curve]).

(** [AddHapticTransient] adds a haptic transient event. *)
Definition AddHapticTransient (time intensity sharpness : F) (a : AHAP F) : AHAP F :=
  let event :=
    mkEvent time EventTypeHapticTransient
            [mkEventParameter ParamHapticIntensity intensity;
             mkEventParameter ParamHapticSharpness sharpness]
            None None in
  AddEvent (Some event) a.

(** [AddHapticContinuous] adds a haptic continuous event. *)
Definition AddHapticContinuous (time duration intensity sharpness : F) (a : AHAP F) : AHAP F :=
  let event :=
    mkEvent time EventTypeHapticContinuous
            [mkEventParameter ParamHapticIntensity intensity;
             mkEventParameter ParamHapticSharpness sharpness]
            (Some duration) None in
  AddEvent (Some event) a.

(** [AddAudioCustom] adds a custom audio event with a WAV file. *)
Definition AddAudioCustom (time : F) (wavFilepath : string) (volume : F) (a : AHAP F) : AHAP F :=
  let event :=
    mkEvent time EventTypeAudioCustom
            [mkEventParameter ParamAudioVolume volume]
            None (Some wavFilepath) in
  AddEvent (Some event) a.

(** [AddAudioContinuous] adds an audio continuous event. *)
Definition AddAudioContinuous (time duration volume : F) (a : AHAP F) : AHAP F :=
  let event :=
    mkEvent time EventTypeAudioContinuous
            [mkEventParameter ParamAudioVolume volume]
            (Some duration) None in
  AddEvent (Some event) a.

(** [AddCurve] adds a parameter curve to the AHAP. *)
Definition AddCurve (parameterID : string) (startTime : F)
    (controlPoints : list (ControlPoint F)) (a : AHAP F) : AHAP F :=
  let curve := mkParameterCurve parameterID startTime controlPoints in
  AddParameterCurve (Some curve) a.

End Document.


(** ** Construction protocol ([builder.go])

    A session is a [Builder]; every staging object holds a pointer to it and
    the fluent chain hands the same session on.  Here an operation that reads
    or mutates the session takes the session state and returns the new one;
    the staging records keep their scratch fields only, the back-pointer
    being the session the chain is run on.  In the same way a
    [CurveFromBuilder] or [CurveToBuilder] points to the curve stage it was
    made from, and its selectors take and return that stage's state. *)

(** [Builder] provides a fluent API for creating AHAP files; [musical] is a
    pointer, [nil] until a musical context is configured. *)
Record Builder (F : Type) : Type := mkBuilder {
  b_ahap : AHAP F;
  b_musical : option (MusicalContext F);
}.

(** [TransientBuilder] builds a transient event. *)
Record TransientBuilder (F : Type) : Type := mkTransientBuilder {
  tb_time : F;
  tb_intensity : F;
  tb_sharpness : F;
}.

(** [ContinuousBuilder] builds a continuous event. *)
Record ContinuousBuilder (F : Type) : Type := mkContinuousBuilder {
  cont_time : F;
  cont_duration : F;
  cont_intensity : F;
  cont_sharpness : F;
}.

(** [EventBuilder] builds events at musical positions. *)
Record EventBuilder (F : Type) : Type := mkEventBuilder {
  eb_time : F;
}.

(** [CurveBuilder] builds parameter curves. *)
Record CurveBuilder (F : Type) : Type := mkCurveBuilder {
  curve_parameterID : string;
  curve_startTime : F;
  curve_points : list (ControlPoint F);
}.

(** [CurveFromBuilder] helps build interpolated curves. *)
Record CurveFromBuilder (F : Type) : Type := mkCurveFromBuilder {
  cfb_startTime : F;
  cfb_startValue : F;
}.

(** [CurveToBuilder] completes the curve definition. *)
Record CurveToBuilder (F : Type) : Type := mkCurveToBuilder {
  ctb_startTime : F;
  ctb_startValue : F;
  ctb_endTime : F;
  ctb_endValue : F;
}.

Arguments mkBuilder {F} _ _.
Arguments b_ahap {F} _.
Arguments b_musical {F} _.
Arguments mkTransientBuilder {F} _ _ _.
Arguments tb_time {F} _.
Arguments tb_intensity {F} _.
Arguments tb_sharpness {F} _.
Arguments mkContinuousBuilder {F} _ _ _ _.
Arguments cont_time {F} _.
Arguments cont_duration {F} _.
Arguments cont_intensity {F} _.
Arguments cont_sharpness {F} _.
Arguments mkEventBuilder {F} _.
Arguments eb_time {F} _.
Arguments mkCurveBuilder {F} _ _ _.
Arguments curve_parameterID {F} _.
Arguments curve_startTime {F} _.
Arguments curve_points {F} _.
Arguments mkCurveFromBuilder {F} _ _.
Arguments cfb_startTime {F} _.
Arguments cfb_startValue {F} _.
Arguments mkCurveToBuilder {F} _ _ _ _.
Arguments ctb_startTime {F} _.
Arguments ctb_startValue {F} _.
Arguments ctb_endTime {F} _.
Arguments ctb_endValue {F} _.

(** The musical context a musically-relative operation works with: the
    session's own, or, when the pointer is [nil], a new default one
    ([NewMusicalContext(120, 4, 4)]) that the operation stores. *)
Definition ensure_musical {F : Type} `{Float64 F} (b : Builder F) : MusicalContext F :=
  match b_musical b with
  | Some m => m
  | None => NewMusicalContext (f_of_int 120) 4 4
  end.

(** *** Methods of [*Builder] *)
Module Builder.
Section Methods.

Context {F : Type} `{Float64 F}.
Local Open Scope f64_scope.

(** [NewBuilder] creates a new AHAP builder. *)
Definition NewBuilder (created description creator : string) : Builder F :=
  mkBuilder (New created description creator) None.

(** [WithBPM] sets the BPM for musical timing. *)
Definition WithBPM (bpm : F) (b : Builder F) : Builder F :=
  match b_musical b with
  | None => mkBuilder (b_ahap b) (Some (NewMusicalContext bpm 4 4))
  | Some m => mkBuilder (b_ahap b) (Some (mkMusicalContext bpm (mc_TimeSignature m)))
  end.

(** [WithTimeSignature] sets the time signature. *)
Definition WithTimeSignature (numerator denominator : Z) (b : Builder F) : Builder F :=
  match b_musical b with
  | None => mkBuilder (b_ahap b) (Some (NewMusicalContext (f_of_int 120) numerator denominator))
  | Some m => mkBuilder (b_ahap b)
                (Some (mkMusicalContext (BPM m) (mkTimeSignature numerator denominator)))
  end.

(** [WithMusicalContext] sets the complete musical context (possibly [nil]). *)
Definition WithMusicalContext (musical : option (MusicalContext F)) (b : Builder F) : Builder F :=
  mkBuilder (b_ahap b) musical.

(** [Transient] creates a transient event builder. *)
Definition Transient (time : F) : TransientBuilder F :=
  mkTransientBuilder time f_half f_half.

(** [Continuous] creates a continuous event builder. *)
Definition Continuous (time duration : F) : ContinuousBuilder F :=
  mkContinuousBuilder time duration f_half f_half.

(** [AtBeat] creates an event builder at a specific beat. *)
Definition AtBeat (beat : F) (b : Builder F) : EventBuilder F * Builder F :=
  let m := ensure_musical b in
  (mkEventBuilder (BeatToSeconds m beat), mkBuilder (b_ahap b) (Some m)).

(** [AtBar] creates an event builder at a specific bar. *)
Definition AtBar (bar : F) (b : Builder F) : EventBuilder F * Builder F :=
  let m := ensure_musical b in
  (mkEventBuilder (BarToSeconds m bar), mkBuilder (b_ahap b) (Some m)).

(** [Curve] creates a parameter curve builder. *)
Definition Curve (parameterID : string) : CurveBuilder F :=
  mkCurveBuilder parameterID (f_of_int 0) [].

(** [Build] returns the final AHAP. *)
Definition Build (b : Builder F) : AHAP F := b_ahap b.

(** [Sequence] creates a new sequence builder for creating patterns; the
    [SequenceBuilder] holds the session pointer and nothing else. *)
Definition Sequence (b : Builder F) : Builder F :=
  mkBuilder (b_ahap b) (Some (ensure_musical b)).

End Methods.
End Builder.

(** *** Methods of [*TransientBuilder] *)
Module TransientBuilder.
Section Methods.

Context {F : Type} `{Float64 F}.

(** [Intensity] sets the intensity. *)
Definition Intensity (intensity : F) (tb : TransientBuilder F) : TransientBuilder F :=
  mkTransientBuilder (tb_time tb) intensity (tb_sharpness tb).

(** [Sharpness] sets the sharpness. *)
Definition Sharpness (sharpness : F) (tb : TransientBuilder F) : TransientBuilder F :=
  mkTransientBuilder (tb_time tb) (tb_intensity tb) sharpness.

(** [Add] adds the transient event and returns the builder. *)
Definition Add (tb : TransientBuilder F) (b : Builder F) : Builder F :=
  mkBuilder (AddHapticTransient (tb_time tb) (tb_intensity tb) (tb_sharpness tb) (b_ahap b))
            (b_musical b).

End Methods.
End TransientBuilder.

(** *** Methods of [*ContinuousBuilder] *)
Module ContinuousBuilder.
Section Methods.

Context {F : Type} `{Float64 F}.

(** [Intensity] sets the intensity. *)
Definition Intensity (intensity : F) (cb : ContinuousBuilder F) : ContinuousBuilder F :=
  mkContinuousBuilder (cont_time cb) (cont_duration cb) intensity (cont_sharpness cb).

(** [Sharpness] sets the sharpness. *)
Definition Sharpness (sharpness : F) (cb : ContinuousBuilder F) : ContinuousBuilder F :=
  mkContinuousBuilder (cont_time cb) (cont_duration cb) (cont_intensity cb) sharpness.

(** [Add] adds the continuous event and returns the builder. *)
Definition Add (cb : ContinuousBuilder F) (b : Builder F) : Builder F :=
  mkBuilder (AddHapticContinuous (cont_time cb) (cont_duration cb)
                                 (cont_intensity cb) (cont_sharpness cb) (b_ahap b))
            (b_musical b).

End Methods.
End ContinuousBuilder.

(** *** Methods of [*EventBuilder] *)
Module EventBuilder.
Section Methods.

Context {F : Type} `{Float64 F}.

(** [Transient] creates a transient event at this time. *)
Definition Transient (eb : EventBuilder F) : TransientBuilder F :=
  mkTransientBuilder (eb_time eb) f_half f_half.

(** [Continuous] creates a continuous event at this time. *)
Definition Continuous (duration : F) (eb : EventBuilder F) : ContinuousBuilder F :=
  mkContinuousBuilder (eb_time eb) duration f_half f_half.

(** [ContinuousBars] creates a continuous event at this time with duration
    in bars. *)
Definition ContinuousBars (bars : F) (eb : EventBuilder F) (b : Builder F)
  : ContinuousBuilder F * Builder F :=
  let m := ensure_musical b in
  let duration := BarToSeconds m bars in
  (mkContinuousBuilder (eb_time eb) duration f_half f_half,
   mkBuilder (b_ahap b) (Some m)).

(** [ContinuousBeats] creates a continuous event at this time with duration
    in beats. *)
Definition ContinuousBeats (beats : F) (eb : EventBuilder F) (b : Builder F)
  : ContinuousBuilder F * Builder F :=
  let m := ensure_musical b in
  let duration := BeatToSeconds m beats in
  (mkContinuousBuilder (eb_time eb) duration f_half f_half,
   mkBuilder (b_ahap b) (Some m)).

End Methods.
End EventBuilder.

(** *** Methods of [*CurveBuilder] *)
Module CurveBuilder.
Section Methods.

Context {F : Type} `{Float64 F}.

(** [At] sets the start time. *)
Definition At (time : F) (cb : CurveBuilder F) : CurveBuilder F :=
  mkCurveBuilder (curve_parameterID cb) time (curve_points cb).

(** [From] sets the start point and begins defining the curve. *)
Definition From (time value : F) : CurveFromBuilder F :=
  mkCurveFromBuilder time value.

(** [AddPoint] adds a single control point. *)
Definition AddPoint (time value : F) (cb : CurveBuilder F) : CurveBuilder F :=
  mkCurveBuilder (curve_parameterID cb) (curve_startTime cb)
                 (curve_points cb ++ [mkControlPoint time value]).

(** [Points] sets all control points at once. *)
Definition Points (points : list (ControlPoint F)) (cb : CurveBuilder F) : CurveBuilder F :=
  mkCurveBuilder (curve_parameterID cb) (curve_startTime cb) points.

(** [Add] adds the curve to the AHAP and returns the builder. *)
Definition Add (cb : CurveBuilder F) (b : Builder F) : Builder F :=
  mkBuilder (AddCurve (curve_parameterID cb) (curve_startTime cb) (curve_points cb) (b_ahap b))
            (b_musical b).

End Methods.
End CurveBuilder.

(** *** Methods of [*CurveFromBuilder] *)
Module CurveFromBuilder.
Section Methods.

Context {F : Type}.

(** [To] defines the end point. *)
Definition To (endTime endValue : F) (cfb : CurveFromBuilder F) : CurveToBuilder F :=
  mkCurveToBuilder (cfb_startTime cfb) (cfb_startValue cfb) endTime endValue.

End Methods.
End CurveFromBuilder.

(** *** Methods of [*CurveToBuilder]: the three interpolation selectors *)
Module CurveToBuilder.
Section Methods.

Context {F : Type} `{Float64Math F}.

(** [Steps] creates linear interpolation with specified steps. *)
Definition Steps (steps : Z) (ctb : CurveToBuilder F) (cb : CurveBuilder F) : CurveBuilder F :=
  let points := CreateCurve (ctb_startTime ctb) (ctb_endTime ctb)
                            (ctb_startValue ctb) (ctb_endValue ctb) steps in
  mkCurveBuilder (curve_parameterID cb) (curve_startTime cb) (curve_points cb ++ points).

(** [EaseInOut] creates ease-in-out interpolation. *)
Definition EaseInOut (steps : Z) (ctb : CurveToBuilder F) (cb : CurveBuilder F) : CurveBuilder F :=
  let start := mkControlPoint (ctb_startTime ctb) (ctb_startValue ctb) in
  let end_ := mkControlPoint (ctb_endTime ctb) (ctb_endValue ctb) in
  let points := EaseInOut start end_ steps in
  mkCurveBuilder (curve_parameterID cb) (curve_startTime cb) (curve_points cb ++ points).

(** [Exponential] creates exponential interpolation. *)
Definition Exponential (steps : Z) (exponent : F) (ctb : CurveToBuilder F) (cb : CurveBuilder F)
  : CurveBuilder F :=
  let start := mkControlPoint (ctb_startTime ctb) (ctb_startValue ctb) in
  let end_ := mkControlPoint (ctb_endTime ctb) (ctb_endValue ctb) in
  let points := Exponential start end_ steps exponent in
  mkCurveBuilder (curve_parameterID cb) (curve_startTime cb) (curve_points cb ++ points).

End Methods.
End CurveToBuilder.

(** ** Sequence generator ([SequenceBuilder])

    The loops over bars and absolute beats are driven by Go [int]s that can
    wrap, so they are run with [fuel]: the number of times the loop condition
    may be evaluated.  A run [Returns] the session, [Panics] (a [nil] musical
    context is dereferenced, a slice of negative length is made, an integer
    is divided by zero), or is [OutOfFuel]. *)

Inductive outcome (A : Type) : Type :=
| Returns (a : A)
| Panics
| OutOfFuel.

Arguments Returns {A} _.
Arguments Panics {A}.
Arguments OutOfFuel {A}.

Module SequenceBuilder.
Section Methods.

Context {F : Type} `{Float64 F}.
Local Open Scope f64_scope.

(** The body of the inner loop of [TransientsOnBeats]: one transient per
    beat offset, in slice order. *)
Definition transients_in_bar (m : MusicalContext F) (barTime : F) (beats : list F)
    (intensity sharpness : F) (b : Builder F) : Builder F :=
  fold_left
    (fun b beat =>
       let beatTime := BeatToSeconds m beat in
       TransientBuilder.Add
         (TransientBuilder.Sharpness sharpness
            (TransientBuilder.Intensity intensity
               (Builder.Transient (barTime + beatTime))))
         b)
    beats b.

(** The loop [for bar := startBar; bar <= endBar; bar++] of
    [TransientsOnBeats], entered with the loop variable at [bar]. *)
Fixpoint TransientsOnBeats_loop (fuel : nat) (beats : list F) (bar endBar : Z)
    (intensity sharpness : F) (b : Builder F) : outcome (Builder F) :=
  match fuel with
  | O => OutOfFuel
  | S fuel' =>
    if (bar <=? endBar)%Z then
      match b_musical b with
      | None => Panics
      | Some m =>
        let barTime := BarToSeconds m (f_of_int bar) in
        let b' := transients_in_bar m barTime beats intensity sharpness b in
        TransientsOnBeats_loop fuel' beats (GoInt.add bar 1) endBar intensity sharpness b'
      end
    else Returns b
  end.

(** [TransientsOnBeats] adds transient events on specific beats across a
    range of bars. *)
Definition TransientsOnBeats (fuel : nat) (beats : list F) (startBar endBar : Z)
    (intensity sharpness : F) (b : Builder F) : outcome (Builder F) :=
  TransientsOnBeats_loop fuel beats startBar endBar intensity sharpness b.

(** [TransientsOnBeatsInBar] adds transient events on specific beats within
    a single bar. *)
Definition TransientsOnBeatsInBar (fuel : nat) (beats : list F) (bar : Z)
    (intensity sharpness : F) (b : Builder F) : outcome (Builder F) :=
  TransientsOnBeats fuel beats bar bar intensity sharpness b.

(** [EveryBeat] adds a transient on every beat for a range of bars. *)
Definition EveryBeat (fuel : nat) (startBar endBar : Z) (intensity sharpness : F)
    (b : Builder F) : outcome (Builder F) :=
  match b_musical b with
  | None => Panics
  | Some m =>
    let beatsPerBar := BeatsPerBar m in
    if (beatsPerBar <? 0)%Z then Panics
    else
      let beats := replicate (Z.to_nat beatsPerBar) (f_of_int 0) in
      let beats := fill (fun i => f_of_int i) (Z.to_nat beatsPerBar) 0 beats in
      TransientsOnBeats fuel beats startBar endBar intensity sharpness b
  end.

(** The loop [for i := 0; i < totalBeats; i += n] of [EveryNthBeat], entered
    with the loop variable at [i]. *)
Fixpoint EveryNthBeat_loop (fuel : nat) (n startBar endBar beatsPerBar totalBeats i : Z)
    (intensity sharpness : F) (b : Builder F) : outcome (Builder F) :=
  match fuel with
  | O => OutOfFuel
  | S fuel' =>
    if (i <? totalBeats)%Z then
      if (beatsPerBar =? 0)%Z then Panics
      else
        let bar := GoInt.quo i beatsPerBar in
        let beatInBar := GoInt.rem i beatsPerBar in
        let actualBar := GoInt.add startBar bar in
        if (actualBar <=? endBar)%Z then
          match b_musical b with
          | None => Panics
          | Some m =>
            let barTime := BarToSeconds m (f_of_int actualBar) in
            let beatTime := BeatToSeconds m (f_of_int beatInBar) in
            let b' :=
              TransientBuilder.Add
                (TransientBuilder.Sharpness sharpness
                   (TransientBuilder.Intensity intensity
                      (Builder.Transient (barTime + beatTime))))
                b in
            EveryNthBeat_loop fuel' n startBar endBar beatsPerBar totalBeats
                              (GoInt.add i n) intensity sharpness b'
          end
        else
          EveryNthBeat_loop fuel' n startBar endBar beatsPerBar totalBeats
                            (GoInt.add i n) intensity sharpness b
    else Returns b
  end.

(** [EveryNthBeat] adds a transient on every nth beat for a range of bars
    (e.g., every 2nd beat = on-beat). *)
Definition EveryNthBeat (fuel : nat) (n startBar endBar : Z) (intensity sharpness : F)
    (b : Builder F) : outcome (Builder F) :=
  match b_musical b with
  | None => Panics
  | Some m =>
    let beatsPerBar := BeatsPerBar m in
    let totalBars := GoInt.add (GoInt.sub endBar startBar) 1 in
    let totalBeats := GoInt.mul totalBars beatsPerBar in
    EveryNthBeat_loop fuel n startBar endBar beatsPerBar totalBeats 0 intensity sharpness b
  end.

(** The loop of [Pattern], entered with the loop variable at [bar]; the
    callback receives the session and the bar number. *)
Fixpoint Pattern_loop (fuel : nat) (bar endBar : Z)
    (fn : Builder F -> Z -> outcome (Builder F)) (b : Builder F) : outcome (Builder F) :=
  match fuel with
  | O => OutOfFuel
  | S fuel' =>
    if (bar <=? endBar)%Z then
      match fn b bar with
      | Returns b' => Pattern_loop fuel' (GoInt.add bar 1) endBar fn b'
      | Panics => Panics
      | OutOfFuel => OutOfFuel
      end
    else Returns b
  end.

(** [Pattern] applies a custom pattern function to each bar. *)
Definition Pattern (fuel : nat) (startBar endBar : Z)
    (fn : Builder F -> Z -> outcome (Builder F)) (b : Builder F) : outcome (Builder F) :=
  Pattern_loop fuel startBar endBar fn b.

End Methods.
End SequenceBuilder.


(** ** Command-line tools ([cmd/midi2ahap], [cmd/haptrack]) *)

Section Tools.

Context {F : Type} `{Float64Math F}.
Local Open Scope f64_scope.

(** [midiNoteToFreq] converts MIDI note number to frequency in Hz
    ([cmd/midi2ahap]); [note] is a [uint8]. *)
Definition midiNoteToFreq (note : Z) : F :=
  f_of_int 440 * f_pow (f_of_int 2) ((f_of_int note - f_of_int 69) / f_of_int 12).

(** The sharpness [main] of [cmd/midi2ahap] gives the continuous event of a
    melodic note: [FreqToSharpness(midiNoteToFreq(key), true)], replaced by
    0.5 when that call returns an error. *)
Definition melodic_sharpness (key : Z) : F :=
  let freq := midiNoteToFreq key in
  let '(sharpness, err) := FreqToSharpness freq true in
  match err with
  | Some _ => f_half
  | None => sharpness
  end.

(** [beatDuration] calculates beat duration based on note value
    ([cmd/haptrack]). *)
Definition beatDuration (noteValue denominator : Z) : F :=
  let quarterNotesInWhole := f_of_int 4 in
  (quarterNotesInWhole / f_of_int noteValue) * (f_of_int denominator / f_of_int 4).

End Tools.


(** ** Vocabulary of the properties

    What the properties below speak of: the elements the operations commit,
    a session grown by a list of elements, a run of commit operations, and
    the shape of a point sequence. *)

Module Vocabulary.

Section Elements.

Context {F : Type} `{Float64 F}.

(** The default musical context, [NewMusicalContext(120, 4, 4)]. *)
Definition default_context : MusicalContext F := NewMusicalContext (f_of_int 120) 4 4.

(** The pattern element a haptic transient event makes. *)
Definition transient_element (time intensity sharpness : F) : Pattern F :=
  mkPattern
    (Some (mkEvent time EventTypeHapticTransient
                   [mkEventParameter ParamHapticIntensity intensity;
                    mkEventParameter ParamHapticSharpness sharpness]
                   None None))
    None.

(** The pattern element a haptic continuous event makes. *)
Definition continuous_element (time duration intensity sharpness : F) : Pattern F :=
  mkPattern
    (Some (mkEvent time EventTypeHapticContinuous
                   [mkEventParameter ParamHapticIntensity intensity;
                    mkEventParameter ParamHapticSharpness sharpness]
                   (Some duration) None))
    None.

(** The session after [els] have been committed, in this order: nothing
    changes but the pattern, which grows at its end. *)
Definition append_elements (els : list (Pattern F)) (b : Builder F) : Builder F :=
  mkBuilder
    (mkAHAP (a_Version (b_ahap b)) (a_Metadata (b_ahap b)) (a_Pattern (b_ahap b) ++ els))
    (b_musical b).

(** The elements [TransientsOnBeats] commits for one bar: one transient per
    beat offset, at bar time plus beat time. *)
Definition bar_elements (m : MusicalContext F) (beats : list F) (intensity sharpness : F)
    (bar : Z) : list (Pattern F) :=
  map (fun beat =>
         transient_element (BarToSeconds m (f_of_int bar) + BeatToSeconds m beat)%f64
                           intensity sharpness)
      beats.

(** A call of a commit operation on a session: the two raw operations and
    the five helpers of the document (reached through [Build()], which
    hands out the session's own document), and the [Add] of the three
    staging objects. *)
Inductive commit : Type :=
| DocAddEvent (event : option (Event F))
| DocAddParameterCurve (curve : option (ParameterCurve F))
| DocAddHapticTransient (time intensity sharpness : F)
| DocAddHapticContinuous (time duration intensity sharpness : F)
| DocAddAudioCustom (time : F) (wavFilepath : string) (volume : F)
| DocAddAudioContinuous (time duration volume : F)
| DocAddCurve (parameterID : string) (startTime : F) (controlPoints : list (ControlPoint F))
| TransientAdd (tb : TransientBuilder F)
| ContinuousAdd (cb : ContinuousBuilder F)
| CurveAdd (cb : CurveBuilder F).

(** The session after the call. *)
Definition run_commit (c : commit) (b : Builder F) : Builder F :=
  let on_document (f : AHAP F -> AHAP F) := mkBuilder (f (b_ahap b)) (b_musical b) in
  match c with
  | DocAddEvent event => on_document (AddEvent event)
  | DocAddParameterCurve curve => on_document (AddParameterCurve curve)
  | DocAddHapticTransient time intensity sharpness =>
      on_document (AddHapticTransient time intensity sharpness)
  | DocAddHapticContinuous time duration intensity sharpness =>
      on_document (AddHapticContinuous time duration intensity sharpness)
  | DocAddAudioCustom time wavFilepath volume =>
      on_document (AddAudioCustom time wavFilepath volume)
  | DocAddAudioContinuous time duration volume =>
      on_document (AddAudioContinuous time duration volume)
  | DocAddCurve parameterID startTime controlPoints =>
      on_document (AddCurve parameterID startTime controlPoints)
  | TransientAdd tb => TransientBuilder.Add tb b
  | ContinuousAdd cb => ContinuousBuilder.Add cb b
  | CurveAdd cb => CurveBuilder.Add cb b
  end.

(** A session run through a list of calls, first call first. *)
Definition run_commits (cs : list commit) (b : Builder F) : Builder F :=
  fold_left (fun b c => run_commit c b) cs b.

(** Exactly one of the two variants of a pattern element is populated. *)
Definition exactly_one_variant (el : Pattern F) : Prop :=
  match p_Event el, p_ParameterCurve el with
  | Some _, None => True
  | None, Some _ => True
  | _, _ => False
  end.

(** The element a call contributes, read off its arguments alone. *)
Definition committed_element (c : commit) : Pattern F :=
  match c with
  | DocAddEvent event => mkPattern event None
  | DocAddParameterCurve curve => mkPattern None curve
  | DocAddHapticTransient time intensity sharpness =>
      transient_element time intensity sharpness
  | DocAddHapticContinuous time duration intensity sharpness =>
      continuous_element time duration intensity sharpness
  | DocAddAudioCustom time wavFilepath volume =>
      mkPattern (Some (mkEvent time EventTypeAudioCustom
                               [mkEventParameter ParamAudioVolume volume]
                               None (Some wavFilepath))) None
  | DocAddAudioContinuous time duration volume =>
      mkPattern (Some (mkEvent time EventTypeAudioContinuous
                               [mkEventParameter ParamAudioVolume volume]
                               (Some duration) None)) None
  | DocAddCurve parameterID startTime controlPoints =>
      mkPattern None (Some (mkParameterCurve parameterID startTime controlPoints))
  | TransientAdd tb =>
      transient_element (tb_time tb) (tb_intensity tb) (tb_sharpness tb)
  | ContinuousAdd cb =>
      continuous_element (cont_time cb) (cont_duration cb)
                         (cont_intensity cb) (cont_sharpness cb)
  | CurveAdd cb =>
      mkPattern None (Some (mkParameterCurve (curve_parameterID cb) (curve_startTime cb)
                                             (curve_points cb)))
  end.

(** The parameter list the package gives the events it constructs: for the
    two haptic kinds intensity then sharpness, for the two audio kinds the
    volume alone. *)
Definition fixed_parameters (event : Event F) : Prop :=
  let ids := map ep_ParameterID (ev_EventParameters event) in
  (ev_EventType event = EventTypeHapticTransient /\
   ids = [ParamHapticIntensity; ParamHapticSharpness]) \/
  (ev_EventType event = EventTypeHapticContinuous /\
   ids = [ParamHapticIntensity; ParamHapticSharpness]) \/
  (ev_EventType event = EventTypeAudioCustom /\ ids = [ParamAudioVolume]) \/
  (ev_EventType event = EventTypeAudioContinuous /\ ids = [ParamAudioVolume]).

(** Every event among [els] has the fixed parameter list of its kind. *)
Definition all_fixed_parameters (els : list (Pattern F)) : Prop :=
  forall (el : Pattern F) (event : Event F),
    el ∈ els -> p_Event el = Some event -> fixed_parameters event.

(** The two calls that pass [nil] where the operation expects the element
    to commit. *)
Definition passes_nil (c : commit) : bool :=
  match c with
  | DocAddEvent None | DocAddParameterCurve None => true
  | _ => false
  end.

(** The document [after] is the document [before] with one more element at
    the end of its pattern: an event of type [eventType] whose parameters
    are [parameters], in this order. *)
Definition appends_event (eventType : string) (parameters : list (EventParameter F))
    (before after : AHAP F) : Prop :=
  exists event : Event F,
    a_Pattern after = (a_Pattern before ++ [mkPattern (Some event) None])%list /\
    ev_EventType event = eventType /\
    ev_EventParameters event = parameters.

(** The calls that construct the event they commit ([AddEvent] is handed
    one; curve commits carry no event). *)
Definition constructs_event (c : commit) : bool :=
  match c with
  | DocAddHapticTransient _ _ _ | DocAddHapticContinuous _ _ _ _
  | DocAddAudioCustom _ _ _ | DocAddAudioContinuous _ _ _
  | TransientAdd _ | ContinuousAdd _ => true
  | _ => false
  end.

(** The identifiers the package defines but never puts on an event it
    constructs. *)
Definition unused_parameter_ids : list string :=
  [ParamHapticAttackTime; ParamHapticDecayTime; ParamHapticReleaseTime;
   ParamAudioPitch; ParamAudioPan; ParamAudioBrightness;
   ParamAudioAttackTime; ParamAudioDecayTime; ParamAudioReleaseTime].

(** The element [EveryNthBeat] commits for the absolute beat [i], counted
    from the start of [startBar]: a transient in bar [startBar + i / n], on
    beat [i mod n] of that bar, [n] being the beats per bar. *)
Definition absolute_beat_element (m : MusicalContext F) (startBar : Z)
    (intensity sharpness : F) (i : Z) : Pattern F :=
  transient_element
    (BarToSeconds m (f_of_int (startBar + i / BeatsPerBar m))
     + BeatToSeconds m (f_of_int (i mod BeatsPerBar m)))%f64
    intensity sharpness.

(** A callback run over a list of bars, first bar first, each call on the
    session the previous one left; a call that does not return ends the
    run. *)
Fixpoint run_bars (fn : Builder F -> Z -> outcome (Builder F)) (bars : list Z)
    (b : Builder F) : outcome (Builder F) :=
  match bars with
  | [] => Returns b
  | bar :: bars' =>
    match fn b bar with
    | Returns b' => run_bars fn bars' b'
    | Panics => Panics
    | OutOfFuel => OutOfFuel
    end
  end.

End Elements.

Arguments commit : clear implicits.

Local Open Scope R_scope.

(** The times of a point sequence increase strictly along the sequence. *)
Definition times_strictly_increasing (pts : list (ControlPoint R)) : Prop :=
  forall (i j : nat) (p q : ControlPoint R),
    (i < j)%nat -> pts !! i = Some p -> pts !! j = Some q -> cp_Time p < cp_Time q.

(** All three interpolation laws place their samples at the same times. *)
Definition sample_times (t0 t1 : R) (N : Z) : list R :=
  (fun j : nat => t0 + IZR (Z.of_nat j + 1) * (t1 - t0) / IZR (Z.max N 1))
  <$> seq 0 (Z.to_nat (Z.max N 1)).

(** The values of a point sequence move strictly from [v0] towards [v1]
    along the sequence: of two points, the later one is farther along. *)
Definition values_strictly_towards (v0 v1 : R) (pts : list (ControlPoint R)) : Prop :=
  forall (i j : nat) (p q : ControlPoint R),
    (i < j)%nat -> pts !! i = Some p -> pts !! j = Some q ->
    0 < (v1 - v0) * (cp_ParameterValue q - cp_ParameterValue p).

End Vocabulary.

(** * Properties *)

Local Open Scope list_scope.

(** ** Go integers *)

Module GoIntFacts.
Import GoInt.

Lemma wrap_in_range z : in_range z -> wrap z = z.
Proof.
  unfold in_range, min_int, max_int, wrap. intros Hz.
  rewrite Z.mod_small by lia. lia.
Qed.

Lemma wrap_range z : in_range (wrap z).
Proof.
  unfold in_range, min_int, max_int, wrap.
  pose proof (Z.mod_pos_bound (z + 2 ^ 63) (2 ^ 64) ltac:(lia)). lia.
Qed.

Lemma wrap_max_succ : wrap (max_int + 1) = min_int.
Proof. reflexivity. Qed.

End GoIntFacts.

(** ** Comparison of real numbers *)

Module ExactFacts.
Import Exact.

Lemma Rltb_true x y : Rltb x y = true <-> (x < y)%R.
Proof. unfold Rltb. destruct (Rlt_dec x y); split; auto; discriminate. Qed.

Lemma Rltb_false x y : Rltb x y = false <-> (y <= x)%R.
Proof.
  unfold Rltb. destruct (Rlt_dec x y); split; intros; try discriminate; try lra; auto.
Qed.

End ExactFacts.

(** ** Multiplication by one in binary64 *)

Module Binary64Facts.

(** The mantissa of [1] is [2^52]: multiplying a mantissa by it appends 52
    zero bits. *)
Lemma digits2_pos_shift (p : positive) :
  Zpos (digits2_pos (Pos.mul 4503599627370496 p)) = Zpos (digits2_pos p) + 52.
Proof. cbv [Pos.mul digits2_pos]. fold (digits2_pos p). lia. Qed.

(** Shifting these 52 bits out again loses nothing. *)
Lemma shr_shift52 (p : positive) (e : Z) :
  shr (Build_shr_record (Zpos (Pos.mul 4503599627370496 p)) false false) e 52
  = (Build_shr_record (Zpos p) false false, e + 52).
Proof. cbv [Pos.mul shr iter_pos shr_1 orb]. reflexivity. Qed.

(** The product of [1] and a binary64 number is that number: the exact
    product is representable, so rounding returns it. *)
Lemma SFmul_one_l (s : spec_float) :
  valid_binary s = true -> SF64mul (Prim2SF 1) s = s.
Proof.
  intros Hvalid.
  change (Prim2SF 1) with (S754_finite false 4503599627370496 (-52)).
  destruct s as [sy | sy | | sy my ey]; try reflexivity.
  unfold SF64mul, SFmul. cbn [xorb].
  unfold valid_binary, bounded, canonical_mantissa in Hvalid.
  apply andb_prop in Hvalid as [Hcanon Hbound].
  apply Z.eqb_eq in Hcanon.
  unfold binary_round_aux.
  assert (Hshift : shr_fexp prec emax (Zpos (4503599627370496 * my)) (-52 + ey) loc_Exact
                   = (Build_shr_record (Zpos my) false false, ey)).
  { unfold shr_fexp, Zdigits2. rewrite digits2_pos_shift.
    replace (Zpos (digits2_pos my) + 52 + (-52 + ey)) with (Zpos (digits2_pos my) + ey) by lia.
    rewrite Hcanon. replace (ey - (-52 + ey)) with 52 by lia.
    cbn [shr_record_of_loc]. rewrite shr_shift52. f_equal. lia. }
  rewrite Hshift. cbn [shr_m loc_of_shr_record round_nearest_even].
  assert (Hkeep : shr_fexp prec emax (Zpos my) ey loc_Exact
                  = (Build_shr_record (Zpos my) false false, ey)).
  { unfold shr_fexp, Zdigits2. rewrite Hcanon, Z.sub_diag. reflexivity. }
  rewrite Hkeep. cbn [shr_m]. rewrite Hbound. reflexivity.
Qed.

Lemma mul_one_l (x : float) : PrimFloat.mul 1 x = x.
Proof.
  apply Prim2SF_inj. rewrite mul_spec. apply SFmul_one_l, Prim2SF_valid.
Qed.

End Binary64Facts.

(** ** The slice-filling loop *)

Section FillFacts.

Context {A : Type} (body : Z -> A).

Lemma fill_length (count : nat) (i : Z) (points : list A) :
  length (fill body count i points) = length points.
Proof.
  revert i points. induction count as [|count IH]; intros i points; simpl.
  - reflexivity.
  - rewrite IH. apply length_insert.
Qed.

(** Iterations [i, i + count) overwrite exactly the cells with these
    indices, each with the body's value at its index. *)
Lemma fill_lookup (count : nat) (i : Z) (points : list A) (j : nat) :
  0 <= i ->
  (Z.to_nat i + count <= length points)%nat ->
  fill body count i points !! j =
    if decide (Z.to_nat i <= j < Z.to_nat i + count)%nat
    then Some (body (Z.of_nat j)) else points !! j.
Proof.
  revert i points. induction count as [|count IH]; intros i points Hi Hlen; simpl.
  - case_decide; [lia | reflexivity].
  - rewrite IH by (rewrite ?length_insert; lia).
    replace (Z.to_nat (i + 1)) with (S (Z.to_nat i)) by lia.
    destruct (decide (j = Z.to_nat i)) as [->|Hne].
    + rewrite list_lookup_insert_eq by lia.
      repeat case_decide; try lia. rewrite Z2Nat.id by lia. reflexivity.
    + rewrite list_lookup_insert_ne by lia.
      repeat case_decide; try lia; reflexivity.
Qed.

(** Run from [0] over a fresh slice of [n] cells, the loop leaves the body's
    values at [0 .. n-1], in order. *)
Lemma fill_replicate (n : nat) (d : A) :
  fill body n 0 (replicate n d) = (fun j => body (Z.of_nat j)) <$> seq 0 n.
Proof.
  apply list_eq. intros j.
  rewrite fill_lookup by (rewrite ?length_replicate; simpl; lia).
  rewrite list_lookup_fmap. simpl.
  case_decide as Hj.
  - rewrite lookup_seq_lt by lia. reflexivity.
  - rewrite lookup_seq_ge by lia. simpl.
    apply lookup_replicate_None. lia.
Qed.

End FillFacts.

(** ** Curve interpolator: closed forms, for any arithmetic *)

Section CurveFacts.

Context {F : Type} `{Float64Math F}.
Local Open Scope f64_scope.

Lemma coerce_steps (steps : Z) : (if (steps <? 1)%Z then 1%Z else steps) = Z.max steps 1.
Proof. destruct (Z.ltb_spec steps 1); lia. Qed.

(** The three loops, as the list of their samples [k = 1 .. max steps 1]
    (sample [k] is written at index [k - 1]). *)
Lemma CreateCurve_samples (startTime endTime startValue endValue : F) (steps : Z) :
  CreateCurve startTime endTime startValue endValue steps =
    (fun j : nat =>
       mkControlPoint
         (startTime + (endTime - startTime) / f_of_int (Z.max steps 1)
                      * f_of_int (Z.of_nat j + 1))
         (startValue + (endValue - startValue) / f_of_int (Z.max steps 1)
                       * f_of_int (Z.of_nat j + 1)))
    <$> seq 0 (Z.to_nat (Z.max steps 1)).
Proof.
  unfold CreateCurve. rewrite coerce_steps. cbv zeta.
  apply (fill_replicate (fun i => mkControlPoint _ _)).
Qed.

Lemma EaseInOut_samples (start end_ : ControlPoint F) (steps : Z) :
  EaseInOut start end_ steps =
    (fun j : nat =>
       let t := f_of_int (Z.of_nat j + 1) / f_of_int (Z.max steps 1) in
       mkControlPoint
         (cp_Time start + (cp_Time end_ - cp_Time start) * t)
         (cp_ParameterValue start
          + (cp_ParameterValue end_ - cp_ParameterValue start)
            * (t * t * (f_of_int 3 - f_of_int 2 * t))))
    <$> seq 0 (Z.to_nat (Z.max steps 1)).
Proof.
  unfold EaseInOut. rewrite coerce_steps. cbv zeta.
  apply (fill_replicate (fun i => mkControlPoint _ _)).
Qed.

Lemma Exponential_samples (start end_ : ControlPoint F) (steps : Z) (exponent : F) :
  Exponential start end_ steps exponent =
    (fun j : nat =>
       let t := f_of_int (Z.of_nat j + 1) / f_of_int (Z.max steps 1) in
       mkControlPoint
         (cp_Time start + (cp_Time end_ - cp_Time start) * t)
         (cp_ParameterValue start
          + (cp_ParameterValue end_ - cp_ParameterValue start) * f_pow t exponent))
    <$> seq 0 (Z.to_nat (Z.max steps 1)).
Proof.
  unfold Exponential. rewrite coerce_steps. cbv zeta.
  apply (fill_replicate (fun i => mkControlPoint _ _)).
Qed.

Lemma CreateCurve_length (startTime endTime startValue endValue : F) (steps : Z) :
  length (CreateCurve startTime endTime startValue endValue steps)
  = Z.to_nat (Z.max steps 1).
Proof. rewrite CreateCurve_samples, length_fmap, length_seq. reflexivity. Qed.

Lemma EaseInOut_length (start end_ : ControlPoint F) (steps : Z) :
  length (EaseInOut start end_ steps) = Z.to_nat (Z.max steps 1).
Proof. rewrite EaseInOut_samples, length_fmap, length_seq. reflexivity. Qed.

Lemma Exponential_length (start end_ : ControlPoint F) (steps : Z) (exponent : F) :
  length (Exponential start end_ steps exponent) = Z.to_nat (Z.max steps 1).
Proof. rewrite Exponential_samples, length_fmap, length_seq. reflexivity. Qed.

End CurveFacts.

(** ** Curve interpolator: the interpolation laws, in exact arithmetic *)

Module CurveLaws.
Import Exact Vocabulary.

Local Open Scope R_scope.

Lemma IZR_steps_pos (N : Z) : 0 < IZR (Z.max N 1).
Proof. apply IZR_lt. lia. Qed.

(** Sample [k] sits at index [k - 1]. *)
Lemma sample_lookup {A : Type} (g : nat -> A) (n k : Z) :
  (1 <= k <= n)%Z ->
  (g <$> seq 0 (Z.to_nat n)) !! Z.to_nat (k - 1) = Some (g (Z.to_nat (k - 1))).
Proof.
  intros Hk. rewrite list_lookup_fmap, lookup_seq_lt by lia. reflexivity.
Qed.

Lemma CreateCurve_point (t0 t1 v0 v1 : R) (N k : Z) :
  (1 <= k <= Z.max N 1)%Z ->
  CreateCurve t0 t1 v0 v1 N !! Z.to_nat (k - 1) =
    Some (mkControlPoint (t0 + IZR k * (t1 - t0) / IZR (Z.max N 1))
                         (v0 + (v1 - v0) * (IZR k / IZR (Z.max N 1)))).
Proof.
  intros Hk. pose proof (IZR_steps_pos N) as Hn.
  rewrite CreateCurve_samples, sample_lookup by assumption.
  replace (Z.of_nat (Z.to_nat (k - 1)) + 1)%Z with k by lia.
  simpl. f_equal. f_equal; field; lra.
Qed.

Lemma EaseInOut_point (t0 t1 v0 v1 : R) (N k : Z) :
  (1 <= k <= Z.max N 1)%Z ->
  let f := IZR k / IZR (Z.max N 1) in
  EaseInOut (mkControlPoint t0 v0) (mkControlPoint t1 v1) N !! Z.to_nat (k - 1) =
    Some (mkControlPoint (t0 + IZR k * (t1 - t0) / IZR (Z.max N 1))
                         (v0 + (v1 - v0) * f * f * (3 - 2 * f))).
Proof.
  intros Hk f. pose proof (IZR_steps_pos N) as Hn.
  rewrite EaseInOut_samples, sample_lookup by assumption.
  replace (Z.of_nat (Z.to_nat (k - 1)) + 1)%Z with k by lia.
  subst f. simpl. f_equal. f_equal; field; lra.
Qed.

Lemma Exponential_point (t0 t1 v0 v1 e : R) (N k : Z) :
  (1 <= k <= Z.max N 1)%Z ->
  let f := IZR k / IZR (Z.max N 1) in
  Exponential (mkControlPoint t0 v0) (mkControlPoint t1 v1) N e !! Z.to_nat (k - 1) =
    Some (mkControlPoint (t0 + IZR k * (t1 - t0) / IZR (Z.max N 1))
                         (v0 + (v1 - v0) * Rpower f e)).
Proof.
  intros Hk f. pose proof (IZR_steps_pos N) as Hn.
  rewrite Exponential_samples, sample_lookup by assumption.
  replace (Z.of_nat (Z.to_nat (k - 1)) + 1)%Z with k by lia.
  subst f. simpl. f_equal. f_equal; field; lra.
Qed.

Lemma CreateCurve_times (t0 t1 v0 v1 : R) (N : Z) :
  cp_Time <$> CreateCurve t0 t1 v0 v1 N = sample_times t0 t1 N.
Proof.
  pose proof (IZR_steps_pos N) as Hn.
  rewrite CreateCurve_samples. unfold sample_times.
  rewrite <- list_fmap_compose. apply list_fmap_ext. intros _ j _.
  simpl. field. lra.
Qed.

Lemma EaseInOut_times (t0 t1 v0 v1 : R) (N : Z) :
  cp_Time <$> EaseInOut (mkControlPoint t0 v0) (mkControlPoint t1 v1) N
  = sample_times t0 t1 N.
Proof.
  pose proof (IZR_steps_pos N) as Hn.
  rewrite EaseInOut_samples. unfold sample_times.
  rewrite <- list_fmap_compose. apply list_fmap_ext. intros _ j _.
  simpl. field. lra.
Qed.

Lemma Exponential_times (t0 t1 v0 v1 e : R) (N : Z) :
  cp_Time <$> Exponential (mkControlPoint t0 v0) (mkControlPoint t1 v1) N e
  = sample_times t0 t1 N.
Proof.
  pose proof (IZR_steps_pos N) as Hn.
  rewrite Exponential_samples. unfold sample_times.
  rewrite <- list_fmap_compose. apply list_fmap_ext. intros _ j _.
  simpl. field. lra.
Qed.

Lemma sample_times_lookup (t0 t1 : R) (N : Z) (j : nat) (t : R) :
  sample_times t0 t1 N !! j = Some t ->
  (j < Z.to_nat (Z.max N 1))%nat /\
  t = t0 + IZR (Z.of_nat j + 1) * (t1 - t0) / IZR (Z.max N 1).
Proof.
  unfold sample_times. rewrite list_lookup_fmap. intros Hj.
  destruct (seq 0 (Z.to_nat (Z.max N 1)) !! j) as [j'|] eqn:E; [|discriminate].
  apply lookup_seq in E as [-> Hlt]. simpl in Hj. injection Hj as <-.
  split; [assumption|reflexivity].
Qed.

(** No sample lies at the start time, unless the segment has no extent. *)
Lemma sample_times_not_start (t0 t1 : R) (N : Z) (t : R) :
  t1 <> t0 -> t ∈ sample_times t0 t1 N -> t <> t0.
Proof.
  intros Hne [j Hj]%list_elem_of_lookup.
  apply sample_times_lookup in Hj as [Hlt ->].
  pose proof (IZR_steps_pos N) as Hn.
  assert (Hk : 0 < IZR (Z.of_nat j + 1)) by (apply IZR_lt; lia).
  intros Heq.
  assert (Hz : IZR (Z.of_nat j + 1) * (t1 - t0) = 0).
  { apply (Rmult_eq_reg_r (/ IZR (Z.max N 1))).
    - unfold Rdiv in Heq. lra.
    - apply Rinv_neq_0_compat. lra. }
  apply Rmult_integral in Hz as [Hz|Hz]; lra.
Qed.

Lemma sample_times_increasing (t0 t1 : R) (N : Z) (i j : nat) (ti tj : R) :
  t0 < t1 -> (i < j)%nat ->
  sample_times t0 t1 N !! i = Some ti -> sample_times t0 t1 N !! j = Some tj ->
  ti < tj.
Proof.
  intros Hlt Hij Hi Hj.
  apply sample_times_lookup in Hi as [_ ->].
  apply sample_times_lookup in Hj as [_ ->].
  pose proof (IZR_steps_pos N) as Hn.
  assert (Hk : IZR (Z.of_nat i + 1) < IZR (Z.of_nat j + 1)) by (apply IZR_lt; lia).
  apply Rplus_lt_compat_l. unfold Rdiv.
  apply Rmult_lt_compat_r; [apply Rinv_0_lt_compat; lra|].
  apply Rmult_lt_compat_r; lra.
Qed.

Lemma sample_times_last (t0 t1 : R) (N : Z) :
  last (sample_times t0 t1 N) = Some t1.
Proof.
  pose proof (IZR_steps_pos N) as Hn.
  unfold sample_times. rewrite fmap_last.
  replace (Z.to_nat (Z.max N 1)) with (S (Z.to_nat (Z.max N 1 - 1))) by lia.
  rewrite seq_S, last_snoc. simpl. f_equal.
  replace (Z.of_nat (Z.to_nat (Z.max N 1 - 1)) + 1)%Z with (Z.max N 1) by lia.
  field. lra.
Qed.

Lemma times_increasing_of_samples (pts : list (ControlPoint R)) (t0 t1 : R) (N : Z) :
  cp_Time <$> pts = sample_times t0 t1 N -> t0 < t1 -> times_strictly_increasing pts.
Proof.
  intros Hts Hlt i j p q Hij Hp Hq.
  apply (sample_times_increasing t0 t1 N i j); try assumption;
    rewrite <- Hts, list_lookup_fmap; [rewrite Hp|rewrite Hq]; reflexivity.
Qed.

End CurveLaws.

(** ** The interpolation contract *)

Module Interpolation.
Import Exact Binary64 Vocabulary CurveLaws.

Local Open Scope R_scope.

(** The k-th point of each curve as the source computes it, in any
    arithmetic: every operation is the arithmetic's own, in the source's
    order. *)
Lemma curve_points_as_computed {F : Type} `{Float64Math F} (t0 v0 t1 v1 e : F) (N k : Z) :
  (1 <= k <= Z.max N 1)%Z ->
  let n := f_of_int (Z.max N 1) in
  let f := f_div (f_of_int k) n in
  CreateCurve t0 t1 v0 v1 N !! Z.to_nat (k - 1)
    = Some (mkControlPoint (f_add t0 (f_mul (f_div (f_sub t1 t0) n) (f_of_int k)))
                           (f_add v0 (f_mul (f_div (f_sub v1 v0) n) (f_of_int k)))) /\
  EaseInOut (mkControlPoint t0 v0) (mkControlPoint t1 v1) N !! Z.to_nat (k - 1)
    = Some (mkControlPoint
              (f_add t0 (f_mul (f_sub t1 t0) f))
              (f_add v0 (f_mul (f_sub v1 v0)
                               (f_mul (f_mul f f)
                                      (f_sub (f_of_int 3) (f_mul (f_of_int 2) f)))))) /\
  Exponential (mkControlPoint t0 v0) (mkControlPoint t1 v1) N e !! Z.to_nat (k - 1)
    = Some (mkControlPoint (f_add t0 (f_mul (f_sub t1 t0) f))
                           (f_add v0 (f_mul (f_sub v1 v0) (f_pow f e)))).
Proof.
  intros Hk n f. subst n f.
  rewrite CreateCurve_samples, EaseInOut_samples, Exponential_samples.
  rewrite !sample_lookup by assumption.
  replace (Z.of_nat (Z.to_nat (k - 1)) + 1)%Z with k by lia.
  repeat split.
Qed.

(** A segment of no extent, in exact arithmetic: every point is at the
    start time. *)
Lemma sample_times_no_extent (t0 : R) (N : Z) (t : R) :
  t ∈ sample_times t0 t0 N -> t = t0.
Proof.
  intros [j Hj]%list_elem_of_lookup.
  apply sample_times_lookup in Hj as [_ ->].
  unfold Rdiv. ring.
Qed.

(** C1 (as amended): for every start anchor (t0, v0), end anchor (t1, v1),
    exponent e and step count N, with n = max(N, 1) the coerced count, each of
    CreateCurve / LinearInterpolation, EaseInOut and Exponential returns
    exactly n control points, in float64 as in any arithmetic, and the k-th
    point (k = 1..n) is computed, every operation rounded, as time
    t0 + ((t1-t0)/n)*k and value v0 + ((v1-v0)/n)*k by the linear law and,
    with f = k/n, as time t0 + (t1-t0)*f and value v0 + (v1-v0)*(f*f*(3-2*f))
    by ease-in-out and v0 + (v1-v0)*Pow(f, e) by the exponential law.  In
    exact arithmetic these are time t0 + k*(t1-t0)/n and values
    v0 + (v1-v0)*f, v0 + (v1-v0)*f*f*(3-2f) and v0 + (v1-v0)*f^e, and no
    emitted point has time t0 whenever t1 differs from t0, while every
    emitted point has time t0 when t1 = t0.  In float64 rounding can put an
    emitted point at t0 although t1 differs from t0: the 2-step linear curve
    from time 1 to the next float above 1 has times 1 and that float. *)
Theorem C1_interpolation_points :
  (forall (F : Type) (ops : Float64 F) (math_impl : Float64Math F)
          (t0 v0 t1 v1 e : F) (N : Z),
     let start := mkControlPoint t0 v0 in
     let end_ := mkControlPoint t1 v1 in
     let n := f_of_int (Z.max N 1) in
     (length (CreateCurve t0 t1 v0 v1 N) = Z.to_nat (Z.max N 1) /\
      length (LinearInterpolation start end_ N) = Z.to_nat (Z.max N 1) /\
      length (EaseInOut start end_ N) = Z.to_nat (Z.max N 1) /\
      length (Exponential start end_ N e) = Z.to_nat (Z.max N 1)) /\
     (forall k : Z, (1 <= k <= Z.max N 1)%Z ->
        let f := f_div (f_of_int k) n in
        let linear :=
          mkControlPoint (f_add t0 (f_mul (f_div (f_sub t1 t0) n) (f_of_int k)))
                         (f_add v0 (f_mul (f_div (f_sub v1 v0) n) (f_of_int k))) in
        CreateCurve t0 t1 v0 v1 N !! Z.to_nat (k - 1) = Some linear /\
        LinearInterpolation start end_ N !! Z.to_nat (k - 1) = Some linear /\
        EaseInOut start end_ N !! Z.to_nat (k - 1)
          = Some (mkControlPoint
                    (f_add t0 (f_mul (f_sub t1 t0) f))
                    (f_add v0 (f_mul (f_sub v1 v0)
                                     (f_mul (f_mul f f)
                                            (f_sub (f_of_int 3) (f_mul (f_of_int 2) f)))))) /\
        Exponential start end_ N e !! Z.to_nat (k - 1)
          = Some (mkControlPoint (f_add t0 (f_mul (f_sub t1 t0) f))
                                 (f_add v0 (f_mul (f_sub v1 v0) (f_pow f e)))))) /\
  (forall (t0 v0 t1 v1 e : R) (N : Z),
     let n := Z.max N 1 in
     let start := mkControlPoint t0 v0 in
     let end_ := mkControlPoint t1 v1 in
     let time (k : Z) := t0 + IZR k * (t1 - t0) / IZR n in
     let f (k : Z) := IZR k / IZR n in
     let emitted (p : ControlPoint R) :=
       p ∈ CreateCurve t0 t1 v0 v1 N \/ p ∈ LinearInterpolation start end_ N \/
       p ∈ EaseInOut start end_ N \/ p ∈ Exponential start end_ N e in
     (forall k : Z, (1 <= k <= n)%Z ->
        CreateCurve t0 t1 v0 v1 N !! Z.to_nat (k - 1)
          = Some (mkControlPoint (time k) (v0 + (v1 - v0) * f k)) /\
        LinearInterpolation start end_ N !! Z.to_nat (k - 1)
          = Some (mkControlPoint (time k) (v0 + (v1 - v0) * f k)) /\
        EaseInOut start end_ N !! Z.to_nat (k - 1)
          = Some (mkControlPoint (time k) (v0 + (v1 - v0) * f k * f k * (3 - 2 * f k))) /\
        Exponential start end_ N e !! Z.to_nat (k - 1)
          = Some (mkControlPoint (time k) (v0 + (v1 - v0) * Rpower (f k) e))) /\
     (t1 <> t0 -> forall p : ControlPoint R, emitted p -> cp_Time p <> t0) /\
     (t1 = t0 -> forall p : ControlPoint R, emitted p -> cp_Time p = t0)) /\
  (1%float <> 0x1.0000000000001p+0%float /\
   cp_Time <$> CreateCurve 1%float 0x1.0000000000001p+0%float 0%float 1%float 2
   = [1%float; 0x1.0000000000001p+0%float]).
Proof.
  split; [|split].
  - intros F ops math_impl t0 v0 t1 v1 e N start end_ n. split.
    + repeat split.
      * apply CreateCurve_length.
      * apply CreateCurve_length.
      * apply EaseInOut_length.
      * apply Exponential_length.
    + intros k Hk f linear.
      destruct (curve_points_as_computed t0 v0 t1 v1 e N k Hk) as (Hlin & Hease & Hexp).
      repeat split; assumption.
  - intros t0 v0 t1 v1 e N n start end_ time f emitted.
    assert (Htimes : forall p : ControlPoint R, emitted p -> cp_Time p ∈ sample_times t0 t1 N).
    { intros p [Hp|[Hp|[Hp|Hp]]].
      - rewrite <- (CreateCurve_times t0 t1 v0 v1 N). apply list_elem_of_fmap_2, Hp.
      - rewrite <- (CreateCurve_times t0 t1 v0 v1 N). apply list_elem_of_fmap_2, Hp.
      - rewrite <- (EaseInOut_times t0 t1 v0 v1 N). apply list_elem_of_fmap_2, Hp.
      - rewrite <- (Exponential_times t0 t1 v0 v1 e N). apply list_elem_of_fmap_2, Hp. }
    split; [|split].
    + intros k Hk. repeat split.
      * apply CreateCurve_point; assumption.
      * apply CreateCurve_point; assumption.
      * apply EaseInOut_point; assumption.
      * apply Exponential_point; assumption.
    + intros Hne p Hp. apply (sample_times_not_start t0 t1 N); [assumption|].
      apply Htimes, Hp.
    + intros Heq p Hp. apply (sample_times_no_extent t0 N).
      rewrite <- Heq at 2. apply Htimes, Hp.
  - split; [discriminate|vm_compute; reflexivity].
Qed.

(** The amended C1 at a segment from (0, 0) to (1, 1) in 10 steps, in exact
    arithmetic: the start time 0 is not among the times of the linear
    curve. *)
Lemma C1_interpolation_points_witness :
  (1 <> 0) /\
  (forall p : ControlPoint R, p ∈ CreateCurve 0 1 0 1 10 -> cp_Time p <> 0).
Proof.
  split; [lra|]. intros p Hp.
  apply (proj1 (proj2 (proj1 (proj2 C1_interpolation_points) 0 0 1 1 2 10%Z))); [lra|].
  left. exact Hp.
Defined.

(** C1 as stated fails.  On a segment of no extent, from (2, 0) to (2, 1) in
    one step, every law emits its single point at time 2, the start time, in
    exact arithmetic and in binary64 alike.  And in binary64 the start time
    is emitted on a segment with extent too: from time 1 to the next float
    above 1 in two steps, the first point of the linear and of the
    ease-in-out curve is at time 1. *)
Lemma C1_start_time_emitted :
  (cp_Time <$> CreateCurve (F:=R) 2 2 0 1 1 = [2] /\
   cp_Time <$> EaseInOut (F:=R) (mkControlPoint 2 0) (mkControlPoint 2 1) 1 = [2] /\
   cp_Time <$> Exponential (F:=R) (mkControlPoint 2 0) (mkControlPoint 2 1) 1 2 = [2]) /\
  (CreateCurve 2%float 2%float 0%float 1%float 1 = [mkControlPoint 2%float 1%float] /\
   EaseInOut (mkControlPoint 2%float 0%float) (mkControlPoint 2%float 1%float) 1
     = [mkControlPoint 2%float 1%float]) /\
  (cp_Time <$> CreateCurve 1%float 0x1.0000000000001p+0%float 0%float 1%float 2
   = [1%float; 0x1.0000000000001p+0%float] /\
   cp_Time <$> EaseInOut (mkControlPoint 1%float 0%float)
                         (mkControlPoint 0x1.0000000000001p+0%float 1%float) 2
   = [1%float; 0x1.0000000000001p+0%float]).
Proof.
  split; [|split; split; vm_compute; reflexivity].
  rewrite CreateCurve_times, EaseInOut_times, Exponential_times.
  unfold sample_times. simpl.
  repeat split; f_equal; unfold Rdiv; ring.
Qed.

(** C4 (as amended): every interpolation call with step count N returns
    exactly max(N, 1) control points, in float64 as in any arithmetic; and,
    in exact arithmetic, when the start anchor's time is strictly before the
    end anchor's time the points' times are strictly increasing, and the
    last point's time is the end anchor's time. *)
Theorem C4_interpolation_shape :
  (forall (F : Type) (ops : Float64 F) (math_impl : Float64Math F)
          (start end_ : ControlPoint F) (e : F) (N : Z),
     length (CreateCurve (cp_Time start) (cp_Time end_)
                         (cp_ParameterValue start) (cp_ParameterValue end_) N)
       = Z.to_nat (Z.max N 1) /\
     length (LinearInterpolation start end_ N) = Z.to_nat (Z.max N 1) /\
     length (EaseInOut start end_ N) = Z.to_nat (Z.max N 1) /\
     length (Exponential start end_ N e) = Z.to_nat (Z.max N 1)) /\
  (forall (t0 v0 t1 v1 e : R) (N : Z) (pts : list (ControlPoint R)),
     let start := mkControlPoint t0 v0 in
     let end_ := mkControlPoint t1 v1 in
     pts = CreateCurve t0 t1 v0 v1 N \/ pts = LinearInterpolation start end_ N \/
     pts = EaseInOut start end_ N \/ pts = Exponential start end_ N e ->
     (t0 < t1 -> times_strictly_increasing pts) /\
     cp_Time <$> last pts = Some t1).
Proof.
  split.
  - intros F ops math_impl start end_ e N. repeat split.
    + apply CreateCurve_length.
    + apply CreateCurve_length.
    + apply EaseInOut_length.
    + apply Exponential_length.
  - intros t0 v0 t1 v1 e N pts start end_ Hpts.
    assert (Hts : cp_Time <$> pts = sample_times t0 t1 N).
    { destruct Hpts as [-> | [-> | [-> | ->]]].
      - apply CreateCurve_times.
      - apply CreateCurve_times.
      - apply EaseInOut_times.
      - apply Exponential_times. }
    split.
    + intros Hlt. apply (times_increasing_of_samples pts t0 t1 N); assumption.
    + rewrite <- fmap_last, Hts. apply sample_times_last.
Qed.

(** The amended C4 on the ease-in-out curve from (0, 0) to (1, 1) in 10
    steps. *)
Lemma C4_interpolation_shape_witness :
  let pts := EaseInOut (F:=R) (mkControlPoint 0 0) (mkControlPoint 1 1) 10 in
  length pts = 10%nat /\ times_strictly_increasing pts /\ cp_Time <$> last pts = Some 1.
Proof.
  intros pts. split; [|split].
  - apply (proj1 C4_interpolation_shape R _ _ (mkControlPoint 0 0) (mkControlPoint 1 1) 2 10%Z).
  - apply (proj2 C4_interpolation_shape 0 0 1 1 2 10%Z pts); [|lra].
    right. right. left. reflexivity.
  - apply (proj2 C4_interpolation_shape 0 0 1 1 2 10%Z pts).
    right. right. left. reflexivity.
Defined.

(** C4 as stated fails: with N = 0 the output has one point, not N; with the
    end anchor before the start anchor the times decrease; in binary64 the
    4-step linear curve from time 1 to the next float above 1 has each of
    its two times twice, so its times are not strictly increasing; and in
    binary64 the ease-in-out curve from time 0.2 to time 0.9 ends at the
    float just below 0.9, the rounded sum 0.2 + (0.9 - 0.2). *)
Lemma C4_any_steps_any_anchors_fails :
  length (EaseInOut (F:=R) (mkControlPoint 0 0) (mkControlPoint 1 1) 0) = 1%nat /\
  cp_Time <$> CreateCurve (F:=R) 1 0 0 1 2 = [1 / 2; 0] /\
  cp_Time <$> CreateCurve 1%float 0x1.0000000000001p+0%float 0%float 1%float 4
    = [1%float; 1%float; 0x1.0000000000001p+0%float; 0x1.0000000000001p+0%float] /\
  (PrimFloat.ltb 0x1.999999999999ap-3 0x1.ccccccccccccdp-1 = true /\
   cp_Time <$> last (EaseInOut (mkControlPoint 0x1.999999999999ap-3%float 0%float)
                               (mkControlPoint 0x1.ccccccccccccdp-1%float 1%float) 10)
     = Some 0x1.cccccccccccccp-1%float).
Proof.
  split; [|split; [|split]].
  - rewrite EaseInOut_length. reflexivity.
  - rewrite CreateCurve_times. unfold sample_times.
    change (Z.max 2 1) with 2%Z. simpl.
    change (Z.of_nat 0 + 1)%Z with 1%Z. change (Z.of_nat 1 + 1)%Z with 2%Z.
    f_equal; [lra|]. f_equal. lra.
  - vm_compute. reflexivity.
  - split; vm_compute; reflexivity.
Qed.

End Interpolation.

(** ** Musical time *)

Module MusicalTime.
Import Exact Binary64 Binary64Facts.

Local Open Scope R_scope.

(** C2: for every tempo T > 0 and time signature (n, d), BeatToSeconds(b) is
    b * (60 / T) and BarToSeconds(r) is r * n * (60 / T); hence n beats last
    as long as one bar, and the denominator d affects neither conversion.
    This holds in exact arithmetic and, as it stands, in binary64: the only
    arithmetic fact used is that multiplying by 1 changes nothing. *)
Theorem C2_beats_and_bars :
  (forall (T : R) (n d : Z) (b r : R),
     0 < T ->
     let m := NewMusicalContext T n d in
     BeatToSeconds m b = b * (60 / T) /\
     BarToSeconds m r = r * IZR n * (60 / T) /\
     BeatToSeconds m (IZR n) = BarToSeconds m 1 /\
     (forall d' : Z,
        BeatToSeconds (NewMusicalContext T n d') b = BeatToSeconds m b /\
        BarToSeconds (NewMusicalContext T n d') r = BarToSeconds m r)) /\
  (forall (T : float) (n d : Z) (b r : float),
     let m := NewMusicalContext T n d in
     BeatToSeconds m b = (b * (60 / T))%float /\
     BarToSeconds m r = (r * of_int n * (60 / T))%float /\
     BeatToSeconds m (of_int n) = BarToSeconds m 1%float /\
     (forall d' : Z,
        BeatToSeconds (NewMusicalContext T n d') b = BeatToSeconds m b /\
        BarToSeconds (NewMusicalContext T n d') r = BarToSeconds m r)).
Proof.
  split.
  - intros T n d b r HT m. unfold m, BeatToSeconds, BarToSeconds, NewMusicalContext. simpl.
    repeat split. ring.
  - intros T n d b r m. unfold m, BeatToSeconds, BarToSeconds, NewMusicalContext. simpl.
    repeat split. rewrite mul_one_l. reflexivity.
Qed.

(** C2 at 120 BPM in 4/4: four beats and one bar both last two seconds. *)
Lemma C2_beats_and_bars_witness :
  let m := NewMusicalContext (F:=R) 120 4 4 in
  BeatToSeconds m 4 = BarToSeconds m 1 /\ BarToSeconds m 1 = 2.
Proof.
  intros m. subst m.
  pose proof (proj1 C2_beats_and_bars 120 4%Z 4%Z 0 1 ltac:(lra)) as (_ & Hbar & Hbeats & _).
  split.
  - exact Hbeats.
  - rewrite Hbar. lra.
Defined.

(** The package's own test of the converter ([TestMusicalContext]), run in
    binary64. *)
Lemma TestMusicalContext_binary64 :
  let mc := NewMusicalContext 120%float 4 4 in
  BeatDuration mc = 0.5%float /\ BarDuration mc = 2%float /\
  BeatToSeconds mc 4%float = 2%float /\ BarToSeconds mc 2%float = 4%float.
Proof. vm_compute. repeat split. Qed.

End MusicalTime.

(** ** Frequency to sharpness *)

Module Sharpness.
Import Exact Binary64 ExactFacts.

Local Open Scope R_scope.

Lemma Rltb_spec (x y : R) : BoolSpec (x < y) (y <= x) (Rltb x y).
Proof.
  destruct (Rltb x y) eqn:E; constructor.
  - apply Rltb_true, E.
  - apply Rltb_false, E.
Qed.

Lemma ln_le (x y : R) : 0 < x -> x <= y -> ln x <= ln y.
Proof.
  intros Hx [Hlt | ->].
  - apply Rlt_le, ln_increasing; assumption.
  - apply Rle_refl.
Qed.

Lemma ln_band_width : 0 < ln 230 - ln 80.
Proof. pose proof (ln_increasing 80 230 ltac:(lra) ltac:(lra)). lra. Qed.

(** The band [80, 230] maps into [0, 1]: the logarithm is monotone. *)
Lemma ratio_in_unit_interval (freq : R) :
  80 <= freq <= 230 ->
  0 <= (ln freq - ln 80) / (ln 230 - ln 80) <= 1.
Proof.
  intros [Hlo Hhi]. pose proof ln_band_width as Hden.
  assert (H1 : ln 80 <= ln freq) by (apply ln_le; lra).
  assert (H2 : ln freq <= ln 230) by (apply ln_le; lra).
  split.
  - apply Rmult_le_pos; [lra|]. apply Rlt_le, Rinv_0_lt_compat, Hden.
  - apply (Rmult_le_reg_r (ln 230 - ln 80)); [exact Hden|].
    unfold Rdiv. rewrite Rmult_assoc, Rinv_l by lra. lra.
Qed.

(** Inside the band the call succeeds with the logarithmic ratio. *)
Lemma FreqToSharpness_in_band (freq : R) (normalize : bool) :
  80 <= freq <= 230 ->
  FreqToSharpness freq normalize = ((ln freq - ln 80) / (ln 230 - ln 80), None).
Proof.
  intros Hband. pose proof (ratio_in_unit_interval freq Hband) as Hr.
  unfold FreqToSharpness. simpl.
  assert (Hclamp : (if normalize
                    then if Rltb (if Rltb 230 freq then 230 else freq) 80
                         then 80 else if Rltb 230 freq then 230 else freq
                    else freq) = freq).
  { destruct normalize; [|reflexivity].
    destruct (Rltb_spec 230 freq); [lra|]. destruct (Rltb_spec freq 80); [lra|reflexivity]. }
  rewrite Hclamp.
  destruct (Rltb_spec freq 80); [lra|]. destruct (Rltb_spec 230 freq); [lra|]. simpl.
  destruct (Rltb_spec ((ln freq - ln 80) / (ln 230 - ln 80)) 0); [lra|].
  destruct (Rltb_spec 1 ((ln freq - ln 80) / (ln 230 - ln 80))); [lra|].
  reflexivity.
Qed.

(** Outside the band, without clamping, the call fails with the band error. *)
Lemma FreqToSharpness_out_of_band (freq : R) :
  freq < 80 \/ 230 < freq ->
  FreqToSharpness freq false = (0, Some (ErrIncorrectFrequency freq)).
Proof.
  intros Hout. unfold FreqToSharpness. simpl.
  destruct (Rltb_spec freq 80); [reflexivity|].
  destruct (Rltb_spec 230 freq); [reflexivity|lra].
Qed.

(** With clamping the call is the unclamped call on the clamped input. *)
Lemma FreqToSharpness_clamped (freq : R) :
  FreqToSharpness freq true = FreqToSharpness (Rmax 80 (Rmin freq 230)) false.
Proof.
  assert (Hc : 80 <= Rmax 80 (Rmin freq 230) <= 230).
  { split; [apply Rmax_l|]. apply Rmax_lub; [lra|apply Rmin_r]. }
  rewrite (FreqToSharpness_in_band _ false Hc).
  unfold FreqToSharpness at 1. simpl.
  assert (Hclamp : (if Rltb (if Rltb 230 freq then 230 else freq) 80
                    then 80 else if Rltb 230 freq then 230 else freq)
                   = Rmax 80 (Rmin freq 230)).
  { destruct (Rltb_spec 230 freq).
    - destruct (Rltb_spec 230 80); [lra|].
      rewrite Rmin_right, Rmax_right by lra. reflexivity.
    - rewrite Rmin_left by lra. destruct (Rltb_spec freq 80).
      + rewrite Rmax_left by lra. reflexivity.
      + rewrite Rmax_right by lra. reflexivity. }
  rewrite Hclamp.
  pose proof (ratio_in_unit_interval _ Hc) as Hr.
  destruct (Rltb_spec (Rmax 80 (Rmin freq 230)) 80); [lra|].
  destruct (Rltb_spec 230 (Rmax 80 (Rmin freq 230))); [lra|]. simpl.
  destruct (Rltb_spec ((ln (Rmax 80 (Rmin freq 230)) - ln 80) / (ln 230 - ln 80)) 0); [lra|].
  destruct (Rltb_spec 1 ((ln (Rmax 80 (Rmin freq 230)) - ln 80) / (ln 230 - ln 80))); [lra|].
  reflexivity.
Qed.

Lemma clamped_in_band (freq : R) : 80 <= Rmax 80 (Rmin freq 230) <= 230.
Proof. split; [apply Rmax_l|]. apply Rmax_lub; [lra|apply Rmin_r]. Qed.

(** The three ways a call ends: clamped and successful; unclamped inside
    the band and successful; unclamped outside the band and failed. *)
Lemma FreqToSharpness_cases (freq : R) (clamp : bool) :
  (clamp = true /\ 80 <= Rmax 80 (Rmin freq 230) <= 230 /\
   FreqToSharpness freq clamp
     = ((ln (Rmax 80 (Rmin freq 230)) - ln 80) / (ln 230 - ln 80), None)) \/
  (clamp = false /\ 80 <= freq <= 230 /\
   FreqToSharpness freq clamp = ((ln freq - ln 80) / (ln 230 - ln 80), None)) \/
  (clamp = false /\ (freq < 80 \/ 230 < freq) /\
   FreqToSharpness freq clamp = (0, Some (ErrIncorrectFrequency freq))).
Proof.
  destruct clamp.
  - left. split; [reflexivity|]. split; [apply clamped_in_band|].
    rewrite FreqToSharpness_clamped. apply FreqToSharpness_in_band, clamped_in_band.
  - destruct (Rlt_dec freq 80) as [Hlo|Hlo]; [|destruct (Rlt_dec 230 freq) as [Hhi|Hhi]].
    + right. right. repeat split; [lra|]. apply FreqToSharpness_out_of_band. lra.
    + right. right. repeat split; [lra|]. apply FreqToSharpness_out_of_band. lra.
    + right. left. assert (Hband : 80 <= freq <= 230) by lra.
      repeat split; try lra. apply FreqToSharpness_in_band, Hband.
Qed.



Lemma NaN_is_unordered :
  PrimFloat.ltb nan 80 = false /\ PrimFloat.ltb 230 nan = false.
Proof. split; reflexivity. Qed.



End Sharpness.

(** ** Construction protocol: defaults and curve stages *)

Module Protocol.
Import Exact Binary64 Vocabulary.

Section Generic.

Context {F : Type} `{Float64Math F}.

Lemma TransientBuilder_Add_pattern (tb : TransientBuilder F) (b : Builder F) :
  TransientBuilder.Add tb b =
    mkBuilder
      (mkAHAP (a_Version (b_ahap b)) (a_Metadata (b_ahap b))
              (a_Pattern (b_ahap b)
               ++ [transient_element (tb_time tb) (tb_intensity tb) (tb_sharpness tb)]))
      (b_musical b).
Proof. reflexivity. Qed.

Lemma ContinuousBuilder_Add_pattern (cb : ContinuousBuilder F) (b : Builder F) :
  ContinuousBuilder.Add cb b =
    mkBuilder
      (mkAHAP (a_Version (b_ahap b)) (a_Metadata (b_ahap b))
              (a_Pattern (b_ahap b)
               ++ [continuous_element (cont_time cb) (cont_duration cb)
                                      (cont_intensity cb) (cont_sharpness cb)]))
      (b_musical b).
Proof. reflexivity. Qed.

(** C9: on a curve stage, Points replaces the whole accumulated list,
    whatever AddPoint or an interpolation selector put there before, while
    AddPoint and the three selectors append to the list they find. *)
Theorem C9_points_replace_others_append (cb : CurveBuilder F) (ctb : CurveToBuilder F)
    (pts : list (ControlPoint F)) (time value exponent : F) (steps : Z) :
  let start := mkControlPoint (ctb_startTime ctb) (ctb_startValue ctb) in
  let end_ := mkControlPoint (ctb_endTime ctb) (ctb_endValue ctb) in
  (curve_points (CurveBuilder.Points pts cb) = pts /\
   curve_points (CurveBuilder.Points pts (CurveBuilder.AddPoint time value cb)) = pts /\
   curve_points (CurveBuilder.Points pts (CurveToBuilder.Steps steps ctb cb)) = pts /\
   curve_points (CurveBuilder.Points pts (CurveToBuilder.EaseInOut steps ctb cb)) = pts /\
   curve_points (CurveBuilder.Points pts (CurveToBuilder.Exponential steps exponent ctb cb))
     = pts) /\
  (curve_points (CurveBuilder.AddPoint time value cb)
     = curve_points cb ++ [mkControlPoint time value] /\
   curve_points (CurveToBuilder.Steps steps ctb cb)
     = curve_points cb
       ++ CreateCurve (ctb_startTime ctb) (ctb_endTime ctb)
                      (ctb_startValue ctb) (ctb_endValue ctb) steps /\
   curve_points (CurveToBuilder.EaseInOut steps ctb cb)
     = curve_points cb ++ EaseInOut start end_ steps /\
   curve_points (CurveToBuilder.Exponential steps exponent ctb cb)
     = curve_points cb ++ Exponential start end_ steps exponent).
Proof. intros start end_. repeat split. Qed.

End Generic.

(** C8: every event staging object is created with intensity and sharpness
    0.5, so an event committed without a setter call carries 0.5 for both
    parameters; and a musically-relative operation (AtBeat, AtBar, Sequence,
    ContinuousBeats, ContinuousBars) on a session without musical context
    installs [NewMusicalContext(120, 4, 4)] and resolves the position with
    it.  The statement holds for any arithmetic, [f_half] being the literal
    0.5; the defaults are the numbers 0.5, 120 and 4/4 in exact arithmetic
    and in binary64. *)
Theorem C8_defaults :
  (forall (F : Type) (ops : Float64 F) (a : AHAP F) (musical : option (MusicalContext F))
          (time duration beat bar : F) (eb : EventBuilder F),
     let b := mkBuilder a musical in
     let unset := mkBuilder a None in
     let configured := mkBuilder a (Some default_context) in
     (Builder.Transient time = mkTransientBuilder time f_half f_half /\
      Builder.Continuous time duration = mkContinuousBuilder time duration f_half f_half /\
      EventBuilder.Transient eb = mkTransientBuilder (eb_time eb) f_half f_half /\
      EventBuilder.Continuous duration eb
        = mkContinuousBuilder (eb_time eb) duration f_half f_half /\
      (let cb := fst (EventBuilder.ContinuousBeats beat eb b) in
       cont_intensity cb = f_half /\ cont_sharpness cb = f_half) /\
      (let cb := fst (EventBuilder.ContinuousBars bar eb b) in
       cont_intensity cb = f_half /\ cont_sharpness cb = f_half)) /\
     (a_Pattern (b_ahap (TransientBuilder.Add (Builder.Transient time) b))
        = a_Pattern a ++ [transient_element time f_half f_half] /\
      a_Pattern (b_ahap (ContinuousBuilder.Add (Builder.Continuous time duration) b))
        = a_Pattern a ++ [continuous_element time duration f_half f_half]) /\
     (Builder.AtBeat beat unset
        = (mkEventBuilder (BeatToSeconds default_context beat), configured) /\
      Builder.AtBar bar unset
        = (mkEventBuilder (BarToSeconds default_context bar), configured) /\
      Builder.Sequence unset = configured /\
      EventBuilder.ContinuousBeats beat eb unset
        = (mkContinuousBuilder (eb_time eb) (BeatToSeconds default_context beat)
                               f_half f_half,
           configured) /\
      EventBuilder.ContinuousBars bar eb unset
        = (mkContinuousBuilder (eb_time eb) (BarToSeconds default_context bar)
                               f_half f_half,
           configured))) /\
  ((f_half : R) = 0.5%R /\
   (default_context : MusicalContext R) = mkMusicalContext 120%R (mkTimeSignature 4 4)) /\
  ((f_half : float) = 0.5%float /\
   (default_context : MusicalContext float)
     = mkMusicalContext 120%float (mkTimeSignature 4 4)).
Proof.
  split; [|split].
  - intros F ops a musical time duration beat bar eb b unset configured. repeat split.
  - split; reflexivity.
  - split; reflexivity.
Qed.

End Protocol.

(** ** Sequence generator *)

Module Sequences.
Import Exact Binary64 GoInt GoIntFacts Vocabulary Protocol.

Section Generic.

Context {F : Type} `{Float64 F}.

Lemma append_elements_nil (b : Builder F) : append_elements [] b = b.
Proof. destruct b as [[v md p] mu]. unfold append_elements. simpl. rewrite app_nil_r. reflexivity. Qed.

Lemma append_elements_app (els1 els2 : list (Pattern F)) (b : Builder F) :
  append_elements els2 (append_elements els1 b) = append_elements (els1 ++ els2) b.
Proof. unfold append_elements. simpl. rewrite app_assoc. reflexivity. Qed.

Lemma append_elements_musical (els : list (Pattern F)) (b : Builder F) :
  b_musical (append_elements els b) = b_musical b.
Proof. reflexivity. Qed.

Lemma transient_add_append (time intensity sharpness : F) (b : Builder F) :
  TransientBuilder.Add
    (TransientBuilder.Sharpness sharpness
       (TransientBuilder.Intensity intensity (Builder.Transient time))) b
  = append_elements [transient_element time intensity sharpness] b.
Proof. reflexivity. Qed.

(** The inner loop commits the bar's elements, one per beat, in slice
    order. *)
Lemma transients_in_bar_append (m : MusicalContext F) (barTime : F) (beats : list F)
    (intensity sharpness : F) (b : Builder F) :
  SequenceBuilder.transients_in_bar m barTime beats intensity sharpness b
  = append_elements
      (map (fun beat => transient_element (barTime + BeatToSeconds m beat)%f64 intensity sharpness)
           beats) b.
Proof.
  unfold SequenceBuilder.transients_in_bar.
  revert b. induction beats as [|beat beats IH]; intros b; simpl.
  - symmetry. apply append_elements_nil.
  - rewrite transient_add_append, IH, append_elements_app. reflexivity.
Qed.

(** The bar loop, entered at [bar] with [endBar] below the largest [int]:
    it returns, having committed the elements of bars [bar .. endBar] in
    order, as soon as the fuel exceeds the number of these bars. *)
Lemma TransientsOnBeats_loop_returns (m : MusicalContext F) (beats : list F)
    (intensity sharpness : F) (endBar : Z) (count : nat) :
  endBar < max_int ->
  forall (fuel : nat) (bar : Z) (b : Builder F),
    in_range bar ->
    count = Z.to_nat (endBar - bar + 1) ->
    (count < fuel)%nat ->
    b_musical b = Some m ->
    SequenceBuilder.TransientsOnBeats_loop fuel beats bar endBar intensity sharpness b
    = Returns (append_elements
                 (flat_map (bar_elements m beats intensity sharpness) (seqZ bar (Z.of_nat count)))
                 b).
Proof.
  intros Hend. induction count as [|count IH]; intros fuel bar b Hbar Hcount Hfuel Hm.
  - destruct fuel as [|fuel]; [lia|]. simpl.
    destruct (Z.leb_spec bar endBar); [lia|].
    rewrite append_elements_nil. reflexivity.
  - destruct fuel as [|fuel]; [lia|]. simpl.
    destruct (Z.leb_spec bar endBar); [|lia].
    rewrite Hm, transients_in_bar_append.
    unfold add. rewrite wrap_in_range by (unfold in_range, max_int, min_int in *; lia).
    rewrite (IH fuel (bar + 1) _); try lia; try assumption.
    + rewrite append_elements_app. f_equal. f_equal.
      rewrite (seqZ_cons bar (Z.of_nat (S count))) by lia. simpl.
      replace (Z.pred (Z.of_nat (S count))) with (Z.of_nat count) by lia.
      replace (Z.succ bar) with (bar + 1) by lia. reflexivity.
    + unfold in_range, max_int, min_int in *. lia.
Qed.

(** With [endBar] the largest [int] the bar loop never leaves: every [int]
    satisfies the loop condition, and [bar++] wraps around. *)
Lemma TransientsOnBeats_loop_max_int (m : MusicalContext F) (beats : list F)
    (intensity sharpness : F) (fuel : nat) :
  forall (bar : Z) (b : Builder F),
    in_range bar ->
    b_musical b = Some m ->
    SequenceBuilder.TransientsOnBeats_loop fuel beats bar max_int intensity sharpness b
    = OutOfFuel.
Proof.
  induction fuel as [|fuel IH]; intros bar b Hbar Hm; simpl.
  - reflexivity.
  - destruct (Z.leb_spec bar max_int) as [_|Hgt]; [|destruct Hbar; lia].
    rewrite Hm, transients_in_bar_append.
    apply IH; [apply wrap_range|assumption].
Qed.

(** With step [n = 0] the loop variable of [EveryNthBeat] stays at [0]: the
    loop never leaves once it is entered. *)
Lemma EveryNthBeat_loop_zero_step (m : MusicalContext F)
    (startBar endBar beatsPerBar totalBeats : Z) (intensity sharpness : F) (fuel : nat) :
  0 < totalBeats ->
  beatsPerBar <> 0 ->
  forall b : Builder F,
    b_musical b = Some m ->
    SequenceBuilder.EveryNthBeat_loop fuel 0 startBar endBar beatsPerBar totalBeats 0
                                      intensity sharpness b
    = OutOfFuel.
Proof.
  intros Htotal Hbpb. induction fuel as [|fuel IH]; intros b Hm; simpl.
  - reflexivity.
  - destruct (Z.ltb_spec 0 totalBeats); [|lia].
    destruct (Z.eqb_spec beatsPerBar 0); [contradiction|].
    change (add 0 0) with 0.
    destruct (add startBar (quo 0 beatsPerBar) <=? endBar)%Z.
    + rewrite Hm, transient_add_append. apply IH. assumption.
    + apply IH. assumption.
Qed.

(** Whenever the loop of [EveryNthBeat] returns, all it has done is commit
    haptic transients with the given intensity and sharpness. *)
Lemma EveryNthBeat_loop_commits (n startBar endBar beatsPerBar totalBeats : Z)
    (intensity sharpness : F) (fuel : nat) :
  forall (i : Z) (b b' : Builder F),
    SequenceBuilder.EveryNthBeat_loop fuel n startBar endBar beatsPerBar totalBeats i
                                      intensity sharpness b
    = Returns b' ->
    exists times : list F,
      b' = append_elements (map (fun t => transient_element t intensity sharpness) times) b.
Proof.
  induction fuel as [|fuel IH]; intros i b b' Hrun; simpl in Hrun.
  - discriminate.
  - destruct (i <? totalBeats)%Z.
    + destruct (beatsPerBar =? 0)%Z; [discriminate|].
      destruct (add startBar (quo i beatsPerBar) <=? endBar)%Z.
      * destruct (b_musical b) as [m|] eqn:Hm; [|discriminate].
        rewrite transient_add_append in Hrun.
        apply IH in Hrun as [times ->].
        eexists (_ :: times). rewrite append_elements_app. reflexivity.
      * apply IH in Hrun. exact Hrun.
    + injection Hrun as <-. exists []. symmetry. apply append_elements_nil.
Qed.

(** Whenever the loop of [TransientsOnBeats] returns, all it has done is
    commit haptic transients with the given intensity and sharpness. *)
Lemma TransientsOnBeats_loop_commits (beats : list F) (endBar : Z)
    (intensity sharpness : F) (fuel : nat) :
  forall (bar : Z) (b b' : Builder F),
    SequenceBuilder.TransientsOnBeats_loop fuel beats bar endBar intensity sharpness b
    = Returns b' ->
    exists times : list F,
      b' = append_elements (map (fun t => transient_element t intensity sharpness) times) b.
Proof.
  induction fuel as [|fuel IH]; intros bar b b' Hrun; simpl in Hrun.
  - discriminate.
  - destruct (bar <=? endBar)%Z.
    + destruct (b_musical b) as [m|] eqn:Hm; [|discriminate].
      rewrite transients_in_bar_append in Hrun.
      apply IH in Hrun as [times ->].
      eexists (map _ beats ++ times).
      rewrite append_elements_app, map_app, map_map. reflexivity.
    + injection Hrun as <-. exists []. symmetry. apply append_elements_nil.
Qed.

(** The beat set [EveryBeat] builds: the offsets [0 .. beatsPerBar-1]. *)
Lemma EveryBeat_beats (beatsPerBar : Z) :
  fill (fun i : Z => f_of_int i) (Z.to_nat beatsPerBar) 0
       (replicate (Z.to_nat beatsPerBar) (f_of_int 0))
  = map f_of_int (seqZ 0 beatsPerBar).
Proof.
  rewrite fill_replicate. unfold seqZ.
  rewrite <- list_fmap_compose. apply list_fmap_ext. intros _ j _. simpl.
  f_equal. lia.
Qed.

(** With a step [n >= 1] that cannot carry the loop variable past the
    largest [int], the loop of [EveryNthBeat] returns as soon as the fuel
    exceeds the distance left to [totalBeats]. *)
Lemma EveryNthBeat_loop_returns (m : MusicalContext F)
    (n startBar endBar beatsPerBar totalBeats : Z) (intensity sharpness : F) (fuel : nat) :
  0 < n ->
  beatsPerBar <> 0 ->
  totalBeats + n <= max_int ->
  forall (i : Z) (b : Builder F),
    0 <= i ->
    (Z.to_nat (totalBeats - i) < fuel)%nat ->
    b_musical b = Some m ->
    exists b' : Builder F,
      SequenceBuilder.EveryNthBeat_loop fuel n startBar endBar beatsPerBar totalBeats i
                                        intensity sharpness b
      = Returns b'.
Proof.
  intros Hn Hbpb Hmax. induction fuel as [|fuel IH]; intros i b Hi Hfuel Hm; [lia|].
  simpl. destruct (Z.ltb_spec i totalBeats) as [Hlt|Hge].
  - destruct (Z.eqb_spec beatsPerBar 0); [contradiction|].
    assert (Hnext : add i n = i + n).
    { apply wrap_in_range. unfold in_range, min_int, max_int in *. lia. }
    rewrite Hnext.
    destruct (add startBar (quo i beatsPerBar) <=? endBar)%Z.
    + rewrite Hm, transient_add_append. apply IH; [lia|lia|assumption].
    + apply IH; [lia|lia|assumption].
  - eexists. reflexivity.
Qed.

(** The loop of [Pattern] returns when every call of the callback does and
    [endBar] is below the largest [int]. *)
Lemma Pattern_loop_returns (fn : Builder F -> Z -> outcome (Builder F)) (endBar : Z)
    (count : nat) :
  endBar < max_int ->
  (forall (b : Builder F) (bar : Z), exists b' : Builder F, fn b bar = Returns b') ->
  forall (fuel : nat) (bar : Z) (b : Builder F),
    in_range bar ->
    count = Z.to_nat (endBar - bar + 1) ->
    (count < fuel)%nat ->
    exists b' : Builder F, SequenceBuilder.Pattern_loop fuel bar endBar fn b = Returns b'.
Proof.
  intros Hend Hfn. induction count as [|count IH]; intros fuel bar b Hbar Hcount Hfuel.
  - destruct fuel as [|fuel]; [lia|]. simpl.
    destruct (Z.leb_spec bar endBar); [lia|]. eexists. reflexivity.
  - destruct fuel as [|fuel]; [lia|]. simpl.
    destruct (Z.leb_spec bar endBar); [|lia].
    destruct (Hfn b bar) as [b' ->].
    unfold add. rewrite wrap_in_range by (unfold in_range, max_int, min_int in *; lia).
    apply IH; [unfold in_range, max_int, min_int in *; lia|lia|lia].
Qed.

(** [EveryBeat] is [TransientsOnBeats] on the offsets [0 .. beatsPerBar-1]. *)
Lemma EveryBeat_unfold (m : MusicalContext F) (fuel : nat) (startBar endBar : Z)
    (intensity sharpness : F) (b : Builder F) :
  b_musical b = Some m ->
  0 <= BeatsPerBar m ->
  SequenceBuilder.EveryBeat fuel startBar endBar intensity sharpness b
  = SequenceBuilder.TransientsOnBeats fuel (map f_of_int (seqZ 0 (BeatsPerBar m)))
                                      startBar endBar intensity sharpness b.
Proof.
  intros Hm Hbpb. unfold SequenceBuilder.EveryBeat. rewrite Hm.
  destruct (Z.ltb_spec (BeatsPerBar m) 0); [lia|].
  rewrite EveryBeat_beats. reflexivity.
Qed.

(** [TransientsOnBeats] over bars [startBar .. endBar], [endBar] below the
    largest [int]: it returns, with one transient per bar and beat offset,
    bars in ascending order and, within a bar, beats in slice order. *)
Lemma TransientsOnBeats_returns (m : MusicalContext F) (beats : list F)
    (startBar endBar : Z) (intensity sharpness : F) (b : Builder F) (fuel : nat) :
  in_range startBar ->
  endBar < max_int ->
  b_musical b = Some m ->
  (Z.to_nat (endBar - startBar + 1) < fuel)%nat ->
  SequenceBuilder.TransientsOnBeats fuel beats startBar endBar intensity sharpness b
  = Returns (append_elements
               (flat_map (bar_elements m beats intensity sharpness)
                         (seqZ startBar (endBar - startBar + 1)))
               b).
Proof.
  intros Hstart Hend Hm Hfuel. unfold SequenceBuilder.TransientsOnBeats.
  rewrite (TransientsOnBeats_loop_returns m beats intensity sharpness endBar
             (Z.to_nat (endBar - startBar + 1)) Hend fuel startBar b Hstart eq_refl Hfuel Hm).
  unfold seqZ. rewrite Nat2Z.id. reflexivity.
Qed.

End Generic.

(** [every beat, bars 0 to 2] at 120 BPM in 4/4, in exact arithmetic. *)
Lemma EveryBeat_example_exact (a : AHAP R) (i s : R) (extra : nat) :
  let session := mkBuilder a (Some (NewMusicalContext 120%R 4 4)) in
  SequenceBuilder.EveryBeat (4 + extra) 0 2 i s (Builder.Sequence session)
  = Returns (append_elements
               (map (fun t => transient_element t i s)
                    [0; 0.5; 1; 1.5; 2; 2.5; 3; 3.5; 4; 4.5; 5; 5.5]%R)
               session).
Proof.
  intros session.
  change (Builder.Sequence session) with session.
  rewrite (EveryBeat_unfold (NewMusicalContext 120%R 4 4)) by (reflexivity || (unfold BeatsPerBar, NewMusicalContext; simpl; lia)).
  rewrite (TransientsOnBeats_returns (NewMusicalContext 120%R 4 4));
    [|split; discriminate|reflexivity|reflexivity|simpl; lia].
  f_equal. f_equal.
  change (seqZ 0 (2 - 0 + 1)) with [0; 1; 2].
  change (seqZ 0 (BeatsPerBar (NewMusicalContext 120%R 4 4))) with [0; 1; 2; 3].
  unfold bar_elements, BarToSeconds, BeatToSeconds. simpl.
  repeat (f_equal; try lra).
Qed.

(** The same run in binary64. *)
Lemma EveryBeat_example_binary64 (a : AHAP float) (i s : float) (extra : nat) :
  let session := mkBuilder a (Some (NewMusicalContext 120%float 4 4)) in
  SequenceBuilder.EveryBeat (4 + extra) 0 2 i s (Builder.Sequence session)
  = Returns (append_elements
               (map (fun t => transient_element t i s)
                    [0; 0.5; 1; 1.5; 2; 2.5; 3; 3.5; 4; 4.5; 5; 5.5]%float)
               session).
Proof.
  intros session.
  change (Builder.Sequence session) with session.
  rewrite (EveryBeat_unfold (NewMusicalContext 120%float 4 4)) by (reflexivity || (unfold BeatsPerBar, NewMusicalContext; simpl; lia)).
  rewrite (TransientsOnBeats_returns (NewMusicalContext 120%float 4 4));
    [|split; discriminate|reflexivity|reflexivity|simpl; lia].
  vm_compute. reflexivity.
Qed.

(** C7: on a session at 120 BPM in 4/4, Sequence().EveryBeat(0, 2, i, s)
    commits exactly the twelve haptic transients at 0.0, 0.5, ..., 5.5
    seconds, in this order (in exact arithmetic and in binary64); and
    TransientsOnBeats(beats, startBar, endBar, i, s) commits, for each bar of
    [startBar, endBar] in ascending order and each beat offset of the set in
    its order, one transient at BarToSeconds(bar) + BeatToSeconds(beat) with
    the given intensity and sharpness, and nothing else, as long as [endBar]
    is below the largest [int].  With [endBar] the largest [int] the code
    departs from this: the call never returns. *)
Theorem C7_every_beat_and_transients_on_beats :
  (forall (a : AHAP R) (i s : R) (extra : nat),
     let session := mkBuilder a (Some (NewMusicalContext 120%R 4 4)) in
     SequenceBuilder.EveryBeat (4 + extra) 0 2 i s (Builder.Sequence session)
     = Returns (append_elements
                  (map (fun t => transient_element t i s)
                       [0; 0.5; 1; 1.5; 2; 2.5; 3; 3.5; 4; 4.5; 5; 5.5]%R)
                  session)) /\
  (forall (a : AHAP float) (i s : float) (extra : nat),
     let session := mkBuilder a (Some (NewMusicalContext 120%float 4 4)) in
     SequenceBuilder.EveryBeat (4 + extra) 0 2 i s (Builder.Sequence session)
     = Returns (append_elements
                  (map (fun t => transient_element t i s)
                       [0; 0.5; 1; 1.5; 2; 2.5; 3; 3.5; 4; 4.5; 5; 5.5]%float)
                  session)) /\
  (forall (F : Type) (ops : Float64 F) (m : MusicalContext F) (beats : list F)
          (startBar endBar : Z) (i s : F) (b : Builder F) (fuel : nat),
     in_range startBar ->
     endBar < max_int ->
     b_musical b = Some m ->
     (Z.to_nat (endBar - startBar + 1) < fuel)%nat ->
     SequenceBuilder.TransientsOnBeats fuel beats startBar endBar i s b
     = Returns
         (append_elements
            (flat_map
               (fun bar : Z =>
                  map (fun beat : F =>
                         transient_element
                           (f_add (BarToSeconds m (f_of_int bar)) (BeatToSeconds m beat)) i s)
                      beats)
               (seqZ startBar (endBar - startBar + 1)))
            b)) /\
  (forall (F : Type) (ops : Float64 F) (a : AHAP F) (beats : list F) (i s : F) (fuel : nat),
     SequenceBuilder.TransientsOnBeats fuel beats max_int max_int i s
                                       (Builder.Sequence (mkBuilder a None))
     = OutOfFuel).
Proof.
  split; [|split; [|split]].
  - apply EveryBeat_example_exact.
  - apply EveryBeat_example_binary64.
  - intros F ops m beats startBar endBar i s b fuel Hstart Hend Hm Hfuel.
    apply TransientsOnBeats_returns; assumption.
  - intros F ops a beats i s fuel.
    apply (TransientsOnBeats_loop_max_int default_context).
    + split; [discriminate|apply Z.le_refl].
    + reflexivity.
Qed.

(** C7 on the package's first sequence example: beats 0 and 2 of bars 5 to
    8 at 120 BPM in 4/4, run in binary64. *)
Lemma C7_every_beat_and_transients_on_beats_witness :
  let session :=
    mkBuilder (New "2024-01-01 00:00:00.000000" "Kick Pattern" "Go Developer")
              (Some (NewMusicalContext 120%float 4 4)) in
  SequenceBuilder.TransientsOnBeats 5 [0; 2]%float 5 8 1%float 0.5%float session
  = Returns (append_elements
               (map (fun t => transient_element t 1%float 0.5%float)
                    [10; 11; 12; 13; 14; 15; 16; 17]%float)
               session).
Proof.
  intros session.
  rewrite (proj1 (proj2 (proj2 C7_every_beat_and_transients_on_beats))
             float _ (NewMusicalContext 120%float 4 4) [0; 2]%float 5 8
             1%float 0.5%float session 5%nat).
  - vm_compute. reflexivity.
  - unfold in_range, min_int, max_int. lia.
  - unfold max_int. lia.
  - reflexivity.
  - simpl. lia.
Defined.

(** C5 fails on the code: on a session in the default 4/4, EveryNthBeat
    with step 0 over bar 0 never returns, whatever the fuel; and
    TransientsOnBeats up to the largest [int] never returns either. *)
Theorem C5_sequence_loops_that_never_return (F : Type) (ops : Float64 F)
    (a : AHAP F) (beats : list F) (i s : F) (fuel : nat) :
  let session := Builder.Sequence (mkBuilder a None) in
  SequenceBuilder.EveryNthBeat fuel 0 0 0 i s session = OutOfFuel /\
  SequenceBuilder.TransientsOnBeats fuel beats 0 max_int i s session = OutOfFuel.
Proof.
  intros session. split.
  - unfold SequenceBuilder.EveryNthBeat. simpl.
    apply (EveryNthBeat_loop_zero_step default_context).
    + vm_compute. reflexivity.
    + discriminate.
    + reflexivity.
  - apply (TransientsOnBeats_loop_max_int default_context).
    + split; discriminate.
    + reflexivity.
Qed.

End Sequences.

(** ** Commit operations *)

Module Commits.
Import Exact Binary64 GoInt Vocabulary Protocol Sequences.

Section Generic.

Context {F : Type} `{Float64 F}.

Lemma run_commit_append (c : commit F) (b : Builder F) :
  run_commit c b = append_elements [committed_element c] b.
Proof. destruct c; reflexivity. Qed.

Lemma run_commits_append (cs : list (commit F)) (b : Builder F) :
  run_commits cs b = append_elements (map committed_element cs) b.
Proof.
  unfold run_commits. revert b. induction cs as [|c cs IH]; intros b; simpl.
  - symmetry. apply append_elements_nil.
  - rewrite IH, run_commit_append, append_elements_app. reflexivity.
Qed.

Lemma committed_element_one_variant (c : commit F) :
  passes_nil c = false -> exactly_one_variant (committed_element c).
Proof. destruct c as [[event|]|[curve|]| | | | | | | |]; intros Hc; (exact I || discriminate Hc). Qed.

(** C6: every commit operation appends exactly one pattern element at the
    end of the document's sequence and leaves the elements already there
    (and the rest of the session) as they were, so a run of commits leaves
    the elements in call order, whatever their times; and the appended
    element has exactly one of its two variants populated whenever the call
    passes an event or a curve: every builder Add, every helper of the
    document, and AddEvent and AddParameterCurve on a pointer that is not
    nil.  The code departs from the claim on a nil pointer: AddEvent(nil)
    and AddParameterCurve(nil) append an element with neither variant. *)
Theorem C6_commits_append_in_call_order (b : Builder F) :
  (forall c : commit F,
     run_commit c b
     = mkBuilder (mkAHAP (a_Version (b_ahap b)) (a_Metadata (b_ahap b))
                         (a_Pattern (b_ahap b) ++ [committed_element c]))
                 (b_musical b)) /\
  (forall cs : list (commit F),
     a_Pattern (b_ahap (run_commits cs b))
     = a_Pattern (b_ahap b) ++ map committed_element cs) /\
  (forall c : commit F,
     passes_nil c = false ->
     exists el : Pattern F,
       a_Pattern (b_ahap (run_commit c b)) = a_Pattern (b_ahap b) ++ [el] /\
       exactly_one_variant el) /\
  (a_Pattern (AddEvent None (b_ahap b)) = a_Pattern (b_ahap b) ++ [mkPattern None None] /\
   a_Pattern (AddParameterCurve None (b_ahap b))
   = a_Pattern (b_ahap b) ++ [mkPattern None None] /\
   ~ exactly_one_variant (mkPattern (F:=F) None None)).
Proof.
  split; [|split; [|split]].
  - intros c. apply run_commit_append.
  - intros cs. rewrite run_commits_append. reflexivity.
  - intros c Hc. exists (committed_element c). split.
    + rewrite run_commit_append. reflexivity.
    + apply committed_element_one_variant, Hc.
  - split; [reflexivity|]. split; [reflexivity|]. intros Hone. exact Hone.
Qed.

Lemma fixed_parameters_unused (event : Event F) (id : string) :
  fixed_parameters event ->
  id ∈ map ep_ParameterID (ev_EventParameters event) ->
  id ∉ unused_parameter_ids.
Proof.
  intros Hfixed Hid Hunused. unfold fixed_parameters in Hfixed.
  destruct Hfixed as [[_ Hids] | [[_ Hids] | [[_ Hids] | [_ Hids]]]];
    rewrite Hids in Hid;
    repeat match goal with
           | H : _ ∈ _ :: _ |- _ => apply elem_of_cons in H as [-> | H]
           | H : _ ∈ [] |- _ => apply elem_of_nil in H; contradiction
           end;
    unfold unused_parameter_ids in Hunused;
    repeat (apply elem_of_cons in Hunused as [Hunused | Hunused]; [discriminate|]);
    apply elem_of_nil in Hunused; contradiction.
Qed.

Lemma transient_element_fixed (times : list F) (intensity sharpness : F) :
  all_fixed_parameters (map (fun t => transient_element t intensity sharpness) times).
Proof.
  intros el event [t [-> _]]%list_elem_of_fmap Hev.
  injection Hev as <-. left. split; reflexivity.
Qed.

(** C10 (as amended): every event committed through an operation that
    constructs it (the four Add helpers of the document, the Add of a
    transient or continuous stage, and the sequence generator's
    TransientsOnBeats, TransientsOnBeatsInBar, EveryBeat and EveryNthBeat)
    carries the fixed parameter list of its kind: HapticIntensity then
    HapticSharpness for the two haptic kinds, AudioVolume alone for the two
    audio kinds; none of them carries a pitch, pan, brightness, attack, decay
    or release parameter.  AddEvent commits the raw event it is handed, with
    whatever parameters it has. *)
Theorem C10_constructed_events_have_fixed_parameters :
  (forall (a : AHAP F) (b : Builder F) (time duration intensity sharpness volume : F)
          (wavFilepath : string) (tb : TransientBuilder F) (cb : ContinuousBuilder F),
     appends_event EventTypeHapticTransient
                   [mkEventParameter ParamHapticIntensity intensity;
                    mkEventParameter ParamHapticSharpness sharpness]
                   a (AddHapticTransient time intensity sharpness a) /\
     appends_event EventTypeHapticContinuous
                   [mkEventParameter ParamHapticIntensity intensity;
                    mkEventParameter ParamHapticSharpness sharpness]
                   a (AddHapticContinuous time duration intensity sharpness a) /\
     appends_event EventTypeAudioCustom [mkEventParameter ParamAudioVolume volume]
                   a (AddAudioCustom time wavFilepath volume a) /\
     appends_event EventTypeAudioContinuous [mkEventParameter ParamAudioVolume volume]
                   a (AddAudioContinuous time duration volume a) /\
     appends_event EventTypeHapticTransient
                   [mkEventParameter ParamHapticIntensity (tb_intensity tb);
                    mkEventParameter ParamHapticSharpness (tb_sharpness tb)]
                   (b_ahap b) (b_ahap (TransientBuilder.Add tb b)) /\
     appends_event EventTypeHapticContinuous
                   [mkEventParameter ParamHapticIntensity (cont_intensity cb);
                    mkEventParameter ParamHapticSharpness (cont_sharpness cb)]
                   (b_ahap b) (b_ahap (ContinuousBuilder.Add cb b))) /\
  (forall (c : commit F) (b : Builder F),
     constructs_event c = true ->
     exists event : Event F,
       a_Pattern (b_ahap (run_commit c b))
       = a_Pattern (b_ahap b) ++ [mkPattern (Some event) None] /\
       fixed_parameters event /\
       (forall id : string,
          id ∈ map ep_ParameterID (ev_EventParameters event) ->
          id ∉ unused_parameter_ids)) /\
  (forall (fuel : nat) (beats : list F) (n startBar endBar : Z) (intensity sharpness : F)
          (b b' : Builder F),
     SequenceBuilder.TransientsOnBeats fuel beats startBar endBar intensity sharpness b
       = Returns b' \/
     SequenceBuilder.TransientsOnBeatsInBar fuel beats startBar intensity sharpness b
       = Returns b' \/
     SequenceBuilder.EveryBeat fuel startBar endBar intensity sharpness b = Returns b' \/
     SequenceBuilder.EveryNthBeat fuel n startBar endBar intensity sharpness b = Returns b' ->
     exists els : list (Pattern F),
       b' = append_elements els b /\
       all_fixed_parameters els /\
       (forall (el : Pattern F) (event : Event F) (id : string),
          el ∈ els -> p_Event el = Some event ->
          id ∈ map ep_ParameterID (ev_EventParameters event) ->
          id ∉ unused_parameter_ids)) /\
  (forall (raw : option (Event F)) (a : AHAP F),
     a_Pattern (AddEvent raw a) = a_Pattern a ++ [mkPattern raw None]).
Proof.
  split; [|split; [|split]].
  - intros a b time duration intensity sharpness volume wavFilepath tb cb.
    repeat split; eexists; repeat split.
  - intros c b Hc.
    assert (Hfixed : exists event : Event F,
               a_Pattern (b_ahap (run_commit c b))
               = a_Pattern (b_ahap b) ++ [mkPattern (Some event) None] /\
               fixed_parameters event).
    { destruct c; try discriminate Hc; eexists; (split; [reflexivity|]);
        unfold fixed_parameters; simpl; tauto. }
    destruct Hfixed as (event & Hev & Hfixed).
    exists event. split; [exact Hev|]. split; [exact Hfixed|].
    intros id. apply fixed_parameters_unused, Hfixed.
  - intros fuel beats n startBar endBar intensity sharpness b b' Hrun.
    assert (Htimes : exists times : list F,
               b' = append_elements
                      (map (fun t => transient_element t intensity sharpness) times) b).
    { destruct Hrun as [Hrun | [Hrun | [Hrun | Hrun]]].
      - apply (TransientsOnBeats_loop_commits _ _ _ _ _ _ _ _ Hrun).
      - apply (TransientsOnBeats_loop_commits _ _ _ _ _ _ _ _ Hrun).
      - unfold SequenceBuilder.EveryBeat in Hrun.
        destruct (b_musical b); [|discriminate].
        destruct (BeatsPerBar m <? 0)%Z; [discriminate|].
        apply (TransientsOnBeats_loop_commits _ _ _ _ _ _ _ _ Hrun).
      - unfold SequenceBuilder.EveryNthBeat in Hrun.
        destruct (b_musical b); [|discriminate].
        apply (EveryNthBeat_loop_commits _ _ _ _ _ _ _ _ _ _ _ Hrun). }
    destruct Htimes as [times ->]. eexists. split; [reflexivity|].
    split; [apply transient_element_fixed|].
    intros el event id Hel Hev. apply fixed_parameters_unused.
    apply (transient_element_fixed times intensity sharpness el event Hel Hev).
  - intros raw a. reflexivity.
Qed.

End Generic.

(** The amended C10 on a transient committed through its staging object on a
    new session, in binary64: the document holds one event, whose parameters
    are intensity then sharpness. *)
Lemma C10_constructed_events_have_fixed_parameters_witness :
  let b := Builder.NewBuilder (F:=float) "2024-01-01 00:00:00.000000" "test" "test creator" in
  let c := TransientAdd
             (TransientBuilder.Sharpness 0.5%float
                (TransientBuilder.Intensity 1%float (Builder.Transient 0%float))) in
  exists event : Event float,
    a_Pattern (b_ahap (run_commit c b)) = [mkPattern (Some event) None] /\
    map ep_ParameterID (ev_EventParameters event) = ["HapticIntensity"; "HapticSharpness"] /\
    map ep_ParameterValue (ev_EventParameters event) = [1%float; 0.5%float].
Proof.
  intros b c.
  destruct (proj1 (proj2 (C10_constructed_events_have_fixed_parameters (F:=float))) c b eq_refl)
    as (event & Hev & _ & _).
  exists event. split; [exact Hev|].
  injection Hev as <-. split; reflexivity.
Defined.

(** C10 as stated fails: AddEvent is a public operation, and it commits the
    event it is handed with whatever parameters it has; here an audio custom
    event whose only parameter is a pitch. *)
Lemma C10_raw_event_keeps_its_parameters :
  let raw := mkEvent 0%float EventTypeAudioCustom
                     [mkEventParameter ParamAudioPitch 1.5%float]
                     None (Some "tone.wav") in
  a_Pattern (AddEvent (Some raw) (New "2024-01-01 00:00:00.000000" "raw" "caller"))
  = [mkPattern (Some raw) None] /\
  map ep_ParameterID (ev_EventParameters raw) = ["AudioPitch"] /\
  ev_EventType raw = "AudioCustom".
Proof. repeat split. Qed.

End Commits.

(** ** Musical time: inverse conversions and unit durations *)

Module Conversions.
Import Exact Binary64 Binary64Facts.

Local Open Scope R_scope.

(** X1: Beats and seconds convert back and forth without loss, in exact
    arithmetic, at every tempo other than zero: SecondsToBeats undoes
    BeatToSeconds and BeatToSeconds undoes SecondsToBeats.  In binary64 the
    round trip can miss by one unit in the last place: at 90 BPM beat 7
    comes back as the float just below 7. *)
Theorem beats_seconds_round_trip :
  (forall (m : MusicalContext R) (x : R),
     BPM m <> 0 ->
     SecondsToBeats m (BeatToSeconds m x) = x /\
     BeatToSeconds m (SecondsToBeats m x) = x) /\
  (let m := NewMusicalContext 90%float 3 4 in
   SecondsToBeats m (BeatToSeconds m 7%float) = 0x1.bffffffffffffp+2%float).
Proof.
  split.
  - intros m x HT. unfold SecondsToBeats, BeatToSeconds. simpl.
    split; field; lra.
  - vm_compute. reflexivity.
Qed.

(** The round trip at 90 BPM in 3/4, from 7 beats and from 7 seconds, in
    exact arithmetic. *)
Lemma beats_seconds_round_trip_witness :
  let m := NewMusicalContext (F:=R) 90 3 4 in
  SecondsToBeats m (BeatToSeconds m 7) = 7 /\ BeatToSeconds m (SecondsToBeats m 7) = 7.
Proof.
  intros m. apply (proj1 beats_seconds_round_trip m 7). simpl. lra.
Defined.

(** X2: Bars and seconds convert back and forth without loss, in exact
    arithmetic, when neither the tempo nor the number of beats per bar is
    zero; and a duration in beats is its duration in bars times the beats
    per bar.  In binary64 the round trip can miss by one unit in the last
    place: at 70 BPM in 3/4 bar 7 comes back as the float just above 7. *)
Theorem bars_seconds_round_trip :
  (forall (m : MusicalContext R) (x : R),
     BPM m <> 0 ->
     BeatsPerBar m <> 0%Z ->
     SecondsToBars m (BarToSeconds m x) = x /\
     BarToSeconds m (SecondsToBars m x) = x /\
     SecondsToBeats m x = SecondsToBars m x * IZR (BeatsPerBar m)) /\
  (let m := NewMusicalContext 70%float 3 4 in
   SecondsToBars m (BarToSeconds m 7%float) = 0x1.c000000000001p+2%float).
Proof.
  split.
  - intros m x HT Hn. apply not_0_IZR in Hn.
    unfold SecondsToBars, BarToSeconds, SecondsToBeats, BeatsPerBar in *. simpl.
    repeat split; field; lra.
  - vm_compute. reflexivity.
Qed.

(** The round trip at 90 BPM in 3/4, from 7 bars and from 7 seconds, in
    exact arithmetic. *)
Lemma bars_seconds_round_trip_witness :
  let m := NewMusicalContext (F:=R) 90 3 4 in
  SecondsToBars m (BarToSeconds m 7) = 7 /\ BarToSeconds m (SecondsToBars m 7) = 7 /\
  SecondsToBeats m 7 = SecondsToBars m 7 * 3.
Proof.
  intros m. apply (proj1 bars_seconds_round_trip m 7).
  - simpl. lra.
  - discriminate.
Defined.

(** X3: The unit durations: one beat lasts 60 / BPM seconds, one bar lasts
    BeatsPerBar beats, and both conversions are multiples of the unit
    durations.  This holds in exact arithmetic and in binary64 alike, for
    every tempo and time signature. *)
Theorem unit_durations :
  (forall (m : MusicalContext R) (x : R),
     BeatDuration m = 60 / BPM m /\
     BarDuration m = IZR (BeatsPerBar m) * BeatDuration m /\
     BeatToSeconds m x = x * BeatDuration m /\
     BarToSeconds m x = x * IZR (BeatsPerBar m) * BeatDuration m) /\
  (forall (m : MusicalContext float) (x : float),
     BeatDuration m = (60 / BPM m)%float /\
     BarDuration m = (of_int (BeatsPerBar m) * BeatDuration m)%float /\
     BeatToSeconds m x = (x * BeatDuration m)%float /\
     BarToSeconds m x = (x * of_int (BeatsPerBar m) * BeatDuration m)%float).
Proof.
  split.
  - intros m x. unfold BeatDuration, BarDuration, BeatToSeconds, BarToSeconds, BeatsPerBar.
    simpl. repeat split; ring.
  - intros m x. unfold BeatDuration, BarDuration, BeatToSeconds, BarToSeconds, BeatsPerBar.
    simpl. rewrite !mul_one_l. repeat split.
Qed.

End Conversions.

(** ** Session configuration *)

Module Configuration.

Section Generic.

Context {F : Type} `{Float64 F}.

(** X4: The two setters of the musical context act on separate fields: in
    either order they leave the same session, whose context has the tempo
    and the signature given; a second call of a setter overrides the first;
    and neither touches the document, so events already committed keep
    their times when the tempo changes. *)
Theorem tempo_and_signature_setters (b : Builder F) (bpm bpm' : F) (n d n' d' : Z) :
  (Builder.WithBPM bpm (Builder.WithTimeSignature n d b)
   = Builder.WithTimeSignature n d (Builder.WithBPM bpm b) /\
   Builder.WithBPM bpm (Builder.WithTimeSignature n d b)
   = mkBuilder (b_ahap b) (Some (NewMusicalContext bpm n d))) /\
  (Builder.WithBPM bpm' (Builder.WithBPM bpm b) = Builder.WithBPM bpm' b /\
   Builder.WithTimeSignature n' d' (Builder.WithTimeSignature n d b)
   = Builder.WithTimeSignature n' d' b) /\
  (b_ahap (Builder.WithBPM bpm b) = b_ahap b /\
   b_ahap (Builder.WithTimeSignature n d b) = b_ahap b).
Proof.
  destruct b as [a [m|]]; repeat split.
Qed.

End Generic.

End Configuration.

(** ** Sequence generator: what the loops commit *)

Module SequenceLaws.
Import Exact Binary64 GoInt GoIntFacts Vocabulary Protocol Sequences.

Lemma wrap_mod (x : Z) : wrap x mod 2 ^ 64 = x mod 2 ^ 64.
Proof.
  unfold wrap. rewrite Zminus_mod_idemp_l. f_equal. lia.
Qed.

Lemma wrap_congr (x y : Z) : x mod 2 ^ 64 = y mod 2 ^ 64 -> wrap x = wrap y.
Proof.
  intros Hxy. unfold wrap. f_equal.
  rewrite <- (Zplus_mod_idemp_l x), <- (Zplus_mod_idemp_l y), Hxy. reflexivity.
Qed.

(** Wrap-around commutes with the operations: the total number of beats
    [EveryNthBeat] computes is the wrapped exact product. *)
Lemma totalBeats_wrap (startBar endBar beatsPerBar : Z) :
  mul (add (sub endBar startBar) 1) beatsPerBar
  = wrap ((endBar - startBar + 1) * beatsPerBar).
Proof.
  unfold mul, add, sub. apply wrap_congr.
  rewrite <- Zmult_mod_idemp_l, wrap_mod, <- Zplus_mod_idemp_l, wrap_mod.
  rewrite Zplus_mod_idemp_l, Zmult_mod_idemp_l. reflexivity.
Qed.

Section Generic.

Context {F : Type} `{Float64 F}.

(** The loop of [EveryNthBeat] entered at the absolute beat [i]: with a
    step [n >= 1] that cannot carry the loop variable past the largest
    [int], it commits the beats [i, i + n, i + 2n, ...] below [totalBeats];
    the guard on the bar never rejects one. *)
Lemma EveryNthBeat_loop_run (m : MusicalContext F) (n startBar endBar totalBeats : Z)
    (intensity sharpness : F) :
  0 < n ->
  0 < BeatsPerBar m ->
  in_range startBar ->
  in_range endBar ->
  totalBeats = (endBar - startBar + 1) * BeatsPerBar m ->
  totalBeats + n <= max_int ->
  forall (count fuel : nat) (i : Z) (b : Builder F),
    0 <= i ->
    count = Z.to_nat ((totalBeats - i + n - 1) / n) ->
    (count < fuel)%nat ->
    b_musical b = Some m ->
    SequenceBuilder.EveryNthBeat_loop fuel n startBar endBar (BeatsPerBar m) totalBeats i
                                      intensity sharpness b
    = Returns (append_elements
                 (map (fun k => absolute_beat_element m startBar intensity sharpness (i + k * n))
                      (seqZ 0 (Z.of_nat count)))
                 b).
Proof.
  intros Hn Hbpb Hstart Hend HT Hmax.
  induction count as [|count IH]; intros fuel i b Hi Hcount Hfuel Hm.
  - destruct fuel as [|fuel]; [lia|]. simpl.
    assert (Hge : totalBeats <= i).
    { destruct (Z.le_gt_cases totalBeats i) as [Hle|Hgt]; [exact Hle|].
      assert (1 <= (totalBeats - i + n - 1) / n) by (apply Z.div_le_lower_bound; lia).
      lia. }
    destruct (Z.ltb_spec i totalBeats); [lia|].
    rewrite append_elements_nil. reflexivity.
  - destruct fuel as [|fuel]; [lia|]. simpl.
    assert (Hlt : i < totalBeats).
    { destruct (Z.le_gt_cases totalBeats i) as [Hle|Hgt]; [|lia].
      assert ((totalBeats - i + n - 1) / n <= 0).
      { apply Z.lt_succ_r. apply Z.div_lt_upper_bound; lia. }
      lia. }
    destruct (Z.ltb_spec i totalBeats); [|lia].
    destruct (Z.eqb_spec (BeatsPerBar m) 0); [lia|].
    assert (Hbars : 0 < endBar - startBar + 1) by nia.
    assert (Hq : 0 <= i / BeatsPerBar m < endBar - startBar + 1).
    { split; [apply Z.div_pos; lia|]. apply Z.div_lt_upper_bound; lia. }
    assert (Hquo : quo i (BeatsPerBar m) = i / BeatsPerBar m).
    { unfold quo. rewrite Z.quot_div_nonneg by lia.
      apply wrap_in_range. unfold in_range, min_int, max_int in *. nia. }
    assert (Hrem : rem i (BeatsPerBar m) = i mod BeatsPerBar m).
    { unfold rem. apply Z.rem_mod_nonneg; lia. }
    assert (Hbar : add startBar (i / BeatsPerBar m) = startBar + i / BeatsPerBar m).
    { apply wrap_in_range. unfold in_range, min_int, max_int in *. lia. }
    assert (Hnext : add i n = i + n).
    { apply wrap_in_range. unfold in_range, min_int, max_int in *. lia. }
    rewrite Hquo, Hrem, Hbar, Hnext.
    destruct (Z.leb_spec (startBar + i / BeatsPerBar m) endBar); [|lia].
    rewrite Hm, transient_add_append.
    rewrite (IH fuel (i + n)); [|lia| |lia|assumption].
    + rewrite append_elements_app. f_equal.
      rewrite (seqZ_cons 0 (Z.of_nat (S count))) by lia.
      replace (Z.pred (Z.of_nat (S count))) with (Z.of_nat count) by lia.
      change (Z.succ 0) with (1 + 0). rewrite <- fmap_add_seqZ.
      simpl. unfold absolute_beat_element at 2. rewrite Z.add_0_r. f_equal.
      rewrite map_map. f_equal. apply map_ext. intros k. f_equal. lia.
    + replace (totalBeats - (i + n) + n - 1) with (totalBeats - i + n - 1 + (-1) * n) by lia.
      rewrite Z.div_add by lia. lia.
Qed.


(** The bars of a range, beat by beat, are the absolute beats counted from
    the start of the range. *)
Lemma bars_are_absolute_beats (m : MusicalContext F) (startBar : Z)
    (intensity sharpness : F) (bars : nat) :
  0 < BeatsPerBar m ->
  flat_map (bar_elements m (map f_of_int (seqZ 0 (BeatsPerBar m))) intensity sharpness)
           (seqZ startBar (Z.of_nat bars))
  = map (absolute_beat_element m startBar intensity sharpness)
        (seqZ 0 (Z.of_nat bars * BeatsPerBar m)).
Proof.
  intros Hbpb. induction bars as [|bars IH].
  - reflexivity.
  - replace (Z.of_nat (S bars)) with (Z.of_nat bars + 1) by lia.
    rewrite seqZ_app by lia. rewrite flat_map_app, IH.
    replace ((Z.of_nat bars + 1) * BeatsPerBar m)
      with (Z.of_nat bars * BeatsPerBar m + BeatsPerBar m) by lia.
    rewrite (seqZ_app 0) by nia. rewrite map_app. f_equal.
    change (seqZ (startBar + Z.of_nat bars) 1) with [startBar + Z.of_nat bars].
    simpl. rewrite app_nil_r. unfold bar_elements. rewrite map_map.
    rewrite Z.add_0_l.
    replace (seqZ (Z.of_nat bars * BeatsPerBar m) (BeatsPerBar m))
      with (Z.add (Z.of_nat bars * BeatsPerBar m) <$> seqZ 0 (BeatsPerBar m))
      by (rewrite fmap_add_seqZ; f_equal; lia).
    change (@fmap list _ Z Z) with (@map Z Z). rewrite map_map.
    apply list_fmap_ext. intros j beat Hj.
    apply lookup_seqZ in Hj as [-> Hj]. rewrite Z.add_0_l.
    unfold absolute_beat_element.
    rewrite (Z.add_comm (Z.of_nat bars * BeatsPerBar m)).
    rewrite Z.div_add, Z.mod_add by lia.
    rewrite Z.div_small, Z.mod_small by lia.
    rewrite Z.add_0_l. reflexivity.
Qed.

(** Committing transients keeps the musical context. *)
Lemma EveryNthBeat_loop_never_panics (m : MusicalContext F)
    (n startBar endBar beatsPerBar totalBeats : Z) (intensity sharpness : F) (fuel : nat) :
  beatsPerBar <> 0 ->
  forall (i : Z) (b : Builder F),
    b_musical b = Some m ->
    SequenceBuilder.EveryNthBeat_loop fuel n startBar endBar beatsPerBar totalBeats i
                                      intensity sharpness b
    <> Panics.
Proof.
  intros Hbpb. induction fuel as [|fuel IH]; intros i b Hm; simpl.
  - discriminate.
  - destruct (i <? totalBeats)%Z; [|discriminate].
    destruct (Z.eqb_spec beatsPerBar 0); [contradiction|].
    destruct (add startBar (quo i beatsPerBar) <=? endBar)%Z.
    + rewrite Hm, transient_add_append. apply IH. exact Hm.
    + apply IH. exact Hm.
Qed.

Lemma TransientsOnBeats_loop_never_panics (m : MusicalContext F) (beats : list F)
    (endBar : Z) (intensity sharpness : F) (fuel : nat) :
  forall (bar : Z) (b : Builder F),
    b_musical b = Some m ->
    SequenceBuilder.TransientsOnBeats_loop fuel beats bar endBar intensity sharpness b
    <> Panics.
Proof.
  induction fuel as [|fuel IH]; intros bar b Hm; simpl.
  - discriminate.
  - destruct (bar <=? endBar)%Z; [|discriminate].
    rewrite Hm, transients_in_bar_append. apply IH. exact Hm.
Qed.

Lemma not_panics_cases (r : outcome (Builder F)) :
  r <> Panics -> r = OutOfFuel \/ exists b' : Builder F, r = Returns b'.
Proof.
  destruct r as [b'| |]; intros Hr.
  - right. exists b'. reflexivity.
  - contradiction.
  - left. reflexivity.
Qed.

(** The loop of [Pattern] is the run of the callback over the bars of the
    range. *)
Lemma Pattern_loop_run_bars (fn : Builder F -> Z -> outcome (Builder F)) (endBar : Z)
    (count : nat) :
  endBar < max_int ->
  forall (fuel : nat) (bar : Z) (b : Builder F),
    in_range bar ->
    count = Z.to_nat (endBar - bar + 1) ->
    (count < fuel)%nat ->
    SequenceBuilder.Pattern_loop fuel bar endBar fn b
    = run_bars fn (seqZ bar (Z.of_nat count)) b.
Proof.
  intros Hend. induction count as [|count IH]; intros fuel bar b Hbar Hcount Hfuel.
  - destruct fuel as [|fuel]; [lia|]. simpl.
    destruct (Z.leb_spec bar endBar); [lia|]. reflexivity.
  - destruct fuel as [|fuel]; [lia|]. simpl.
    destruct (Z.leb_spec bar endBar); [|lia].
    rewrite (seqZ_cons bar (Z.of_nat (S count))) by lia. simpl.
    replace (Z.pred (Z.of_nat (S count))) with (Z.of_nat count) by lia.
    replace (Z.succ bar) with (bar + 1) by lia.
    destruct (fn b bar) as [b'| |]; [|reflexivity|reflexivity].
    unfold add. rewrite wrap_in_range by (unfold in_range, max_int, min_int in *; lia).
    apply IH; [unfold in_range, max_int, min_int in *; lia|lia|lia].
Qed.

(** A callback that commits the elements [els bar] on every session with
    the context [m], run over a list of bars. *)
Lemma run_bars_commits (m : MusicalContext F) (fn : Builder F -> Z -> outcome (Builder F))
    (els : Z -> list (Pattern F)) (bars : list Z) :
  (forall (bar : Z) (b : Builder F),
     bar ∈ bars -> b_musical b = Some m -> fn b bar = Returns (append_elements (els bar) b)) ->
  forall b : Builder F,
    b_musical b = Some m ->
    run_bars fn bars b = Returns (append_elements (flat_map els bars) b).
Proof.
  induction bars as [|bar bars IH]; intros Hfn b Hm; simpl.
  - rewrite append_elements_nil. reflexivity.
  - rewrite (Hfn bar b) by (assumption || (apply elem_of_cons; left; reflexivity)).
    rewrite IH.
    + rewrite append_elements_app. reflexivity.
    + intros bar' b' Hbar' Hm'. apply Hfn; [apply elem_of_cons; right|]; assumption.
    + exact Hm.
Qed.


Lemma seqZ_to_nat (start len : Z) : seqZ start (Z.of_nat (Z.to_nat len)) = seqZ start len.
Proof. unfold seqZ. rewrite Nat2Z.id. reflexivity. Qed.

(** [EveryNthBeat] with a step [n >= 1], when no [int] of the call wraps
    around. *)
Lemma EveryNthBeat_returns (m : MusicalContext F) (n startBar endBar : Z)
    (intensity sharpness : F) (b : Builder F) (fuel : nat) :
  0 < n ->
  0 < BeatsPerBar m ->
  in_range startBar ->
  in_range endBar ->
  min_int <= (endBar - startBar + 1) * BeatsPerBar m ->
  (endBar - startBar + 1) * BeatsPerBar m + n <= max_int ->
  b_musical b = Some m ->
  (Z.to_nat (((endBar - startBar + 1) * BeatsPerBar m + n - 1) / n) < fuel)%nat ->
  SequenceBuilder.EveryNthBeat fuel n startBar endBar intensity sharpness b
  = Returns (append_elements
               (map (fun k => absolute_beat_element m startBar intensity sharpness (k * n))
                    (seqZ 0 (((endBar - startBar + 1) * BeatsPerBar m + n - 1) / n)))
               b).
Proof.
  intros Hn Hbpb Hstart Hend Hmin Hmax Hm Hfuel.
  unfold SequenceBuilder.EveryNthBeat. rewrite Hm. cbv zeta.
  rewrite totalBeats_wrap, wrap_in_range by (unfold in_range; lia).
  rewrite (EveryNthBeat_loop_run m n startBar endBar _ intensity sharpness
             Hn Hbpb Hstart Hend eq_refl Hmax
             (Z.to_nat (((endBar - startBar + 1) * BeatsPerBar m + n - 1) / n)) fuel 0 b);
    [|lia|f_equal; f_equal; lia|exact Hfuel|exact Hm].
  rewrite seqZ_to_nat. reflexivity.
Qed.

(** X5: EveryNthBeat(n, startBar, endBar, i, s) with a step n >= 1 on a session
    with at least one beat per bar, when no integer of the call overflows:
    the call returns, having committed one transient for each of the
    absolute beats 0, n, 2n, ... below the total (endBar - startBar + 1) *
    beatsPerBar, in this order, each in bar startBar + beat / beatsPerBar on
    beat (beat mod beatsPerBar) of that bar; the bar guard of the loop never
    drops a beat; with endBar < startBar nothing is committed. *)
Theorem EveryNthBeat_commits_every_nth_beat (m : MusicalContext F) (n startBar endBar : Z)
    (intensity sharpness : F) (b : Builder F) (fuel : nat) :
  let totalBeats := (endBar - startBar + 1) * BeatsPerBar m in
  let count := (totalBeats + n - 1) / n in
  0 < n ->
  0 < BeatsPerBar m ->
  in_range startBar ->
  in_range endBar ->
  min_int <= totalBeats ->
  totalBeats + n <= max_int ->
  b_musical b = Some m ->
  (Z.to_nat count < fuel)%nat ->
  SequenceBuilder.EveryNthBeat fuel n startBar endBar intensity sharpness b
  = Returns (append_elements
               (map (fun k => absolute_beat_element m startBar intensity sharpness (k * n))
                    (seqZ 0 count))
               b) /\
  (endBar < startBar ->
   SequenceBuilder.EveryNthBeat fuel n startBar endBar intensity sharpness b = Returns b).
Proof.
  intros totalBeats count Hn Hbpb Hstart Hend Hmin Hmax Hm Hfuel.
  assert (Hrun := EveryNthBeat_returns m n startBar endBar intensity sharpness b fuel
                    Hn Hbpb Hstart Hend Hmin Hmax Hm Hfuel).
  split; [exact Hrun|].
  intros Hempty. rewrite Hrun.
  assert (Hcount : count <= 0).
  { apply Z.lt_succ_r. apply Z.div_lt_upper_bound; [lia|]. subst totalBeats. nia. }
  fold totalBeats. fold count. unfold seqZ.
  replace (Z.to_nat count) with 0%nat by lia. simpl.
  rewrite append_elements_nil. reflexivity.
Qed.

(** X6: EveryNthBeat with step 1 commits what EveryBeat commits: on a session
    with at least one beat per bar, when no integer of the calls overflows,
    both return the same session. *)
Theorem EveryNthBeat_step_1_is_EveryBeat (m : MusicalContext F) (startBar endBar : Z)
    (intensity sharpness : F) (b : Builder F) (fuel fuel' : nat) :
  let totalBeats := (endBar - startBar + 1) * BeatsPerBar m in
  0 < BeatsPerBar m ->
  in_range startBar ->
  min_int <= endBar < max_int ->
  min_int <= totalBeats < max_int ->
  b_musical b = Some m ->
  (Z.to_nat totalBeats < fuel)%nat ->
  (Z.to_nat (endBar - startBar + 1) < fuel')%nat ->
  SequenceBuilder.EveryNthBeat fuel 1 startBar endBar intensity sharpness b
  = SequenceBuilder.EveryBeat fuel' startBar endBar intensity sharpness b /\
  exists b' : Builder F,
    SequenceBuilder.EveryBeat fuel' startBar endBar intensity sharpness b = Returns b'.
Proof.
  intros totalBeats Hbpb Hstart Hend HT Hm Hfuel Hfuel'.
  rewrite (EveryBeat_unfold m) by (assumption || lia).
  rewrite (TransientsOnBeats_returns m) by (assumption || lia).
  split; [|eexists; reflexivity].
  rewrite (EveryNthBeat_returns m 1 startBar endBar intensity sharpness b fuel);
    try assumption; try (unfold in_range; lia); try (fold totalBeats; lia).
  - f_equal. f_equal. fold totalBeats.
    replace ((totalBeats + 1 - 1) / 1) with totalBeats by (rewrite Z.div_1_r; lia).
    rewrite <- (seqZ_to_nat startBar), bars_are_absolute_beats by exact Hbpb.
    rewrite <- (seqZ_to_nat 0 totalBeats).
    replace (Z.to_nat totalBeats) with (Z.to_nat (Z.of_nat (Z.to_nat (endBar - startBar + 1))
                                                  * BeatsPerBar m)) by (subst totalBeats; nia).
    rewrite seqZ_to_nat. apply map_ext. intros k. f_equal. lia.
  - fold totalBeats. rewrite Z.div_1_r. lia.
Qed.

(** X7: Panics of the sequence generator once Sequence() has made the session
    musical: TransientsOnBeats, TransientsOnBeatsInBar and EveryNthBeat never
    panic, whatever their arguments (they return or run forever); EveryBeat
    panics when the time signature has a negative number of beats per bar,
    which WithTimeSignature accepts.  With zero beats per bar EveryNthBeat
    divides by nothing: it returns the session as it found it. *)
Theorem sequence_generator_panics (b : Builder F) (beats : list F) (n startBar endBar : Z)
    (intensity sharpness : F) (fuel : nat) :
  let session := Builder.Sequence b in
  let returns_or_runs_on (r : outcome (Builder F)) :=
    r = OutOfFuel \/ exists b' : Builder F, r = Returns b' in
  returns_or_runs_on
    (SequenceBuilder.TransientsOnBeats fuel beats startBar endBar intensity sharpness session) /\
  returns_or_runs_on
    (SequenceBuilder.TransientsOnBeatsInBar fuel beats startBar intensity sharpness session) /\
  returns_or_runs_on
    (SequenceBuilder.EveryNthBeat fuel n startBar endBar intensity sharpness session) /\
  (BeatsPerBar (ensure_musical b) < 0 ->
   SequenceBuilder.EveryBeat fuel startBar endBar intensity sharpness session = Panics) /\
  (BeatsPerBar (ensure_musical b) = 0 ->
   SequenceBuilder.EveryNthBeat (S fuel) n startBar endBar intensity sharpness session
   = Returns session).
Proof.
  intros session returns_or_runs_on.
  assert (Hm : b_musical session = Some (ensure_musical b)) by reflexivity.
  assert (Hzero : BeatsPerBar (ensure_musical b) = 0 ->
                  forall fuel' : nat,
                    SequenceBuilder.EveryNthBeat (S fuel') n startBar endBar
                                                 intensity sharpness session
                    = Returns session).
  { intros Hbpb fuel'. unfold SequenceBuilder.EveryNthBeat. rewrite Hm. cbv zeta.
    rewrite totalBeats_wrap, Hbpb, Z.mul_0_r. reflexivity. }
  split; [|split; [|split; [|split]]].
  - apply not_panics_cases, (TransientsOnBeats_loop_never_panics (ensure_musical b)), Hm.
  - apply not_panics_cases, (TransientsOnBeats_loop_never_panics (ensure_musical b)), Hm.
  - destruct (Z.eq_dec (BeatsPerBar (ensure_musical b)) 0) as [Hbpb|Hbpb].
    + destruct fuel as [|fuel'].
      * left. unfold SequenceBuilder.EveryNthBeat. rewrite Hm. reflexivity.
      * right. exists session. apply Hzero, Hbpb.
    + apply not_panics_cases. unfold SequenceBuilder.EveryNthBeat. rewrite Hm.
      apply (EveryNthBeat_loop_never_panics (ensure_musical b)); [exact Hbpb|exact Hm].
  - intros Hneg. unfold SequenceBuilder.EveryBeat. rewrite Hm. cbv zeta.
    destruct (Z.ltb_spec (BeatsPerBar (ensure_musical b)) 0); [reflexivity|lia].
  - intros Hbpb. apply Hzero, Hbpb.
Qed.

(** X8: TransientsOnBeats over bars [startBar, endBar], endBar below the largest
    int: the call returns, the pattern has grown by exactly (number of bars)
    x (number of beat offsets) elements, and the musical context, version
    and metadata are as before; with an empty beat set or endBar < startBar
    the session is returned unchanged. *)
Theorem TransientsOnBeats_growth (m : MusicalContext F) (beats : list F)
    (startBar endBar : Z) (intensity sharpness : F) (b : Builder F) (fuel : nat) :
  in_range startBar ->
  endBar < max_int ->
  b_musical b = Some m ->
  (Z.to_nat (endBar - startBar + 1) < fuel)%nat ->
  exists b' : Builder F,
    SequenceBuilder.TransientsOnBeats fuel beats startBar endBar intensity sharpness b
    = Returns b' /\
    length (a_Pattern (b_ahap b'))
    = (length (a_Pattern (b_ahap b)) + Z.to_nat (endBar - startBar + 1) * length beats)%nat /\
    b_musical b' = b_musical b /\
    a_Version (b_ahap b') = a_Version (b_ahap b) /\
    a_Metadata (b_ahap b') = a_Metadata (b_ahap b) /\
    (beats = [] \/ endBar < startBar -> b' = b).
Proof.
  intros Hstart Hend Hm Hfuel.
  eexists. split; [apply (TransientsOnBeats_returns m); assumption|].
  assert (Hlen : forall bars : list Z,
             length (flat_map (bar_elements m beats intensity sharpness) bars)
             = (length bars * length beats)%nat).
  { induction bars as [|bar bars IH]; [reflexivity|].
    simpl. rewrite length_app, IH. unfold bar_elements. rewrite length_map. lia. }
  split; [|split; [|split; [|split]]]; try reflexivity.
  - simpl. rewrite length_app, Hlen, length_seqZ. reflexivity.
  - intros [-> | Hempty].
    + assert (Hnil : forall bars : list Z,
                 flat_map (bar_elements m [] intensity sharpness) bars = []).
      { induction bars as [|bar bars IH]; [reflexivity|exact IH]. }
      rewrite Hnil. apply append_elements_nil.
    + unfold seqZ. replace (Z.to_nat (endBar - startBar + 1)) with 0%nat by lia.
      apply append_elements_nil.
Qed.

(** X9: Pattern(startBar, endBar, fn), endBar below the largest int: the call is
    the run of the callback over the bars startBar, startBar + 1, ...,
    endBar in ascending order, each call on the session the previous one
    left; a callback that panics ends the run with its panic; with
    endBar < startBar the callback is never called. *)
Theorem Pattern_runs_callback_bar_by_bar (fn : Builder F -> Z -> outcome (Builder F))
    (startBar endBar : Z) (b : Builder F) (fuel : nat) :
  in_range startBar ->
  endBar < max_int ->
  (Z.to_nat (endBar - startBar + 1) < fuel)%nat ->
  SequenceBuilder.Pattern fuel startBar endBar fn b
  = run_bars fn (seqZ startBar (endBar - startBar + 1)) b /\
  (endBar < startBar -> SequenceBuilder.Pattern fuel startBar endBar fn b = Returns b) /\
  (startBar <= endBar -> fn b startBar = Panics ->
   SequenceBuilder.Pattern fuel startBar endBar fn b = Panics).
Proof.
  intros Hstart Hend Hfuel.
  assert (Hrun : SequenceBuilder.Pattern fuel startBar endBar fn b
                 = run_bars fn (seqZ startBar (endBar - startBar + 1)) b).
  { unfold SequenceBuilder.Pattern.
    rewrite (Pattern_loop_run_bars fn endBar (Z.to_nat (endBar - startBar + 1)) Hend
               fuel startBar b Hstart eq_refl Hfuel).
    rewrite seqZ_to_nat. reflexivity. }
  split; [exact Hrun|]. split.
  - intros Hempty. rewrite Hrun. unfold seqZ.
    replace (Z.to_nat (endBar - startBar + 1)) with 0%nat by lia. reflexivity.
  - intros Hle Hpanic. rewrite Hrun, seqZ_cons by lia. simpl. rewrite Hpanic. reflexivity.
Qed.

(** X10: Pattern with the callback that adds the beats of one bar
    (Sequence().TransientsOnBeatsInBar) commits what TransientsOnBeats
    commits over the whole range. *)
Theorem Pattern_of_bars_is_TransientsOnBeats (m : MusicalContext F) (beats : list F)
    (startBar endBar : Z) (intensity sharpness : F) (b : Builder F) (fuel : nat) :
  in_range startBar ->
  endBar < max_int ->
  b_musical b = Some m ->
  (Z.to_nat (endBar - startBar + 1) < fuel)%nat ->
  SequenceBuilder.Pattern fuel startBar endBar
    (fun (session : Builder F) (bar : Z) =>
       SequenceBuilder.TransientsOnBeatsInBar 2 beats bar intensity sharpness
                                              (Builder.Sequence session))
    b
  = SequenceBuilder.TransientsOnBeats fuel beats startBar endBar intensity sharpness b /\
  exists b' : Builder F,
    SequenceBuilder.TransientsOnBeats fuel beats startBar endBar intensity sharpness b
    = Returns b'.
Proof.
  intros Hstart Hend Hm Hfuel.
  rewrite (TransientsOnBeats_returns m) by assumption.
  split; [|eexists; reflexivity].
  unfold SequenceBuilder.Pattern.
  rewrite (Pattern_loop_run_bars _ endBar (Z.to_nat (endBar - startBar + 1)) Hend
             fuel startBar b Hstart eq_refl Hfuel).
  rewrite seqZ_to_nat.
  apply (run_bars_commits m); [|exact Hm].
  intros bar session Hbar Hsession.
  apply elem_of_seqZ in Hbar.
  assert (Hseq : Builder.Sequence session = session).
  { destruct session as [a mu]. simpl in Hsession. subst mu. reflexivity. }
  rewrite Hseq. unfold SequenceBuilder.TransientsOnBeatsInBar.
  rewrite (TransientsOnBeats_returns m);
    [|unfold in_range, min_int, max_int in *; lia|lia|exact Hsession|
     replace (bar - bar + 1) with 1 by lia; simpl; lia].
  replace (bar - bar + 1) with 1 by lia.
  change (seqZ bar 1) with [bar]. simpl. rewrite app_nil_r. reflexivity.
Qed.

(** With a negative step the loop variable of [EveryNthBeat] walks down
    from [0]: the loop condition holds until the variable wraps around. *)
Lemma EveryNthBeat_loop_negative_step (m : MusicalContext F)
    (n startBar endBar beatsPerBar totalBeats : Z) (intensity sharpness : F) :
  n < 0 ->
  0 < totalBeats ->
  beatsPerBar <> 0 ->
  forall (fuel : nat) (i : Z) (b : Builder F),
    i <= 0 ->
    min_int <= i + Z.of_nat fuel * n ->
    b_musical b = Some m ->
    SequenceBuilder.EveryNthBeat_loop fuel n startBar endBar beatsPerBar totalBeats i
                                      intensity sharpness b
    = OutOfFuel.
Proof.
  intros Hn HT Hbpb. induction fuel as [|fuel IH]; intros i b Hi Hmin Hm; simpl.
  - reflexivity.
  - destruct (Z.ltb_spec i totalBeats); [|lia].
    destruct (Z.eqb_spec beatsPerBar 0); [contradiction|].
    assert (Hnext : add i n = i + n).
    { apply wrap_in_range. unfold in_range, min_int, max_int in *. nia. }
    rewrite Hnext.
    destruct (add startBar (quo i beatsPerBar) <=? endBar)%Z.
    + rewrite Hm, transient_add_append. apply IH; [lia|nia|exact Hm].
    + apply IH; [lia|nia|exact Hm].
Qed.

(** [EveryNthBeat] with a negative step over a range that has beats: no
    return while the loop variable has not wrapped around. *)
Lemma EveryNthBeat_negative_step (m : MusicalContext F) (n startBar endBar : Z)
    (intensity sharpness : F) (b : Builder F) (fuel : nat) :
  n < 0 ->
  0 < (endBar - startBar + 1) * BeatsPerBar m <= max_int ->
  b_musical b = Some m ->
  Z.of_nat fuel * - n <= 2 ^ 63 ->
  SequenceBuilder.EveryNthBeat fuel n startBar endBar intensity sharpness b = OutOfFuel.
Proof.
  intros Hn HT Hm Hfuel.
  assert (Hrange : in_range ((endBar - startBar + 1) * BeatsPerBar m)).
  { unfold in_range, min_int, max_int. unfold max_int in HT. lia. }
  unfold SequenceBuilder.EveryNthBeat. rewrite Hm. cbv zeta.
  rewrite totalBeats_wrap, wrap_in_range by exact Hrange.
  assert (Hbpb : BeatsPerBar m <> 0).
  { intros Hzero. rewrite Hzero in HT. lia. }
  assert (Hmin : min_int <= 0 + Z.of_nat fuel * n) by (unfold min_int; lia).
  apply (EveryNthBeat_loop_negative_step m); [exact Hn|lia|exact Hbpb|lia|exact Hmin|exact Hm].
Qed.

End Generic.

(** The fourth sequence example: every 2nd beat of bars 0 to 3 at 120 BPM
    in 4/4, in binary64: eight transients, one second apart. *)
Lemma EveryNthBeat_commits_every_nth_beat_witness :
  let session :=
    mkBuilder (New "2024-01-01 00:00:00.000000" "Every 2nd Beat" "Go Developer")
              (Some (NewMusicalContext 120%float 4 4)) in
  SequenceBuilder.EveryNthBeat 9 2 0 3 0x1.999999999999ap-1%float 0.5%float session
  = Returns (append_elements
               (map (fun t => transient_element t 0x1.999999999999ap-1%float 0.5%float)
                    [0; 1; 2; 3; 4; 5; 6; 7]%float)
               session).
Proof.
  intros session.
  assert (Hw := EveryNthBeat_commits_every_nth_beat
                  (NewMusicalContext 120%float 4 4) 2 0 3
                  0x1.999999999999ap-1%float 0.5%float session 9).
  cbv zeta in Hw.
  destruct Hw as [Hw _].
  - lia.
  - reflexivity.
  - split; discriminate.
  - split; discriminate.
  - discriminate.
  - discriminate.
  - reflexivity.
  - vm_compute. lia.
  - rewrite Hw. vm_compute. reflexivity.
Defined.

(** Bars 0 to 2 at 120 BPM in 4/4, in binary64: with step 1 EveryNthBeat
    returns what EveryBeat returns. *)
Lemma EveryNthBeat_step_1_is_EveryBeat_witness :
  let session :=
    mkBuilder (New "2024-01-01 00:00:00.000000" "Every Beat" "Go Developer")
              (Some (NewMusicalContext 120%float 4 4)) in
  SequenceBuilder.EveryNthBeat 13 1 0 2 1%float 0.5%float session
  = SequenceBuilder.EveryBeat 4 0 2 1%float 0.5%float session.
Proof.
  intros session.
  assert (Hw := EveryNthBeat_step_1_is_EveryBeat
                  (NewMusicalContext 120%float 4 4) 0 2 1%float 0.5%float session 13 4).
  cbv zeta in Hw.
  destruct Hw as [Hw _].
  - reflexivity.
  - split; discriminate.
  - split; [discriminate|reflexivity].
  - split; [discriminate|reflexivity].
  - reflexivity.
  - vm_compute. lia.
  - vm_compute. lia.
  - exact Hw.
Defined.

(** Beats 0 and 2 of bars 5 to 8 at 120 BPM in 4/4, in binary64: the empty
    pattern grows to eight elements. *)
Lemma TransientsOnBeats_growth_witness :
  let session :=
    mkBuilder (New "2024-01-01 00:00:00.000000" "Kick Pattern" "Go Developer")
              (Some (NewMusicalContext 120%float 4 4)) in
  exists b' : Builder float,
    SequenceBuilder.TransientsOnBeats 5 [0; 2]%float 5 8 1%float 0.5%float session
    = Returns b' /\
    length (a_Pattern (b_ahap b')) = 8%nat.
Proof.
  intros session.
  destruct (TransientsOnBeats_growth (NewMusicalContext 120%float 4 4) [0; 2]%float 5 8
              1%float 0.5%float session 5) as (b' & Hrun & Hlen & _).
  - split; discriminate.
  - reflexivity.
  - reflexivity.
  - vm_compute. lia.
  - exists b'. split; [exact Hrun|]. rewrite Hlen. reflexivity.
Defined.

(** A callback that commits one default transient at the bar's number of
    seconds, run over bars 0 to 2 in binary64. *)
Lemma Pattern_runs_callback_bar_by_bar_witness :
  let session :=
    mkBuilder (New "2024-01-01 00:00:00.000000" "Custom Pattern" "Go Developer")
              (Some (NewMusicalContext 120%float 4 4)) in
  let fn (b : Builder float) (bar : Z) :=
    Returns (TransientBuilder.Add (Builder.Transient (Binary64.of_int bar)) b) in
  SequenceBuilder.Pattern 4 0 2 fn session
  = Returns (append_elements
               (map (fun t => transient_element t 0.5%float 0.5%float) [0; 1; 2]%float)
               session).
Proof.
  intros session fn.
  destruct (Pattern_runs_callback_bar_by_bar fn 0 2 session 4) as [Hw _].
  - split; discriminate.
  - reflexivity.
  - vm_compute. lia.
  - rewrite Hw. vm_compute. reflexivity.
Defined.

(** Beats 0 and 2 of bars 5 to 8 at 120 BPM in 4/4, in binary64, bar by bar
    through Pattern and at once through TransientsOnBeats. *)
Lemma Pattern_of_bars_is_TransientsOnBeats_witness :
  let session :=
    mkBuilder (New "2024-01-01 00:00:00.000000" "Kick Pattern" "Go Developer")
              (Some (NewMusicalContext 120%float 4 4)) in
  SequenceBuilder.Pattern 5 5 8
    (fun (b : Builder float) (bar : Z) =>
       SequenceBuilder.TransientsOnBeatsInBar 2 [0; 2]%float bar 1%float 0.5%float
                                              (Builder.Sequence b))
    session
  = SequenceBuilder.TransientsOnBeats 5 [0; 2]%float 5 8 1%float 0.5%float session.
Proof.
  intros session.
  destruct (Pattern_of_bars_is_TransientsOnBeats (NewMusicalContext 120%float 4 4)
              [0; 2]%float 5 8 1%float 0.5%float session 5) as [Hw _].
  - split; discriminate.
  - reflexivity.
  - reflexivity.
  - vm_compute. lia.
  - exact Hw.
Defined.

(** X11: EveryNthBeat with a negative step n over a range that has beats
    cannot return in fewer than 2^63 / |n| passes of its loop: the loop
    variable walks down from 0 and stays below the total number of beats
    until it has wrapped around the int range, so the call is still running
    after any number of passes up to 2^63 / |n| (2^63 passes for n = -1).
    After the wrap it can return: with n the smallest int plus one, over
    bar 0 in 4/4, it returns after four passes with four transients
    committed. *)
Theorem EveryNthBeat_negative_step_walks_down :
  (forall (F : Type) (ops : Float64 F) (m : MusicalContext F) (n startBar endBar : Z)
          (intensity sharpness : F) (b : Builder F) (fuel : nat),
     n < 0 ->
     0 < (endBar - startBar + 1) * BeatsPerBar m <= max_int ->
     b_musical b = Some m ->
     Z.of_nat fuel * - n <= 2 ^ 63 ->
     SequenceBuilder.EveryNthBeat fuel n startBar endBar intensity sharpness b = OutOfFuel) /\
  (let session :=
     mkBuilder (New "2024-01-01 00:00:00.000000" "Backwards" "Go Developer")
               (Some (NewMusicalContext 120%float 4 4)) in
   SequenceBuilder.EveryNthBeat 4 (min_int + 1) 0 0 1%float 0.5%float session = OutOfFuel /\
   exists b' : Builder float,
     SequenceBuilder.EveryNthBeat 5 (min_int + 1) 0 0 1%float 0.5%float session = Returns b' /\
     length (a_Pattern (b_ahap b')) = 4%nat).
Proof.
  split.
  - intros F ops m n startBar endBar intensity sharpness b fuel.
    apply EveryNthBeat_negative_step.
  - split; [vm_compute; reflexivity|].
    eexists. split; [vm_compute; reflexivity|]. reflexivity.
Qed.

(** Step -1 over bar 0 at 120 BPM in 4/4, in binary64: still running after
    a thousand passes. *)
Lemma EveryNthBeat_negative_step_walks_down_witness :
  let session :=
    mkBuilder (New "2024-01-01 00:00:00.000000" "Backwards" "Go Developer")
              (Some (NewMusicalContext 120%float 4 4)) in
  SequenceBuilder.EveryNthBeat 1000 (-1) 0 0 1%float 0.5%float session = OutOfFuel.
Proof.
  intros session.
  apply (proj1 EveryNthBeat_negative_step_walks_down float _
               (NewMusicalContext 120%float 4 4)).
  - lia.
  - split; [reflexivity|discriminate].
  - reflexivity.
  - vm_compute. discriminate.
Defined.

End SequenceLaws.

(** ** Musical positions on the time line *)

Module MusicalGrid.
Import Exact Binary64 GoInt Vocabulary Sequences SequenceLaws.

Local Open Scope R_scope.

(** Conversions are linear in exact arithmetic. *)
Lemma BeatToSeconds_plus (m : MusicalContext R) (x y : R) :
  BeatToSeconds m (x + y) = BeatToSeconds m x + BeatToSeconds m y.
Proof. unfold BeatToSeconds. simpl. ring. Qed.

Lemma BarToSeconds_plus (m : MusicalContext R) (x y : R) :
  BarToSeconds m (x + y) = BarToSeconds m x + BarToSeconds m y.
Proof. unfold BarToSeconds. simpl. ring. Qed.

Lemma BarToSeconds_in_beats (m : MusicalContext R) (x : R) :
  BarToSeconds m x = BeatToSeconds m (x * IZR (BeatsPerBar m)).
Proof. reflexivity. Qed.

(** Beat [k mod n] of bar [startBar + k / n] is the absolute beat
    [startBar * n + k]. *)
Lemma absolute_beat_time (m : MusicalContext R) (startBar k : Z) :
  (0 < BeatsPerBar m)%Z ->
  BarToSeconds m (IZR (startBar + k / BeatsPerBar m))
  + BeatToSeconds m (IZR (k mod BeatsPerBar m))
  = BeatToSeconds m (IZR (startBar * BeatsPerBar m + k)).
Proof.
  intros Hbpb. rewrite BarToSeconds_in_beats, <- BeatToSeconds_plus. f_equal.
  rewrite <- mult_IZR, <- plus_IZR. f_equal.
  pose proof (Z.div_mod k (BeatsPerBar m)). lia.
Qed.

(** X12: An event staged at a musical position with a musical duration, in exact
    arithmetic: AtBeat(x).ContinuousBeats(d) stages a continuous event that
    starts at the time of beat x and ends at the time of beat x + d, and
    AtBar(x).ContinuousBars(d) one from the time of bar x to the time of bar
    x + d; a bar position plus a beat offset is the absolute beat
    bar * beatsPerBar + offset, so an offset of a whole bar is the next
    bar's first beat. *)
Theorem staged_musical_event_spans (b : Builder R) (x d : R) :
  let m := ensure_musical b in
  (let '(eb, b1) := Builder.AtBeat x b in
   let '(cb, b2) := EventBuilder.ContinuousBeats d eb b1 in
   cont_time cb = BeatToSeconds m x /\
   cont_time cb + cont_duration cb = BeatToSeconds m (x + d) /\
   b2 = Builder.Sequence b) /\
  (let '(eb, b1) := Builder.AtBar x b in
   let '(cb, b2) := EventBuilder.ContinuousBars d eb b1 in
   cont_time cb = BarToSeconds m x /\
   cont_time cb + cont_duration cb = BarToSeconds m (x + d) /\
   b2 = Builder.Sequence b) /\
  BarToSeconds m x + BeatToSeconds m d = BeatToSeconds m (x * IZR (BeatsPerBar m) + d) /\
  BarToSeconds m x + BeatToSeconds m (IZR (BeatsPerBar m)) = BarToSeconds m (x + 1).
Proof.
  intros m. subst m.
  destruct b as [a [m|]]; unfold ensure_musical; cbn [b_musical];
    (split; [|split; [|split]]);
    try (cbn; repeat split; try reflexivity;
         unfold BeatToSeconds, BarToSeconds, BeatsPerBar; simpl; ring).
Qed.

(** X13: EveryNthBeat lays an evenly spaced grid, in exact arithmetic: under the
    conditions in which it returns (step n >= 1, at least one beat per bar,
    no integer overflow) the k-th transient it commits, k counted from 0,
    is at the time of the absolute beat startBar * beatsPerBar + k * n, that
    is (startBar * beatsPerBar + k * n) * (60 / BPM) seconds: consecutive
    transients are n beats apart, across bar lines too. *)
Theorem EveryNthBeat_is_evenly_spaced (m : MusicalContext R) (n startBar endBar : Z)
    (intensity sharpness : R) (b : Builder R) (fuel : nat) :
  let totalBeats := ((endBar - startBar + 1) * BeatsPerBar m)%Z in
  let count := ((totalBeats + n - 1) / n)%Z in
  (0 < n)%Z ->
  (0 < BeatsPerBar m)%Z ->
  in_range startBar ->
  in_range endBar ->
  (min_int <= totalBeats)%Z ->
  (totalBeats + n <= max_int)%Z ->
  b_musical b = Some m ->
  (Z.to_nat count < fuel)%nat ->
  SequenceBuilder.EveryNthBeat fuel n startBar endBar intensity sharpness b
  = Returns (append_elements
               (map (fun k : Z =>
                       transient_element
                         ((IZR (startBar * BeatsPerBar m) + IZR k * IZR n) * (60 / BPM m))
                         intensity sharpness)
                    (seqZ 0 count))
               b).
Proof.
  intros totalBeats count Hn Hbpb Hstart Hend Hmin Hmax Hm Hfuel.
  rewrite (EveryNthBeat_returns m n startBar endBar intensity sharpness b fuel)
    by assumption.
  fold totalBeats. fold count. f_equal. f_equal. apply map_ext. intros k.
  unfold absolute_beat_element. change (@f_add R _) with Rplus. change (@f_of_int R _) with IZR.
  rewrite absolute_beat_time by exact Hbpb.
  unfold BeatToSeconds. simpl. rewrite plus_IZR, (mult_IZR k n). reflexivity.
Qed.

(** Every 2nd beat of bars 1 to 2 at 120 BPM in 4/4: four transients one
    second apart, the first at the start of bar 1. *)
Lemma EveryNthBeat_is_evenly_spaced_witness :
  let session := mkBuilder (New "2024-01-01 00:00:00.000000" "Every 2nd Beat" "Go Developer")
                           (Some (NewMusicalContext 120 4 4)) in
  SequenceBuilder.EveryNthBeat 5 2 1 2 0.8 0.5 session
  = Returns (append_elements
               (map (fun t => transient_element t 0.8 0.5) [2; 3; 4; 5])
               session).
Proof.
  intros session.
  assert (Hw := EveryNthBeat_is_evenly_spaced (NewMusicalContext 120 4 4) 2 1 2 0.8 0.5
                  session 5).
  cbv zeta in Hw. rewrite Hw.
  - change (seqZ 0 _) with [0; 1; 2; 3]%Z.
    unfold BeatsPerBar, NewMusicalContext. cbn [mc_TimeSignature Numerator BPM].
    change (1 * 4)%Z with 4%Z. simpl.
    repeat (f_equal; try lra).
  - lia.
  - reflexivity.
  - split; discriminate.
  - split; discriminate.
  - discriminate.
  - discriminate.
  - reflexivity.
  - vm_compute. lia.
Defined.

End MusicalGrid.

(** ** Curve interpolator: the values *)

Module CurveValues.
Import Exact Vocabulary CurveLaws.

Local Open Scope R_scope.

(** The weight of sample [k] of [n]: [k / n], in (0, 1]. *)
Lemma fraction_bounds (N k : Z) :
  (1 <= k <= Z.max N 1)%Z -> 0 < IZR k / IZR (Z.max N 1) <= 1.
Proof.
  intros Hk. pose proof (IZR_steps_pos N) as Hn.
  assert (Hk0 : 0 < IZR k) by (apply IZR_lt; lia).
  assert (Hkn : IZR k <= IZR (Z.max N 1)) by (apply IZR_le; lia).
  split.
  - apply Rdiv_lt_0_compat; assumption.
  - apply (Rmult_le_reg_r (IZR (Z.max N 1))); [exact Hn|].
    unfold Rdiv. rewrite Rmult_assoc, Rinv_l by lra. lra.
Qed.

Lemma fraction_increasing (N j k : Z) :
  (j < k)%Z -> IZR j / IZR (Z.max N 1) < IZR k / IZR (Z.max N 1).
Proof.
  intros Hjk. pose proof (IZR_steps_pos N) as Hn.
  apply Rmult_lt_compat_r; [apply Rinv_0_lt_compat, Hn|apply IZR_lt, Hjk].
Qed.

(** The ease-in-out weight [f * f * (3 - 2 f)] maps [0, 1] into itself and
    is strictly increasing there. *)
Lemma smoothstep_bounds (f : R) : 0 <= f <= 1 -> 0 <= f * f * (3 - 2 * f) <= 1.
Proof.
  intros [H0 H1]. split.
  - apply Rmult_le_pos; [apply Rmult_le_pos; assumption|lra].
  - assert (Hsq : 0 <= (1 - f) * (1 - f) * (1 + 2 * f)).
    { apply Rmult_le_pos; [apply Rmult_le_pos; lra|lra]. }
    replace (f * f * (3 - 2 * f)) with (1 - (1 - f) * (1 - f) * (1 + 2 * f)) by ring.
    lra.
Qed.

Lemma smoothstep_increasing (f g : R) :
  0 < f -> f < g -> g <= 1 -> f * f * (3 - 2 * f) < g * g * (3 - 2 * g).
Proof.
  intros Hf Hfg Hg.
  assert (Hdiff : g * g * (3 - 2 * g) - f * f * (3 - 2 * f)
                  = (g - f) * (3 * (g + f) - 2 * (g * g + g * f + f * f))) by ring.
  assert (Hgg : g * g <= g) by nra.
  assert (Hgf : g * f <= f) by nra.
  assert (Hff : f * f <= f) by nra.
  assert (Hpos : 0 < (g - f) * (3 * (g + f) - 2 * (g * g + g * f + f * f))).
  { apply Rmult_lt_0_compat; lra. }
  lra.
Qed.

(** [math.Pow] of a base in (0, 1] with a non-negative exponent is in
    (0, 1]. *)
Lemma Rpower_unit_interval (f e : R) : 0 < f <= 1 -> 0 <= e -> 0 < Rpower f e <= 1.
Proof.
  intros [Hf0 Hf1] He. unfold Rpower. split; [apply exp_pos|].
  assert (Hln : ln f <= 0).
  { rewrite <- ln_1. destruct Hf1 as [Hlt | ->]; [|lra].
    apply Rlt_le, ln_increasing; assumption. }
  assert (Hprod : e * ln f <= 0) by nra.
  destruct Hprod as [Hneg | ->]; [|rewrite exp_0; lra].
  rewrite <- exp_0. apply Rlt_le, exp_increasing, Hneg.
Qed.

Lemma Rpower_one_base (e : R) : Rpower 1 e = 1.
Proof. unfold Rpower. rewrite ln_1, Rmult_0_r. apply exp_0. Qed.

(** A point between two values, by a weight in [0, 1]. *)
Lemma between_anchors (v0 v1 w : R) :
  0 <= w <= 1 -> Rmin v0 v1 <= v0 + (v1 - v0) * w <= Rmax v0 v1.
Proof.
  intros [H0 H1]. destruct (Rle_dec v0 v1) as [Hle|Hgt].
  - rewrite Rmin_left, Rmax_right by lra. nra.
  - rewrite Rmin_right, Rmax_left by lra. nra.
Qed.

(** Every point of a curve is one of its samples [k = 1 .. n]. *)
Lemma sample_of_lookup {A : Type} (pts : list A) (N : Z) (i : nat) (p : A) :
  length pts = Z.to_nat (Z.max N 1) ->
  pts !! i = Some p ->
  (1 <= Z.of_nat i + 1 <= Z.max N 1)%Z /\ i = Z.to_nat (Z.of_nat i + 1 - 1).
Proof.
  intros Hlen Hi. apply lookup_lt_Some in Hi. lia.
Qed.

Lemma all_samples {A : Type} (P : A -> Prop) (pts : list A) (N : Z) (sample : Z -> A) :
  length pts = Z.to_nat (Z.max N 1) ->
  (forall k : Z, (1 <= k <= Z.max N 1)%Z -> pts !! Z.to_nat (k - 1) = Some (sample k)) ->
  (forall k : Z, (1 <= k <= Z.max N 1)%Z -> P (sample k)) ->
  Forall P pts.
Proof.
  intros Hlen Hpts HP. apply Forall_lookup. intros i p Hi.
  destruct (sample_of_lookup pts N i p Hlen Hi) as [Hk Hidx].
  rewrite Hidx, (Hpts _ Hk) in Hi. injection Hi as <-. apply HP, Hk.
Qed.

Lemma samples_towards (v0 v1 : R) (pts : list (ControlPoint R)) (N : Z)
    (time weight : Z -> R) :
  length pts = Z.to_nat (Z.max N 1) ->
  (forall k : Z, (1 <= k <= Z.max N 1)%Z ->
     pts !! Z.to_nat (k - 1) = Some (mkControlPoint (time k) (v0 + (v1 - v0) * weight k))) ->
  (forall j k : Z, (1 <= j)%Z -> (j < k)%Z -> (k <= Z.max N 1)%Z -> weight j < weight k) ->
  v0 <> v1 ->
  values_strictly_towards v0 v1 pts.
Proof.
  intros Hlen Hpts Hw Hne i j p q Hij Hp Hq.
  destruct (sample_of_lookup pts N i p Hlen Hp) as [Hki Hi].
  destruct (sample_of_lookup pts N j q Hlen Hq) as [Hkj Hj].
  rewrite Hi, (Hpts _ Hki) in Hp. injection Hp as <-.
  rewrite Hj, (Hpts _ Hkj) in Hq. injection Hq as <-.
  simpl.
  assert (Hlt : weight (Z.of_nat i + 1)%Z < weight (Z.of_nat j + 1)%Z) by (apply Hw; lia).
  replace ((v1 - v0) * (v0 + (v1 - v0) * weight (Z.of_nat j + 1)%Z
                        - (v0 + (v1 - v0) * weight (Z.of_nat i + 1)%Z)))
    with ((v1 - v0) * (v1 - v0)
          * (weight (Z.of_nat j + 1)%Z - weight (Z.of_nat i + 1)%Z)) by ring.
  apply Rmult_lt_0_compat; [|lra].
  assert (Hd : v1 - v0 <> 0) by lra.
  destruct (Rtotal_order (v1 - v0) 0) as [Hneg | [Hz | Hpos]]; [nra|contradiction|nra].
Qed.

(** X14: The last point of every interpolated curve is the end anchor itself, in
    exact arithmetic: time and value, for every step count and, for the
    exponential law, every exponent. *)
Theorem curves_end_at_the_end_anchor (t0 v0 t1 v1 e : R) (N : Z) :
  let start := mkControlPoint t0 v0 in
  let end_ := mkControlPoint t1 v1 in
  last (CreateCurve t0 t1 v0 v1 N) = Some end_ /\
  last (LinearInterpolation start end_ N) = Some end_ /\
  last (EaseInOut start end_ N) = Some end_ /\
  last (Exponential start end_ N e) = Some end_.
Proof.
  intros start end_. subst start end_. pose proof (IZR_steps_pos N) as Hn.
  assert (Hidx : forall pts : list (ControlPoint R),
             length pts = Z.to_nat (Z.max N 1) ->
             last pts = pts !! Z.to_nat (Z.max N 1 - 1)).
  { intros pts Hlen. rewrite last_lookup, Hlen. f_equal. lia. }
  assert (Hone : IZR (Z.max N 1) / IZR (Z.max N 1) = 1) by (field; lra).
  assert (Hlinear : last (CreateCurve t0 t1 v0 v1 N) = Some (mkControlPoint t1 v1)).
  { rewrite Hidx by apply CreateCurve_length.
    rewrite CreateCurve_point by lia. rewrite Hone.
    f_equal. f_equal; field; lra. }
  split; [exact Hlinear|]. split; [exact Hlinear|]. split.
  - rewrite Hidx by apply EaseInOut_length.
    rewrite EaseInOut_point by lia. cbv zeta. rewrite Hone.
    f_equal. f_equal; field; lra.
  - rewrite Hidx by apply Exponential_length.
    rewrite Exponential_point by lia. cbv zeta. rewrite Hone, Rpower_one_base.
    f_equal. f_equal; field; lra.
Qed.

(** X15: No interpolated value overshoots, in exact arithmetic: every point of a
    linear or ease-in-out curve has its value between the two anchors'
    values, and so has every point of an exponential curve whose exponent is
    not negative. *)
Theorem interpolated_values_stay_between_anchors (t0 v0 t1 v1 e : R) (N : Z) :
  0 <= e ->
  let start := mkControlPoint t0 v0 in
  let end_ := mkControlPoint t1 v1 in
  let within (p : ControlPoint R) := Rmin v0 v1 <= cp_ParameterValue p <= Rmax v0 v1 in
  Forall within (CreateCurve t0 t1 v0 v1 N) /\
  Forall within (LinearInterpolation start end_ N) /\
  Forall within (EaseInOut start end_ N) /\
  Forall within (Exponential start end_ N e).
Proof.
  intros He start end_ within. subst start end_.
  assert (Hlinear : Forall within (CreateCurve t0 t1 v0 v1 N)).
  { apply (all_samples within _ N
             (fun k => mkControlPoint (t0 + IZR k * (t1 - t0) / IZR (Z.max N 1))
                                      (v0 + (v1 - v0) * (IZR k / IZR (Z.max N 1))))).
    - apply CreateCurve_length.
    - intros k Hk. apply CreateCurve_point, Hk.
    - intros k Hk. apply between_anchors.
      pose proof (fraction_bounds N k Hk). lra. }
  split; [exact Hlinear|]. split; [exact Hlinear|]. split.
  - apply (all_samples within _ N
             (fun k => let f := IZR k / IZR (Z.max N 1) in
                       mkControlPoint (t0 + IZR k * (t1 - t0) / IZR (Z.max N 1))
                                      (v0 + (v1 - v0) * f * f * (3 - 2 * f)))).
    + apply EaseInOut_length.
    + intros k Hk. apply EaseInOut_point, Hk.
    + intros k Hk. unfold within. cbv zeta. cbn [cp_ParameterValue].
      pose proof (fraction_bounds N k Hk) as Hf.
      replace (v0 + (v1 - v0) * (IZR k / IZR (Z.max N 1)) * (IZR k / IZR (Z.max N 1))
                    * (3 - 2 * (IZR k / IZR (Z.max N 1))))
        with (v0 + (v1 - v0) * ((IZR k / IZR (Z.max N 1)) * (IZR k / IZR (Z.max N 1))
                                * (3 - 2 * (IZR k / IZR (Z.max N 1))))) by ring.
      apply between_anchors, smoothstep_bounds. lra.
  - apply (all_samples within _ N
             (fun k => let f := IZR k / IZR (Z.max N 1) in
                       mkControlPoint (t0 + IZR k * (t1 - t0) / IZR (Z.max N 1))
                                      (v0 + (v1 - v0) * Rpower f e))).
    + apply Exponential_length.
    + intros k Hk. apply Exponential_point, Hk.
    + intros k Hk. apply between_anchors.
      pose proof (Rpower_unit_interval _ e (fraction_bounds N k Hk) He). lra.
Qed.

(** The no-overshoot property on the quadratic curve from (0, 0) to (1, 1)
    in 10 steps. *)
Lemma interpolated_values_stay_between_anchors_witness :
  Forall (fun p : ControlPoint R => Rmin 0 1 <= cp_ParameterValue p <= Rmax 0 1)
         (Exponential (mkControlPoint 0 0) (mkControlPoint 1 1) 10 2).
Proof.
  apply (interpolated_values_stay_between_anchors 0 0 1 1 2 10). lra.
Defined.

(** X16: Interpolated values are strictly monotone along the curve, in exact
    arithmetic: when the anchors' values differ, each point of a linear or
    ease-in-out curve, and of an exponential curve with a positive exponent,
    is strictly farther from the start value towards the end value than the
    points before it. *)
Theorem interpolated_values_are_monotone (t0 v0 t1 v1 e : R) (N : Z) :
  v0 <> v1 ->
  0 < e ->
  let start := mkControlPoint t0 v0 in
  let end_ := mkControlPoint t1 v1 in
  values_strictly_towards v0 v1 (CreateCurve t0 t1 v0 v1 N) /\
  values_strictly_towards v0 v1 (LinearInterpolation start end_ N) /\
  values_strictly_towards v0 v1 (EaseInOut start end_ N) /\
  values_strictly_towards v0 v1 (Exponential start end_ N e).
Proof.
  intros Hne He start end_. subst start end_.
  assert (Hlinear : values_strictly_towards v0 v1 (CreateCurve t0 t1 v0 v1 N)).
  { apply (samples_towards v0 v1 _ N
             (fun k => t0 + IZR k * (t1 - t0) / IZR (Z.max N 1))
             (fun k => IZR k / IZR (Z.max N 1))).
    - apply CreateCurve_length.
    - intros k Hk. apply CreateCurve_point, Hk.
    - intros j k _ Hjk _. apply fraction_increasing, Hjk.
    - exact Hne. }
  split; [exact Hlinear|]. split; [exact Hlinear|]. split.
  - apply (samples_towards v0 v1 _ N
             (fun k => t0 + IZR k * (t1 - t0) / IZR (Z.max N 1))
             (fun k => let f := IZR k / IZR (Z.max N 1) in f * f * (3 - 2 * f))).
    + apply EaseInOut_length.
    + intros k Hk. rewrite (EaseInOut_point t0 t1 v0 v1 N k Hk). cbv zeta.
      f_equal. f_equal. ring.
    + intros j k Hj Hjk Hk. cbv zeta.
      apply smoothstep_increasing.
      * apply (fraction_bounds N j). lia.
      * apply fraction_increasing, Hjk.
      * apply (fraction_bounds N k). lia.
    + exact Hne.
  - apply (samples_towards v0 v1 _ N
             (fun k => t0 + IZR k * (t1 - t0) / IZR (Z.max N 1))
             (fun k => Rpower (IZR k / IZR (Z.max N 1)) e)).
    + apply Exponential_length.
    + intros k Hk. apply Exponential_point, Hk.
    + intros j k Hj Hjk Hk. apply Rlt_Rpower_l; [exact He|]. split.
      * apply (fraction_bounds N j). lia.
      * apply fraction_increasing, Hjk.
    + exact Hne.
Qed.

(** Monotonicity on the falling ease-in-out curve from (0, 1) to (2, 0) in
    10 steps: its values move strictly from 1 towards 0. *)
Lemma interpolated_values_are_monotone_witness :
  1 <> 0 /\
  values_strictly_towards 1 0 (EaseInOut (mkControlPoint 0 1) (mkControlPoint 2 0) 10).
Proof.
  split; [lra|].
  apply (interpolated_values_are_monotone 0 1 2 0 1 10); lra.
Defined.

End CurveValues.

(** ** Frequency to sharpness: range and order *)

Module SharpnessOrder.
Import Exact ExactFacts Sharpness.

Local Open Scope R_scope.

(** The logarithmic ratio is strictly increasing on the band. *)
Lemma ratio_increasing (f1 f2 : R) :
  0 < f1 -> f1 < f2 ->
  (ln f1 - ln 80) / (ln 230 - ln 80) < (ln f2 - ln 80) / (ln 230 - ln 80).
Proof.
  intros H1 H12. pose proof ln_band_width as Hden.
  pose proof (ln_increasing f1 f2 H1 H12) as Hln.
  apply Rmult_lt_compat_r; [apply Rinv_0_lt_compat, Hden|lra].
Qed.

Lemma clamp_monotone (f1 f2 : R) :
  f1 <= f2 -> Rmax 80 (Rmin f1 230) <= Rmax 80 (Rmin f2 230).
Proof.
  intros H12. apply Rmax_lub.
  - apply Rmax_l.
  - apply Rle_trans with (Rmin f2 230); [|apply Rmax_r].
    apply Rmin_glb; [apply Rle_trans with f1; [apply Rmin_l|exact H12]|apply Rmin_r].
Qed.

Lemma FreqToSharpness_clamped_value (freq : R) :
  FreqToSharpness freq true
  = ((ln (Rmax 80 (Rmin freq 230)) - ln 80) / (ln 230 - ln 80), None).
Proof.
  rewrite FreqToSharpness_clamped. apply FreqToSharpness_in_band, clamped_in_band.
Qed.

Lemma FreqToSharpness_saturates_low (freq : R) :
  freq <= 80 -> FreqToSharpness freq true = (0, None).
Proof.
  intros Hlow. rewrite FreqToSharpness_clamped_value.
  rewrite Rmax_left by (apply Rle_trans with freq; [apply Rmin_l|exact Hlow]).
  f_equal. unfold Rdiv. ring.
Qed.

Lemma FreqToSharpness_saturates_high (freq : R) :
  230 <= freq -> FreqToSharpness freq true = (1, None).
Proof.
  intros Hhigh. pose proof ln_band_width as Hden.
  rewrite FreqToSharpness_clamped_value.
  rewrite Rmin_right, Rmax_right by lra.
  f_equal. field. lra.
Qed.

(** X17: In exact arithmetic the value FreqToSharpness returns is always in
    [0, 1], also when it fails; inside the band a higher frequency gives a
    strictly higher sharpness; with clamping the sharpness never decreases
    when the frequency rises, every frequency up to 80 Hz gives 0 and every
    frequency from 230 Hz gives 1. *)
Theorem sharpness_range_and_order :
  (forall (freq : R) (clamp : bool), 0 <= fst (FreqToSharpness freq clamp) <= 1) /\
  (forall (f1 f2 : R) (clamp : bool),
     80 <= f1 -> f1 < f2 -> f2 <= 230 ->
     fst (FreqToSharpness f1 clamp) < fst (FreqToSharpness f2 clamp)) /\
  (forall f1 f2 : R,
     f1 <= f2 -> fst (FreqToSharpness f1 true) <= fst (FreqToSharpness f2 true)) /\
  (forall freq : R, freq <= 80 -> FreqToSharpness freq true = (0, None)) /\
  (forall freq : R, 230 <= freq -> FreqToSharpness freq true = (1, None)).
Proof.
  pose proof ln_band_width as Hden.
  split; [|split; [|split; [|split]]].
  - intros freq clamp.
    destruct (FreqToSharpness_cases freq clamp)
      as [(_ & Hband & ->) | [(_ & Hband & ->) | (_ & _ & ->)]]; simpl.
    + apply ratio_in_unit_interval, Hband.
    + apply ratio_in_unit_interval, Hband.
    + lra.
  - intros f1 f2 clamp H1 H12 H2.
    rewrite (FreqToSharpness_in_band f1 clamp), (FreqToSharpness_in_band f2 clamp) by lra.
    simpl. apply ratio_increasing; lra.
  - intros f1 f2 H12. rewrite !FreqToSharpness_clamped_value. simpl.
    pose proof (clamped_in_band f1) as Hc1.
    destruct (clamp_monotone f1 f2 H12) as [Hlt | Heq].
    + apply Rlt_le, ratio_increasing; lra.
    + rewrite Heq. lra.
  - apply FreqToSharpness_saturates_low.
  - apply FreqToSharpness_saturates_high.
Qed.

End SharpnessOrder.

(** ** MIDI notes ([cmd/midi2ahap]) *)

Module MidiNotes.
Import Exact ExactFacts Sharpness SharpnessOrder.

Local Open Scope R_scope.

Lemma midiNoteToFreq_exact (note : Z) :
  midiNoteToFreq note = 440 * Rpower 2 ((IZR note - 69) / 12).
Proof. reflexivity. Qed.

Lemma midiNoteToFreq_pos (note : Z) : 0 < midiNoteToFreq note.
Proof.
  rewrite midiNoteToFreq_exact. apply Rmult_lt_0_compat; [lra|apply exp_pos].
Qed.

Lemma midiNoteToFreq_increasing (n1 n2 : Z) :
  (n1 < n2)%Z -> midiNoteToFreq n1 < midiNoteToFreq n2.
Proof.
  intros Hlt. rewrite !midiNoteToFreq_exact.
  apply Rmult_lt_compat_l; [lra|]. apply Rpower_lt; [lra|].
  apply IZR_lt in Hlt. lra.
Qed.

Lemma midiNoteToFreq_monotone (n1 n2 : Z) :
  (n1 <= n2)%Z -> midiNoteToFreq n1 <= midiNoteToFreq n2.
Proof.
  intros Hle. destruct (Z.eq_dec n1 n2) as [->|Hne]; [lra|].
  apply Rlt_le, midiNoteToFreq_increasing. lia.
Qed.

(** A rational power of 2 against a positive bound, decided on integer
    powers: [2^(p/q) < c] when [2^p < c^q], and [c < 2^(p/q)] when
    [c^q < 2^p]. *)
Lemma Rpower_root_pow (p q : nat) :
  (0 < q)%nat -> Rpower 2 (INR p / INR q) ^ q = 2 ^ p.
Proof.
  intros Hq.
  assert (HqR : 0 < INR q) by (apply lt_0_INR; lia).
  rewrite <- Rpower_pow by apply exp_pos.
  rewrite Rpower_mult.
  replace (INR p / INR q * INR q) with (INR p) by (field; lra).
  apply Rpower_pow. lra.
Qed.

Lemma Rpower_root_lt (p q : nat) (c : R) :
  (0 < q)%nat -> 0 < c -> 2 ^ p < c ^ q -> Rpower 2 (INR p / INR q) < c.
Proof.
  intros Hq Hc Hpow. destruct (Rlt_dec (Rpower 2 (INR p / INR q)) c) as [Hlt|Hge]; [exact Hlt|].
  exfalso. assert (Hle : c ^ q <= Rpower 2 (INR p / INR q) ^ q) by (apply pow_incr; lra).
  rewrite Rpower_root_pow in Hle by exact Hq. lra.
Qed.

Lemma Rpower_root_gt (p q : nat) (c : R) :
  (0 < q)%nat -> 0 < c -> c ^ q < 2 ^ p -> c < Rpower 2 (INR p / INR q).
Proof.
  intros Hq Hc Hpow. destruct (Rlt_dec c (Rpower 2 (INR p / INR q))) as [Hlt|Hge]; [exact Hlt|].
  exfalso.
  assert (Hpos : 0 < Rpower 2 (INR p / INR q)) by apply exp_pos.
  assert (Hle : Rpower 2 (INR p / INR q) ^ q <= c ^ q) by (apply pow_incr; lra).
  rewrite Rpower_root_pow in Hle by exact Hq. lra.
Qed.

(** A frequency [440 / 2^x] against a bound. *)
Lemma midiNoteToFreq_below_A4 (note : Z) (p q : nat) :
  (0 < q)%nat -> (69 - IZR note) / 12 = INR p / INR q ->
  midiNoteToFreq note = 440 / Rpower 2 (INR p / INR q).
Proof.
  intros Hq Hx. rewrite midiNoteToFreq_exact.
  replace ((IZR note - 69) / 12) with (- (INR p / INR q)) by (rewrite <- Hx; field).
  rewrite Rpower_Ropp. reflexivity.
Qed.

(** The four notes at the edges of the band: 39 (D#2) is below 80 Hz and 40
    (E2) above it; 57 (A3) is below 230 Hz and 58 (A#3) above it. *)
Lemma note_39_below_band : midiNoteToFreq 39 < 80.
Proof.
  rewrite (midiNoteToFreq_below_A4 39 5 2) by (simpl; lia || lra).
  assert (Hroot : 11 / 2 < Rpower 2 (INR 5 / INR 2)).
  { apply Rpower_root_gt; [lia|lra|simpl; lra]. }
  assert (Hpos : 0 < Rpower 2 (INR 5 / INR 2)) by apply exp_pos.
  apply (Rmult_lt_reg_r (Rpower 2 (INR 5 / INR 2))); [exact Hpos|].
  unfold Rdiv. rewrite Rmult_assoc, Rinv_l by lra. lra.
Qed.

Lemma note_40_in_band : 80 < midiNoteToFreq 40.
Proof.
  rewrite (midiNoteToFreq_below_A4 40 29 12) by (simpl; lia || lra).
  assert (Hroot : Rpower 2 (INR 29 / INR 12) < 11 / 2).
  { apply Rpower_root_lt; [lia|lra|simpl; lra]. }
  assert (Hpos : 0 < Rpower 2 (INR 29 / INR 12)) by apply exp_pos.
  apply (Rmult_lt_reg_r (Rpower 2 (INR 29 / INR 12))); [exact Hpos|].
  unfold Rdiv. rewrite Rmult_assoc, Rinv_l by lra. lra.
Qed.

Lemma note_57_in_band : midiNoteToFreq 57 = 220.
Proof.
  rewrite midiNoteToFreq_exact.
  replace ((57 - 69) / 12) with (Ropp 1) by field.
  rewrite Rpower_Ropp, Rpower_1 by lra. field.
Qed.

Lemma note_58_above_band : 230 < midiNoteToFreq 58.
Proof.
  rewrite (midiNoteToFreq_below_A4 58 11 12) by (simpl; lia || lra).
  assert (Hroot : Rpower 2 (INR 11 / INR 12) < 44 / 23).
  { apply Rpower_root_lt; [lia|lra|simpl; lra]. }
  assert (Hpos : 0 < Rpower 2 (INR 11 / INR 12)) by apply exp_pos.
  apply (Rmult_lt_reg_r (Rpower 2 (INR 11 / INR 12))); [exact Hpos|].
  unfold Rdiv. rewrite Rmult_assoc, Rinv_l by lra. lra.
Qed.

Lemma melodic_sharpness_exact (key : Z) :
  melodic_sharpness key = fst (FreqToSharpness (midiNoteToFreq key) true).
Proof.
  unfold melodic_sharpness. cbv zeta. rewrite FreqToSharpness_clamped_value. reflexivity.
Qed.

(** X18: The equal-tempered scale of midiNoteToFreq, in exact arithmetic:
    note 69 (A4) is 440 Hz, twelve notes up the frequency doubles, every
    frequency is positive, and a higher note has a strictly higher
    frequency. *)
Theorem midiNoteToFreq_scale :
  midiNoteToFreq 69 = 440 /\
  (forall note : Z, midiNoteToFreq (note + 12) = 2 * midiNoteToFreq note) /\
  (forall note : Z, 0 < midiNoteToFreq note) /\
  (forall n1 n2 : Z, (n1 < n2)%Z -> midiNoteToFreq n1 < midiNoteToFreq n2).
Proof.
  split; [|split; [|split]].
  - rewrite midiNoteToFreq_exact.
    replace ((69 - 69) / 12) with 0 by field.
    rewrite Rpower_O by lra. ring.
  - intros note. rewrite !midiNoteToFreq_exact, plus_IZR.
    replace ((IZR note + 12 - 69) / 12) with ((IZR note - 69) / 12 + 1) by field.
    rewrite Rpower_plus, Rpower_1 by lra. ring.
  - apply midiNoteToFreq_pos.
  - apply midiNoteToFreq_increasing.
Qed.

(** X19: The sharpness midi2ahap gives melodic notes, in exact arithmetic: the
    clamped conversion never fails, so the fallback 0.5 is never used; every
    note up to 39 (D#2) gets sharpness 0 and every note from 58 (A#3) gets
    sharpness 1; only the eighteen notes 40 to 57 get a sharpness strictly
    between, higher for a higher note. *)
Theorem melodic_sharpness_saturates :
  (forall key : Z, snd (FreqToSharpness (midiNoteToFreq key) true) = None) /\
  (forall key : Z, (key <= 39)%Z -> melodic_sharpness key = 0) /\
  (forall key : Z, (58 <= key)%Z -> melodic_sharpness key = 1) /\
  (forall key : Z, (40 <= key <= 57)%Z -> 0 < melodic_sharpness key < 1) /\
  (forall k1 k2 : Z,
     (40 <= k1)%Z -> (k1 < k2)%Z -> (k2 <= 57)%Z ->
     melodic_sharpness k1 < melodic_sharpness k2).
Proof.
  pose proof ln_band_width as Hden.
  pose proof note_39_below_band as H39. pose proof note_40_in_band as H40.
  pose proof note_57_in_band as H57. pose proof note_58_above_band as H58.
  assert (Hband : forall key : Z, (40 <= key <= 57)%Z -> 80 < midiNoteToFreq key < 230).
  { intros key [Hlo Hhi].
    pose proof (midiNoteToFreq_monotone 40 key Hlo).
    pose proof (midiNoteToFreq_monotone key 57 Hhi). lra. }
  assert (Hvalue : forall key : Z,
             (40 <= key <= 57)%Z ->
             melodic_sharpness key = (ln (midiNoteToFreq key) - ln 80) / (ln 230 - ln 80)).
  { intros key Hkey. pose proof (Hband key Hkey).
    rewrite melodic_sharpness_exact, (FreqToSharpness_in_band _ true) by lra. reflexivity. }
  split; [|split; [|split; [|split]]].
  - intros key. rewrite FreqToSharpness_clamped_value. reflexivity.
  - intros key Hkey. pose proof (midiNoteToFreq_monotone key 39 Hkey).
    rewrite melodic_sharpness_exact, FreqToSharpness_saturates_low by lra. reflexivity.
  - intros key Hkey. pose proof (midiNoteToFreq_monotone 58 key Hkey).
    rewrite melodic_sharpness_exact, FreqToSharpness_saturates_high by lra. reflexivity.
  - intros key Hkey. rewrite (Hvalue key Hkey). pose proof (Hband key Hkey) as [Hlo Hhi].
    pose proof (ratio_increasing 80 (midiNoteToFreq key) ltac:(lra) Hlo) as H0.
    pose proof (ratio_increasing (midiNoteToFreq key) 230 (midiNoteToFreq_pos key) Hhi) as H1.
    replace ((ln 80 - ln 80) / (ln 230 - ln 80)) with 0 in H0 by (unfold Rdiv; ring).
    replace ((ln 230 - ln 80) / (ln 230 - ln 80)) with 1 in H1 by (field; lra).
    lra.
  - intros k1 k2 Hlo Hlt Hhi. rewrite (Hvalue k1), (Hvalue k2) by lia.
    apply ratio_increasing; [apply midiNoteToFreq_pos|apply midiNoteToFreq_increasing, Hlt].
Qed.

End MidiNotes.

(** ** Note values ([cmd/haptrack]) *)

Module NoteValues.
Import Exact Binary64.

Local Open Scope R_scope.

(** X20: beatDuration(noteValue, denominator), the length in beats of a note in
    a time signature with the given denominator: in exact arithmetic it is
    denominator / noteValue for every note value other than zero, so the
    note the denominator names lasts one beat and a note of twice the value
    lasts half as long.  In binary64 the table of the source holds as it
    stands for denominator 4 (1, 2, 4, 8, 16 last 4, 2, 1, 0.5, 0.25 beats),
    and a note value of 0 gives an infinite duration, not an error. *)
Theorem beatDuration_is_denominator_over_note_value :
  (forall noteValue denominator : Z,
     noteValue <> 0%Z ->
     beatDuration noteValue denominator = IZR denominator / IZR noteValue /\
     beatDuration noteValue noteValue = 1 /\
     beatDuration (2 * noteValue) denominator = beatDuration noteValue denominator / 2) /\
  (beatDuration 1 4 = 4%float /\ beatDuration 2 4 = 2%float /\ beatDuration 4 4 = 1%float /\
   beatDuration 8 4 = 0.5%float /\ beatDuration 16 4 = 0.25%float) /\
  beatDuration 0 4 = infinity.
Proof.
  split; [|split].
  - intros noteValue denominator Hnv. apply not_0_IZR in Hnv.
    unfold beatDuration. simpl. rewrite mult_IZR.
    repeat split; field; lra.
  - vm_compute. repeat split.
  - vm_compute. reflexivity.
Qed.

(** An eighth note lasts one beat in a signature over 8 and 4/8 of a beat
    in a signature over 4. *)
Lemma beatDuration_is_denominator_over_note_value_witness :
  beatDuration (F:=R) 8 8 = 1 /\ beatDuration (F:=R) 8 4 = 4 / 8.
Proof.
  destruct (proj1 beatDuration_is_denominator_over_note_value 8%Z 8%Z ltac:(discriminate))
    as (_ & Hone & _).
  destruct (proj1 beatDuration_is_denominator_over_note_value 8%Z 4%Z ltac:(discriminate))
    as (Hlaw & _ & _).
  split; [exact Hone|exact Hlaw].
Defined.

End NoteValues.

(** ** Curve stages: the start time *)

Module CurveStages.

Section Generic.

Context {F : Type} `{Float64Math F}.

(** X21: The start time of a committed curve is the one At set last, and 0 when
    At was never called: From and To only anchor the interpolation, and
    neither they nor a selector, AddPoint or Points change the start time;
    At in turn leaves the points alone, so it can be called anywhere in the
    chain before Add. *)
Theorem curve_start_time_is_set_by_At_alone (id : string) (cb : CurveBuilder F)
    (ctb : CurveToBuilder F) (pts : list (ControlPoint F))
    (t t' t0 v0 t1 v1 time value exponent : F) (steps : Z) (b : Builder F) :
  let segment := CurveFromBuilder.To t1 v1 (CurveBuilder.From t0 v0) in
  (a_Pattern (b_ahap (CurveBuilder.Add (CurveToBuilder.Steps steps segment (Builder.Curve id)) b))
   = a_Pattern (b_ahap b)
     ++ [mkPattern None (Some (mkParameterCurve id (f_of_int 0)
                                                (CreateCurve t0 t1 v0 v1 steps)))] /\
   a_Pattern (b_ahap (CurveBuilder.Add
                        (CurveBuilder.At t (CurveToBuilder.Steps steps segment (Builder.Curve id)))
                        b))
   = a_Pattern (b_ahap b)
     ++ [mkPattern None (Some (mkParameterCurve id t (CreateCurve t0 t1 v0 v1 steps)))]) /\
  (curve_startTime (CurveBuilder.AddPoint time value cb) = curve_startTime cb /\
   curve_startTime (CurveBuilder.Points pts cb) = curve_startTime cb /\
   curve_startTime (CurveToBuilder.Steps steps ctb cb) = curve_startTime cb /\
   curve_startTime (CurveToBuilder.EaseInOut steps ctb cb) = curve_startTime cb /\
   curve_startTime (CurveToBuilder.Exponential steps exponent ctb cb) = curve_startTime cb) /\
  (curve_points (CurveBuilder.At t cb) = curve_points cb /\
   CurveBuilder.At t' (CurveBuilder.At t cb) = CurveBuilder.At t' cb /\
   CurveBuilder.At t (CurveBuilder.AddPoint time value cb)
   = CurveBuilder.AddPoint time value (CurveBuilder.At t cb) /\
   CurveBuilder.At t (CurveBuilder.Points pts cb)
   = CurveBuilder.Points pts (CurveBuilder.At t cb) /\
   CurveBuilder.At t (CurveToBuilder.Steps steps ctb cb)
   = CurveToBuilder.Steps steps ctb (CurveBuilder.At t cb) /\
   CurveBuilder.At t (CurveToBuilder.EaseInOut steps ctb cb)
   = CurveToBuilder.EaseInOut steps ctb (CurveBuilder.At t cb) /\
   CurveBuilder.At t (CurveToBuilder.Exponential steps exponent ctb cb)
   = CurveToBuilder.Exponential steps exponent ctb (CurveBuilder.At t cb)).
Proof. intros segment. repeat split. Qed.

End Generic.

End CurveStages.

(** ** The package's own tests and examples, run in binary64 *)

Module PackageTests.
Import Binary64 Vocabulary Protocol Sequences.

Local Open Scope float_scope.

(** [TestCreateCurve]: ten points, the first at (0.1, 0.1), the last at
    (1.0, 1.0); [0x1.999999999999ap-4] is the binary64 number Go writes
    [0.1]. *)
Lemma TestCreateCurve :
  let points := CreateCurve 0 1 0 1 10 in
  length points = 10%nat /\
  points !! 0%nat = Some (mkControlPoint 0x1.999999999999ap-4 0x1.999999999999ap-4) /\
  points !! 9%nat = Some (mkControlPoint 1 1).
Proof. vm_compute. repeat split. Qed.

(** [TestBuilder]: a transient and a continuous event, two elements. *)
Lemma TestBuilder :
  let b := Builder.NewBuilder "2024-01-01 00:00:00.000000" "test" "test creator" in
  let b := TransientBuilder.Add
             (TransientBuilder.Sharpness 0.5
                (TransientBuilder.Intensity 1 (Builder.Transient 0))) b in
  let b := ContinuousBuilder.Add
             (ContinuousBuilder.Sharpness 0x1.6666666666666p-1
                (ContinuousBuilder.Intensity 0x1.999999999999ap-1
                   (Builder.Continuous 1 2))) b in
  length (a_Pattern (Builder.Build b)) = 2%nat.
Proof. reflexivity. Qed.

(** [TestBuilderMusical]: at 120 BPM in 4/4, beat 0 is at 0 s, beat 1 at
    0.5 s and bar 1 at 2 s. *)
Lemma TestBuilderMusical :
  let b := Builder.WithTimeSignature 4 4
             (Builder.WithBPM 120
                (Builder.NewBuilder "2024-01-01 00:00:00.000000" "musical test"
                                    "test creator")) in
  let '(eb, b) := Builder.AtBeat 0 b in
  let b := TransientBuilder.Add (TransientBuilder.Intensity 1 (EventBuilder.Transient eb)) b in
  let '(eb, b) := Builder.AtBeat 1 b in
  let b := TransientBuilder.Add
             (TransientBuilder.Intensity 0x1.999999999999ap-1 (EventBuilder.Transient eb)) b in
  let '(eb, b) := Builder.AtBar 1 b in
  let b := ContinuousBuilder.Add
             (ContinuousBuilder.Intensity 0.5 (EventBuilder.Continuous 1 eb)) b in
  map (fun el => ev_Time <$> p_Event el) (a_Pattern (Builder.Build b))
  = [Some 0; Some 0.5; Some 2].
Proof. vm_compute. reflexivity. Qed.

(** [TestBuilderCurve]: a continuous event, then a sharpness curve of ten
    interpolated control points. *)
Lemma TestBuilderCurve :
  let b := Builder.NewBuilder "2024-01-01 00:00:00.000000" "curve test" "test creator" in
  let b := ContinuousBuilder.Add
             (ContinuousBuilder.Sharpness 0.5
                (ContinuousBuilder.Intensity 0.5 (Builder.Continuous 0 2))) b in
  let cb := CurveBuilder.At 0 (Builder.Curve CurveHapticSharpness) in
  let ctb := CurveFromBuilder.To 2 0x1.999999999999ap-1
               (CurveBuilder.From 0 0x1.3333333333333p-2) in
  let b := CurveBuilder.Add (CurveToBuilder.Steps 10 ctb cb) b in
  length (a_Pattern (Builder.Build b)) = 2%nat /\
  (length <$> (pc_ParameterCurveControlPoints <$>
                 (a_Pattern (Builder.Build b) !! 1%nat ≫= p_ParameterCurve)))
  = Some 10%nat.
Proof. vm_compute. split; reflexivity. Qed.

(** The session of the specification's example: at 120 BPM in 4/4 an event
    at beat 4 is at 2 s, one at bar 2 at 4 s. *)
Lemma beat_4_and_bar_2 :
  let b := Builder.WithTimeSignature 4 4
             (Builder.WithBPM 120
                (Builder.NewBuilder "2024-01-01 00:00:00.000000" "" "")) in
  eb_time (fst (Builder.AtBeat 4 b)) = 2 /\ eb_time (fst (Builder.AtBar 2 b)) = 4.
Proof. vm_compute. split; reflexivity. Qed.

(** The fourth sequence example: every 2nd beat of bars 0 to 3 at 120 BPM in
    4/4, with step 2: eight transients, one second apart. *)
Lemma EveryNthBeat_example :
  let b := Builder.WithTimeSignature 4 4
             (Builder.WithBPM 120
                (Builder.NewBuilder "2024-01-01 00:00:00.000000" "Every 2nd Beat"
                                    "Go Developer")) in
  SequenceBuilder.EveryNthBeat 9 2 0 3 0x1.999999999999ap-1 0.5 (Builder.Sequence b)
  = Returns (append_elements
               (map (fun t => transient_element t 0x1.999999999999ap-1 0.5)
                    [0; 1; 2; 3; 4; 5; 6; 7])
               b).
Proof. vm_compute. reflexivity. Qed.

(** Rounding: in binary64 the 49-step linear curve from 0 to 1 ends one
    unit in the last place below 1, since (1/49) * 49 rounds down; in exact
    arithmetic it ends at 1. *)
Lemma CreateCurve_49_steps_last_time :
  cp_Time <$> last (CreateCurve 0 1 0 1 49) = Some 0x1.fffffffffffffp-1.
Proof. vm_compute. reflexivity. Qed.

End PackageTests.
